(** * ChessTest: a shallow embedding of the chess engine

    The repository holds two implementations of the same engine:

    - the monolithic [ChessGame] class (one file, pieces are strings such as
      ['pawn-white'], the board is a plain 8x8 array) together with the
      free functions of [pgn.js]; it is embedded in [Module Mono];
    - the layered rewrite under [js/] ([Board], [Piece] subclasses,
      [GameState], [MoveValidator], [GameController], [PGNService]); it is
      embedded in [Module Layered].

    Rows and columns are JavaScript numbers; only integers ever reach the
    engine (they come from [parseInt] of a data attribute, from loop
    counters or from sums of those with small offsets), so they are [Z].
    DOM rendering, logging and local storage are not part of the model:
    they read the engine state and never write it. *)

From Stdlib Require Import ZArith List Bool String Ascii Lia.
From stdpp Require Import base option list.
Import ListNotations.
Local Open Scope Z_scope.

(** ** Colours and piece kinds (the string constants of Constants.js) *)

Inductive Color : Set := white | black.
Inductive Kind : Set := pawn | knight | bishop | rook | queen | king.

Definition Color_eqb (a b : Color) : bool :=
  match a, b with white, white | black, black => true | _, _ => false end.

Definition Kind_eqb (a b : Kind) : bool :=
  match a, b with
  | pawn, pawn | knight, knight | bishop, bishop
  | rook, rook | queen, queen | king, king => true
  | _, _ => false
  end.

(** [color === 'white' ? 'black' : 'white'] *)
Definition opponent (c : Color) : Color :=
  match c with white => black | black => white end.

(** A square, as the two-element arrays [[row, col]] of the source. *)
Definition Square : Set := (Z * Z)%type.

Definition Square_eqb (a b : Square) : bool :=
  (fst a =? fst b) && (snd a =? snd b).

(** ** The 8x8 grid

    Both implementations store the position in an array of eight rows of
    eight cells, [null] for an empty cell.  [isInBounds] is the same
    function in both ([Board.isInBounds], [ChessGame.isInBounds]). *)

Definition BOARD_SIZE : Z := 8.

Definition isInBounds (row col : Z) : bool :=
  (0 <=? row) && (row <? BOARD_SIZE) && (0 <=? col) && (col <? BOARD_SIZE).

Abbreviation Grid A := (list (list (option A))).

(** [grid[row][col]].  On an 8x8 grid an index outside 0..7 finds no
    piece: JavaScript evaluates it to [undefined], or raises when the row
    itself is missing; every such read of the source is either guarded by
    [isInBounds] or made at a square of the board, and the model reads
    [None] there. *)
Definition cell {A : Type} (g : Grid A) (row col : Z) : option A :=
  if isInBounds row col then
    match g !! Z.to_nat row with
    | Some r => match r !! Z.to_nat col with Some x => x | None => None end
    | None => None
    end
  else None.

(** [grid[row][col] = v], at a square of the board.  (Outside the board
    JavaScript would grow the row or raise; the source only writes to
    squares of the board, and the model leaves the grid alone.) *)
Definition put {A : Type} (g : Grid A) (row col : Z) (v : option A) : Grid A :=
  if isInBounds row col then
    alter (fun r => <[Z.to_nat col := v]> r) (Z.to_nat row) g
  else g.

(** Eight rows of eight cells. *)
Definition wf_grid {A : Type} (g : Grid A) : Prop :=
  length g = 8%nat /\ Forall (fun r => length r = 8%nat) g.

(** Values indexed by colour: the JavaScript objects
    [{ white: ..., black: ... }] of both implementations. *)
Record ByColor (A : Type) : Type := mkByColor { of_white : A; of_black : A }.
Arguments mkByColor {A} _ _.
Arguments of_white {A} _.
Arguments of_black {A} _.

(** [obj[color]] *)
Definition at_color {A} (o : ByColor A) (c : Color) : A :=
  match c with white => of_white o | black => of_black o end.

(** [obj[color] = v] *)
Definition set_color {A} (o : ByColor A) (c : Color) (v : A) : ByColor A :=
  match c with
  | white => mkByColor v (of_black o)
  | black => mkByColor (of_white o) v
  end.

Record CastlingRights : Set := mkRights { kingSide : bool; queenSide : bool }.

Definition allRights : ByColor CastlingRights :=
  mkByColor (mkRights true true) (mkRights true true).

(** The value of [gameStatus]: [''], ['<Colour> is in check!'],
    ['Checkmate! <Colour> wins'] or ['Stalemate! Game is a draw']. *)
Inductive Status : Set :=
| StatusNone
| StatusCheck (who : Color)
| StatusCheckmate (winner : Color)
| StatusStalemate.

(** ['kingside'] or ['queenside'], as stored in a move record. *)
Inductive Side : Set := kingside | queenside.

(** The loops [for (row = 0..7) for (col = 0..7)] visit the squares in
    this order. *)
Definition range8 : list Z := [0; 1; 2; 3; 4; 5; 6; 7].

Definition allSquares : list Square :=
  flat_map (fun row => map (fun col => (row, col)) range8) range8.

(** The eight knight offsets and the eight king offsets, in source order. *)
Definition knightOffsets : list (Z * Z) :=
  [(-2, -1); (-2, 1); (-1, -2); (-1, 2); (1, -2); (1, 2); (2, -1); (2, 1)].

Definition kingOffsets : list (Z * Z) :=
  [(-1, -1); (-1, 0); (-1, 1); (0, -1); (0, 1); (1, -1); (1, 0); (1, 1)].

(** A call either returns or raises (a [TypeError] on a property of
    [null]); the state reached so far is kept in both cases. *)
Inductive Outcome (A : Type) : Type := Returned (a : A) | Raised.
Arguments Returned {A} a.
Arguments Raised {A}.

(** [!x] for a cell: is it occupied? *)
Definition is_Some_b {A : Type} (o : option A) : bool :=
  match o with Some _ => true | None => false end.

(** No ray of a while-loop of the source visits more than seven squares;
    eight iterations always reach the edge of the board. *)
Definition rayFuel : nat := 8.

(* ====================================================================== *)
(** * Decoding one move token of the movetext

    [processAlgebraicNotation] (pgn.js) and [parseAlgebraicNotation]
    (PGNService.js) take a token apart with the same statements; the two
    differ in how they then look for the piece that moves.  A JavaScript
    string is modelled by the list of its characters. *)
(* ====================================================================== *)

Module San.

Definition chars (s : string) : list ascii := list_ascii_of_string s.

Definition isChar (a b : ascii) : bool := Ascii.eqb a b.

(** [c >= lo && c <= hi] on one-character strings. *)
Definition between (lo hi c : ascii) : bool :=
  (nat_of_ascii lo <=? nat_of_ascii c)%nat && (nat_of_ascii c <=? nat_of_ascii hi)%nat.

(** [s.replace(/[+#]$/, '')] *)
Definition stripCheck (s : list ascii) : list ascii :=
  match rev s with
  | c :: r => if isChar c "+" || isChar c "#" then rev r else s
  | [] => s
  end.

(** [s.includes(c)] for a one-character [c]. *)
Definition includes (c : ascii) (s : list ascii) : bool := existsb (isChar c) s.

(** The first part of [s.split(c)]. *)
Fixpoint upTo (c : ascii) (s : list ascii) : list ascii :=
  match s with
  | [] => []
  | x :: r => if isChar c x then [] else x :: upTo c r
  end.

(** What follows the first [c] of [s]. *)
Fixpoint after (c : ascii) (s : list ascii) : list ascii :=
  match s with
  | [] => []
  | x :: r => if isChar c x then r else after c r
  end.

(** [s.replace(c, '')]: the first occurrence is removed. *)
Fixpoint removeFirst (c : ascii) (s : list ascii) : list ascii :=
  match s with
  | [] => []
  | x :: r => if isChar c x then r else x :: removeFirst c r
  end.

(** [{ 'Q': queen, 'R': rook, 'B': bishop, 'N': knight }[promoteTo] || queen],
    for the strings that are no property name of [Object.prototype]
    ([constructor], [toString], [valueOf], [__proto__] and the like: for
    these the lookup yields a function or an object, which is no piece
    type, and the text is outside what is modelled here). *)
Definition promotionOf (promoteTo : list ascii) : Kind :=
  match promoteTo with
  | [c] => if isChar c "R" then rook
           else if isChar c "B" then bishop
           else if isChar c "N" then knight
           else queen
  | _ => queen
  end.

(** ['KQRBN'.includes(c)] and the piece map, for one character. *)
Definition pieceOf (c : ascii) : option Kind :=
  if isChar c "K" then Some king
  else if isChar c "Q" then Some queen
  else if isChar c "R" then Some rook
  else if isChar c "B" then Some bishop
  else if isChar c "N" then Some knight
  else None.

(** [fileToCol[f]] and [rankToRow[r]]; [None] is [undefined]. *)
Definition fileToCol (f : ascii) : option Z :=
  if between "a" "h" f then Some (Z.of_nat (nat_of_ascii f) - 97) else None.

Definition rankToRow (r : ascii) : option Z :=
  if between "1" "8" r then Some (56 - Z.of_nat (nat_of_ascii r)) else None.

(** What the statements before the search have extracted. *)
Record Token : Set := mkToken {
  pieceType : Kind;
  capture : bool;
  sourceFile : option ascii;
  sourceRank : option ascii;
  destFile : ascii;
  destRank : ascii;
  promotionPiece : option Kind;
  notation : list ascii          (* what is left of [moveNotation] *)
}.

(** The outcome of the statements before the search. *)
Inductive Decoded : Set :=
| Fields (t : Token)
| Invalid                       (* fewer than two characters are left *)
| TypeError.                    (* [moveNotation[0].toUpperCase()] of [undefined] *)

Definition decode (moveNotation : list ascii) : Decoded :=
  let moveNotation := stripCheck moveNotation in
  let '(moveNotation, promotionPiece) :=
    if includes "=" moveNotation
    then (upTo "=" moveNotation, Some (promotionOf (upTo "=" (after "=" moveNotation))))
    else (moveNotation, None) in
  match moveNotation with
  | [] => TypeError
  | first :: rest =>
      let '(pieceType, moveNotation) :=
        match pieceOf first with
        | Some k => (k, rest)
        | None => (pawn, moveNotation)
        end in
      let capture := includes "x" moveNotation in
      let sourceFile :=
        if capture && Kind_eqb pieceType pawn then
          match moveNotation with
          | c :: _ => if between "a" "h" c then Some c else None
          | [] => None
          end
        else None in
      let moveNotation := if capture then removeFirst "x" moveNotation else moveNotation in
      let '(sourceFile, sourceRank, moveNotation) :=
        if negb (Kind_eqb pieceType pawn) && (2 <? length moveNotation)%nat then
          match moveNotation with
          | [c; d; e] =>
              if between "a" "h" c then (Some c, None, [d; e])
              else if between "1" "8" c then (sourceFile, Some c, [d; e])
              else (sourceFile, None, moveNotation)
          | [c; d; e; f] => (Some c, Some d, [e; f])
          | _ => (sourceFile, None, moveNotation)
          end
        else (sourceFile, None, moveNotation) in
      match moveNotation with
      | f :: r :: _ =>
          Fields (mkToken pieceType capture sourceFile sourceRank f r promotionPiece
                          moveNotation)
      | _ => Invalid
      end
  end.

(** The two constraint tests of the search loop:
    [if (sourceFile && fileToCol[sourceFile] !== col) continue;]
    [if (sourceRank && rankToRow[sourceRank] !== row) continue;] *)
Definition Z_is (o : option Z) (n : Z) : bool :=
  match o with Some m => m =? n | None => false end.

Definition matchesSource (t : Token) (row col : Z) : bool :=
  match sourceFile t with Some f => Z_is (fileToCol f) col | None => true end
  && match sourceRank t with Some r => Z_is (rankToRow r) row | None => true end.

(** [destRow] and [destCol]; either may be [undefined]. *)
Definition destRow (t : Token) : option Z := rankToRow (destRank t).
Definition destCol (t : Token) : option Z := fileToCol (destFile t).

End San.
(* ====================================================================== *)
(** * The monolithic implementation ([ChessGame], src/unnamed/part_000) *)
(* ====================================================================== *)

Module Mono.

(** A piece is the string ['<kind>-<colour>']. *)
Definition Piece : Set := (Kind * Color)%type.

(** [piece.startsWith('<kind>')] and [piece.endsWith('<colour>')] *)
Definition startsWith (p : Piece) (k : Kind) : bool := Kind_eqb (fst p) k.
Definition endsWith (p : Piece) (c : Color) : bool := Color_eqb (snd p) c.

Definition Piece_eqb (p q : Piece) : bool :=
  Kind_eqb (fst p) (fst q) && Color_eqb (snd p) (snd q).

Abbreviation Board := (Grid Piece).

(** [specialMove]: [''], ['en passant'], ['promotion'], ['castling <side>']. *)
Inductive SpecialMove : Set :=
| NoSpecial | EnPassant | Promotion | Castling (side : Side).

(** The object pushed on [moveHistory] by [makeMove]. *)
Record Move : Set := mkMove {
  m_from : Square;
  m_to : Square;
  m_piece : Piece;
  m_capturedPiece : option Piece;
  m_player : Color;
  m_enPassantCapture : option Square;
  m_promotedPiece : option Kind;
  m_castling : option Side;
  m_enPassantTarget : option Square;
  m_castlingRights : ByColor CastlingRights;
  m_specialMove : SpecialMove
}.

(** The fields of a [ChessGame]. *)
Record Game : Type := mkGame {
  board : Board;
  currentPlayer : Color;
  selectedPiece : option Square;
  possibleMoves : list Square;
  moveHistory : list Move;
  capturedPieces : ByColor (list (option Piece));
  boardOrientation : Color;
  currentMoveIndex : Z;
  boardStates : list Board;
  kingPositions : ByColor Square;
  isInCheck : ByColor bool;
  gameOver : bool;
  gameStatus : Status;
  castlingRights : ByColor CastlingRights;
  enPassantTarget : option Square;
  promotionPending : bool;
  promotionMove : option (Square * Square)
}.

(** Assignments to one field. *)
Definition set_board (v : Board) (g : Game) : Game :=
  mkGame v (currentPlayer g) (selectedPiece g) (possibleMoves g) (moveHistory
    g) (capturedPieces g) (boardOrientation g) (currentMoveIndex g)
    (boardStates g) (kingPositions g) (isInCheck g) (gameOver g) (gameStatus
    g) (castlingRights g) (enPassantTarget g) (promotionPending g)
    (promotionMove g).
Definition set_currentPlayer (v : Color) (g : Game) : Game :=
  mkGame (board g) v (selectedPiece g) (possibleMoves g) (moveHistory g)
    (capturedPieces g) (boardOrientation g) (currentMoveIndex g) (boardStates
    g) (kingPositions g) (isInCheck g) (gameOver g) (gameStatus g)
    (castlingRights g) (enPassantTarget g) (promotionPending g)
    (promotionMove g).
Definition set_selectedPiece (v : option Square) (g : Game) : Game :=
  mkGame (board g) (currentPlayer g) v (possibleMoves g) (moveHistory g)
    (capturedPieces g) (boardOrientation g) (currentMoveIndex g) (boardStates
    g) (kingPositions g) (isInCheck g) (gameOver g) (gameStatus g)
    (castlingRights g) (enPassantTarget g) (promotionPending g)
    (promotionMove g).
Definition set_possibleMoves (v : list Square) (g : Game) : Game :=
  mkGame (board g) (currentPlayer g) (selectedPiece g) v (moveHistory g)
    (capturedPieces g) (boardOrientation g) (currentMoveIndex g) (boardStates
    g) (kingPositions g) (isInCheck g) (gameOver g) (gameStatus g)
    (castlingRights g) (enPassantTarget g) (promotionPending g)
    (promotionMove g).
Definition set_moveHistory (v : list Move) (g : Game) : Game :=
  mkGame (board g) (currentPlayer g) (selectedPiece g) (possibleMoves g) v
    (capturedPieces g) (boardOrientation g) (currentMoveIndex g) (boardStates
    g) (kingPositions g) (isInCheck g) (gameOver g) (gameStatus g)
    (castlingRights g) (enPassantTarget g) (promotionPending g)
    (promotionMove g).
Definition set_capturedPieces (v : ByColor (list (option Piece))) (g : Game) : Game :=
  mkGame (board g) (currentPlayer g) (selectedPiece g) (possibleMoves g)
    (moveHistory g) v (boardOrientation g) (currentMoveIndex g) (boardStates
    g) (kingPositions g) (isInCheck g) (gameOver g) (gameStatus g)
    (castlingRights g) (enPassantTarget g) (promotionPending g)
    (promotionMove g).
Definition set_boardOrientation (v : Color) (g : Game) : Game :=
  mkGame (board g) (currentPlayer g) (selectedPiece g) (possibleMoves g)
    (moveHistory g) (capturedPieces g) v (currentMoveIndex g) (boardStates g)
    (kingPositions g) (isInCheck g) (gameOver g) (gameStatus g)
    (castlingRights g) (enPassantTarget g) (promotionPending g)
    (promotionMove g).
Definition set_currentMoveIndex (v : Z) (g : Game) : Game :=
  mkGame (board g) (currentPlayer g) (selectedPiece g) (possibleMoves g)
    (moveHistory g) (capturedPieces g) (boardOrientation g) v (boardStates g)
    (kingPositions g) (isInCheck g) (gameOver g) (gameStatus g)
    (castlingRights g) (enPassantTarget g) (promotionPending g)
    (promotionMove g).
Definition set_boardStates (v : list Board) (g : Game) : Game :=
  mkGame (board g) (currentPlayer g) (selectedPiece g) (possibleMoves g)
    (moveHistory g) (capturedPieces g) (boardOrientation g) (currentMoveIndex
    g) v (kingPositions g) (isInCheck g) (gameOver g) (gameStatus g)
    (castlingRights g) (enPassantTarget g) (promotionPending g)
    (promotionMove g).
Definition set_kingPositions (v : ByColor Square) (g : Game) : Game :=
  mkGame (board g) (currentPlayer g) (selectedPiece g) (possibleMoves g)
    (moveHistory g) (capturedPieces g) (boardOrientation g) (currentMoveIndex
    g) (boardStates g) v (isInCheck g) (gameOver g) (gameStatus g)
    (castlingRights g) (enPassantTarget g) (promotionPending g)
    (promotionMove g).
Definition set_isInCheck (v : ByColor bool) (g : Game) : Game :=
  mkGame (board g) (currentPlayer g) (selectedPiece g) (possibleMoves g)
    (moveHistory g) (capturedPieces g) (boardOrientation g) (currentMoveIndex
    g) (boardStates g) (kingPositions g) v (gameOver g) (gameStatus g)
    (castlingRights g) (enPassantTarget g) (promotionPending g)
    (promotionMove g).
Definition set_gameOver (v : bool) (g : Game) : Game :=
  mkGame (board g) (currentPlayer g) (selectedPiece g) (possibleMoves g)
    (moveHistory g) (capturedPieces g) (boardOrientation g) (currentMoveIndex
    g) (boardStates g) (kingPositions g) (isInCheck g) v (gameStatus g)
    (castlingRights g) (enPassantTarget g) (promotionPending g)
    (promotionMove g).
Definition set_gameStatus (v : Status) (g : Game) : Game :=
  mkGame (board g) (currentPlayer g) (selectedPiece g) (possibleMoves g)
    (moveHistory g) (capturedPieces g) (boardOrientation g) (currentMoveIndex
    g) (boardStates g) (kingPositions g) (isInCheck g) (gameOver g) v
    (castlingRights g) (enPassantTarget g) (promotionPending g)
    (promotionMove g).
Definition set_castlingRights (v : ByColor CastlingRights) (g : Game) : Game :=
  mkGame (board g) (currentPlayer g) (selectedPiece g) (possibleMoves g)
    (moveHistory g) (capturedPieces g) (boardOrientation g) (currentMoveIndex
    g) (boardStates g) (kingPositions g) (isInCheck g) (gameOver g)
    (gameStatus g) v (enPassantTarget g) (promotionPending g) (promotionMove
    g).
Definition set_enPassantTarget (v : option Square) (g : Game) : Game :=
  mkGame (board g) (currentPlayer g) (selectedPiece g) (possibleMoves g)
    (moveHistory g) (capturedPieces g) (boardOrientation g) (currentMoveIndex
    g) (boardStates g) (kingPositions g) (isInCheck g) (gameOver g)
    (gameStatus g) (castlingRights g) v (promotionPending g) (promotionMove
    g).
Definition set_promotionPending (v : bool) (g : Game) : Game :=
  mkGame (board g) (currentPlayer g) (selectedPiece g) (possibleMoves g)
    (moveHistory g) (capturedPieces g) (boardOrientation g) (currentMoveIndex
    g) (boardStates g) (kingPositions g) (isInCheck g) (gameOver g)
    (gameStatus g) (castlingRights g) (enPassantTarget g) v (promotionMove
    g).
Definition set_promotionMove (v : option (Square * Square)) (g : Game) : Game :=
  mkGame (board g) (currentPlayer g) (selectedPiece g) (possibleMoves g)
    (moveHistory g) (capturedPieces g) (boardOrientation g) (currentMoveIndex
    g) (boardStates g) (kingPositions g) (isInCheck g) (gameOver g)
    (gameStatus g) (castlingRights g) (enPassantTarget g) (promotionPending
    g) v.

(** [createInitialBoard] *)
Definition createInitialBoard : Board :=
  [ map (fun k => Some (k, black)) [rook; knight; bishop; queen; king; bishop; knight; rook];
    replicate 8 (Some (pawn, black));
    replicate 8 None; replicate 8 None; replicate 8 None; replicate 8 None;
    replicate 8 (Some (pawn, white));
    map (fun k => Some (k, white)) [rook; knight; bishop; queen; king; bishop; knight; rook] ].

(** [deepCopyBoard]: a new array with the same strings. *)
Definition deepCopyBoard (b : Board) : Board := map (fun row => row) b.

(** The fields after the constructor (and after [resetGame]). *)
Definition newGame : Game :=
  mkGame createInitialBoard white None [] [] (mkByColor [] []) white 0
    [deepCopyBoard createInitialBoard] (mkByColor (7, 4) (0, 4))
    (mkByColor false false) false StatusNone allRights None false None.

(** ** Candidate moves *)

Definition calculatePawnMoves (g : Game) (row col : Z) (color : Color) : list Square :=
  let direction := match color with white => -1 | black => 1 end in
  let startingRow := match color with white => 6 | black => 1 end in
  let forward :=
    if isInBounds (row + direction) col
       && negb (is_Some_b (cell (board g) (row + direction) col))
    then (row + direction, col)
           :: (if (row =? startingRow)
                  && negb (is_Some_b (cell (board g) (row + 2 * direction) col))
               then [(row + 2 * direction, col)] else [])
    else [] in
  let captures :=
    flat_map (fun colOffset =>
      let newRow := row + direction in
      let newCol := col + colOffset in
      if isInBounds newRow newCol then
        match cell (board g) newRow newCol with
        | Some targetPiece =>
            if negb (endsWith targetPiece color) then [(newRow, newCol)]
            else match enPassantTarget g with
                 | Some (epRow, epCol) =>
                     if (newRow =? epRow) && (newCol =? epCol) then [(newRow, newCol)] else []
                 | None => []
                 end
        | None =>
            match enPassantTarget g with
            | Some (epRow, epCol) =>
                if (newRow =? epRow) && (newCol =? epCol) then [(newRow, newCol)] else []
            | None => []
            end
        end
      else []) [-1; 1] in
  forward ++ captures.

(** The while-loop of [calculateRookMoves] and [calculateBishopMoves]. *)
Fixpoint ray (fuel : nat) (b : Board) (color : Color)
    (currentRow currentCol rowDir colDir : Z) : list Square :=
  match fuel with
  | O => []
  | S fuel =>
      if isInBounds currentRow currentCol then
        match cell b currentRow currentCol with
        | None =>
            (currentRow, currentCol)
              :: ray fuel b color (currentRow + rowDir) (currentCol + colDir) rowDir colDir
        | Some targetPiece =>
            if negb (endsWith targetPiece color) then [(currentRow, currentCol)] else []
        end
      else []
  end.

Definition rays (g : Game) (row col : Z) (color : Color) (directions : list (Z * Z))
  : list Square :=
  flat_map (fun '(rowDir, colDir) =>
              ray rayFuel (board g) color (row + rowDir) (col + colDir) rowDir colDir)
           directions.

Definition straightDirections : list (Z * Z) := [(0, 1); (1, 0); (0, -1); (-1, 0)].
Definition diagonalDirections : list (Z * Z) := [(1, 1); (1, -1); (-1, 1); (-1, -1)].

Definition calculateRookMoves (g : Game) (row col : Z) (color : Color) : list Square :=
  rays g row col color straightDirections.

Definition calculateBishopMoves (g : Game) (row col : Z) (color : Color) : list Square :=
  rays g row col color diagonalDirections.

Definition calculateQueenMoves (g : Game) (row col : Z) (color : Color) : list Square :=
  calculateRookMoves g row col color ++ calculateBishopMoves g row col color.

Definition steps (g : Game) (row col : Z) (color : Color) (offsets : list (Z * Z))
  : list Square :=
  flat_map (fun '(rowOffset, colOffset) =>
              let newRow := row + rowOffset in
              let newCol := col + colOffset in
              if isInBounds newRow newCol then
                match cell (board g) newRow newCol with
                | Some targetPiece =>
                    if negb (endsWith targetPiece color) then [(newRow, newCol)] else []
                | None => [(newRow, newCol)]
                end
              else [])
           offsets.

Definition calculateKnightMoves (g : Game) (row col : Z) (color : Color) : list Square :=
  steps g row col color knightOffsets.

(** ** The attack detector *)

(** One ray of [isSquareAttacked]: the first occupied square decides. *)
Fixpoint attackRay (fuel : nat) (b : Board) (attacker : Piece -> bool)
    (checkRow checkCol rowDir colDir : Z) : bool :=
  match fuel with
  | O => false
  | S fuel =>
      if isInBounds checkRow checkCol then
        match cell b checkRow checkCol with
        | Some piece => attacker piece
        | None => attackRay fuel b attacker (checkRow + rowDir) (checkCol + colDir) rowDir colDir
        end
      else false
  end.

(** [piece === `<kind>-${attackingColor}`] at an offset of the square. *)
Definition pieceAt (b : Board) (row col : Z) (p : Piece) (offset : Z * Z) : bool :=
  let checkRow := row + fst offset in
  let checkCol := col + snd offset in
  isInBounds checkRow checkCol
  && match cell b checkRow checkCol with
     | Some piece => Piece_eqb piece p
     | None => false
     end.

Definition isSquareAttacked (g : Game) (row col : Z) (defendingColor : Color) : bool :=
  let attackingColor := opponent defendingColor in
  let pawnDirections :=
    match defendingColor with
    | white => [(1, -1); (1, 1)]
    | black => [(-1, -1); (-1, 1)]
    end in
  existsb (pieceAt (board g) row col (pawn, attackingColor)) pawnDirections
  || existsb (pieceAt (board g) row col (knight, attackingColor)) knightOffsets
  || existsb (pieceAt (board g) row col (king, attackingColor)) kingOffsets
  || existsb (fun '(rowDir, colDir) =>
                attackRay rayFuel (board g)
                  (fun piece => Piece_eqb piece (rook, attackingColor)
                                || Piece_eqb piece (queen, attackingColor))
                  (row + rowDir) (col + colDir) rowDir colDir)
             straightDirections
  || existsb (fun '(rowDir, colDir) =>
                attackRay rayFuel (board g)
                  (fun piece => Piece_eqb piece (bishop, attackingColor)
                                || Piece_eqb piece (queen, attackingColor))
                  (row + rowDir) (col + colDir) rowDir colDir)
             diagonalDirections.

Definition isKingInCheck (g : Game) (color : Color) : bool :=
  let '(kingRow, kingCol) := at_color (kingPositions g) color in
  isSquareAttacked g kingRow kingCol color.

(** [canCastle]: the king stands on its original square and the check
    flag of its colour is off. *)
Definition canCastle (g : Game) (row col : Z) (color : Color) : bool :=
  match color with
  | white => (row =? 7) && (col =? 4) && negb (of_white (isInCheck g))
  | black => (row =? 0) && (col =? 4) && negb (of_black (isInCheck g))
  end.

Definition calculateKingMoves (g : Game) (row col : Z) (color : Color) : list Square :=
  steps g row col color kingOffsets
  ++ (if canCastle g row col color then
        (if kingSide (at_color (castlingRights g) color)
            && negb (is_Some_b (cell (board g) row (col + 1)))
            && negb (is_Some_b (cell (board g) row (col + 2)))
            && (negb (isSquareAttacked g row col color)
                && negb (isSquareAttacked g row (col + 1) color)
                && negb (isSquareAttacked g row (col + 2) color))
         then [(row, col + 2)] else [])
        ++
        (if queenSide (at_color (castlingRights g) color)
            && negb (is_Some_b (cell (board g) row (col - 1)))
            && negb (is_Some_b (cell (board g) row (col - 2)))
            && negb (is_Some_b (cell (board g) row (col - 3)))
            && (negb (isSquareAttacked g row col color)
                && negb (isSquareAttacked g row (col - 1) color)
                && negb (isSquareAttacked g row (col - 2) color))
         then [(row, col - 2)] else [])
      else []).

(** [calculatePossibleMoves]: the [switch] on the kind of the piece. *)
Definition calculatePossibleMoves (g : Game) (row col : Z) : list Square :=
  match cell (board g) row col with
  | None => []
  | Some (type, color) =>
      match type with
      | pawn => calculatePawnMoves g row col color
      | rook => calculateRookMoves g row col color
      | knight => calculateKnightMoves g row col color
      | bishop => calculateBishopMoves g row col color
      | queen => calculateQueenMoves g row col color
      | king => calculateKingMoves g row col color
      end
  end.

(** ** The legality filter

    [calculateLegalMoves] plays every candidate on the live board, asks
    whether the mover's king is attacked, and puts the saved copy of the
    board (and the saved king square) back.  [tryMove] is one iteration
    of its loop. *)
Definition tryMove (row col : Z) (piece : Piece) (color : Color) (toRow toCol : Z)
    (g : Game) : bool * Game :=
  let originalBoard := deepCopyBoard (board g) in
  let capturedPiece := cell (board g) toRow toCol in
  let g :=
    if startsWith piece pawn && negb (col =? toCol) && negb (is_Some_b capturedPiece) then
      let enPassantRow := match color with white => toRow + 1 | black => toRow - 1 end in
      set_board (put (board g) enPassantRow toCol None) g
    else g in
  let g := set_board (put (board g) toRow toCol (Some piece)) g in
  let g := set_board (put (board g) row col None) g in
  let g :=
    if startsWith piece king && (1 <? Z.abs (col - toCol)) then
      let rookCol := if toCol =? 6 then 7 else 0 in
      let newRookCol := if toCol =? 6 then 5 else 3 in
      let rook := cell (board g) row rookCol in
      let g := set_board (put (board g) row newRookCol rook) g in
      set_board (put (board g) row rookCol None) g
    else g in
  let originalKingPos :=
    if startsWith piece king then Some (at_color (kingPositions g) color) else None in
  let g :=
    if startsWith piece king
    then set_kingPositions (set_color (kingPositions g) color (toRow, toCol)) g
    else g in
  let inCheck := isKingInCheck g color in
  let g := set_board (deepCopyBoard originalBoard) g in
  let g :=
    match originalKingPos with
    | Some pos => set_kingPositions (set_color (kingPositions g) color pos) g
    | None => g
    end in
  (negb inCheck, g).

Fixpoint filterLegal (row col : Z) (piece : Piece) (color : Color)
    (possibleMoves : list Square) (g : Game) : list Square * Game :=
  match possibleMoves with
  | [] => ([], g)
  | (toRow, toCol) :: rest =>
      let '(ok, g) := tryMove row col piece color toRow toCol g in
      let '(legalMoves, g) := filterLegal row col piece color rest g in
      (if ok then (toRow, toCol) :: legalMoves else legalMoves, g)
  end.

Definition calculateLegalMoves (row col : Z) (g : Game) : list Square * Game :=
  match cell (board g) row col with
  | None => ([], g)
  | Some piece =>
      let color := snd piece in
      let possibleMoves := calculatePossibleMoves g row col in
      filterLegal row col piece color possibleMoves g
  end.

(** [playerHasLegalMoves] *)
Fixpoint anyLegal (color : Color) (squares : list Square) (g : Game) : bool * Game :=
  match squares with
  | [] => (false, g)
  | (row, col) :: rest =>
      match cell (board g) row col with
      | Some piece =>
          if endsWith piece color then
            let '(legalMoves, g) := calculateLegalMoves row col g in
            if (0 <? Z.of_nat (length legalMoves)) then (true, g)
            else anyLegal color rest g
          else anyLegal color rest g
      | None => anyLegal color rest g
      end
  end.

Definition playerHasLegalMoves (color : Color) (g : Game) : bool * Game :=
  anyLegal color allSquares g.

Definition checkGameEndConditions (g : Game) : Game :=
  let currentColor := currentPlayer g in
  let '(hasLegalMoves, g) := playerHasLegalMoves currentColor g in
  if negb hasLegalMoves then
    if at_color (isInCheck g) currentColor
    then set_gameStatus (StatusCheckmate (opponent currentColor)) (set_gameOver true g)
    else set_gameStatus StatusStalemate (set_gameOver true g)
  else if at_color (isInCheck g) currentColor
  then set_gameStatus (StatusCheck currentColor) g
  else set_gameStatus StatusNone g.

(** ** Applying a move *)

Definition revoke (c : Color) (side : Side) (g : Game) : Game :=
  let r := at_color (castlingRights g) c in
  let r := match side with
           | kingside => mkRights false (queenSide r)
           | queenside => mkRights (kingSide r) false
           end in
  set_castlingRights (set_color (castlingRights g) c r) g.

Definition pushCaptured (c : Color) (p : option Piece) (g : Game) : Game :=
  set_capturedPieces
    (set_color (capturedPieces g) c (at_color (capturedPieces g) c ++ [p])) g.

(** What [makeMove] decides from the moving piece, the two squares and the
    piece standing on the destination before the move. *)

(** [color === 'white' ? toRow + 1 : toRow - 1] *)
Definition enPassantRowOf (color : Color) (toRow : Z) : Z :=
  match color with white => toRow + 1 | black => toRow - 1 end.

(** A pawn changes column onto an empty square: an en-passant capture. *)
Definition isEnPassantCapture (piece : Piece) (fromCol toCol : Z)
    (capturedPiece : option Piece) : bool :=
  startsWith piece pawn && negb (fromCol =? toCol) && negb (is_Some_b capturedPiece).

Definition enPassantCaptureOf (piece : Piece) (fromCol toRow toCol : Z)
    (capturedPiece : option Piece) : option Square :=
  if isEnPassantCapture piece fromCol toCol capturedPiece
  then Some (enPassantRowOf (snd piece) toRow, toCol) else None.

(** A pawn reaches the last rank: [promotionPiece || 'queen']. *)
Definition promotedPieceOf (piece : Piece) (toRow : Z) (promotionPiece : option Kind)
  : option Kind :=
  if startsWith piece pawn
     && ((endsWith piece white && (toRow =? 0)) || (endsWith piece black && (toRow =? 7)))
  then Some (match promotionPiece with Some k => k | None => queen end)
  else None.

(** A king moves more than one column: castling, towards [toCol]. *)
Definition castlingOf (piece : Piece) (fromCol toCol : Z) : option Side :=
  if startsWith piece king && (1 <? Z.abs (fromCol - toCol))
  then Some (if fromCol <? toCol then kingside else queenside)
  else None.

Definition specialMoveOf (piece : Piece) (fromCol toRow toCol : Z)
    (capturedPiece : option Piece) (promotionPiece : option Kind) : SpecialMove :=
  match castlingOf piece fromCol toCol with
  | Some side => Castling side
  | None =>
      match promotedPieceOf piece toRow promotionPiece with
      | Some _ => Promotion
      | None => if isEnPassantCapture piece fromCol toCol capturedPiece
                then EnPassant else NoSpecial
      end
  end.

(** "Handle pawn special moves": the en-passant capture, the replacement
    of a promoting pawn, the new en-passant target. *)
Definition pawnSpecialMoves (piece : Piece) (fromRow fromCol toRow toCol : Z)
    (capturedPiece : option Piece) (promotionPiece : option Kind) (g : Game) : Game :=
  let color := snd piece in
  if startsWith piece pawn then
    let g :=
      if isEnPassantCapture piece fromCol toCol capturedPiece then
        let enPassantRow := enPassantRowOf color toRow in
        let capturedPawn := cell (board g) enPassantRow toCol in
        let g := set_board (put (board g) enPassantRow toCol None) g in
        pushCaptured color capturedPawn g
      else g in
    let g :=
      match promotedPieceOf piece toRow promotionPiece with
      | Some promotedPiece =>
          let g := set_board (put (board g) fromRow fromCol None) g in
          set_board (put (board g) toRow toCol (Some (promotedPiece, color))) g
      | None => g
      end in
    if Z.abs (fromRow - toRow) =? 2
    then set_enPassantTarget (Some (enPassantRowOf color toRow, toCol)) g
    else g
  else g.

(** "Handle castling": the rook is moved. *)
Definition castleRook (piece : Piece) (fromRow fromCol toCol : Z) (g : Game) : Game :=
  match castlingOf piece fromCol toCol with
  | Some side =>
      let rookFromCol := match side with kingside => 7 | queenside => 0 end in
      let rookToCol := match side with kingside => 5 | queenside => 3 end in
      let rook := cell (board g) fromRow rookFromCol in
      let g := set_board (put (board g) fromRow rookToCol rook) g in
      set_board (put (board g) fromRow rookFromCol None) g
  | None => g
  end.

(** "Update castling rights": a king move revokes both rights of its
    colour (and records the king's square), a rook leaving its corner
    revokes that side, and so does the capture of a rook on its corner. *)
Definition updateCastlingRights (piece : Piece) (fromRow fromCol toRow toCol : Z)
    (capturedPiece : option Piece) (g : Game) : Game :=
  let color := snd piece in
  let g :=
    if startsWith piece king then
      let g := revoke color queenside (revoke color kingside g) in
      set_kingPositions (set_color (kingPositions g) color (toRow, toCol)) g
    else g in
  let g :=
    if startsWith piece rook then
      if (fromRow =? 7) && (fromCol =? 0) && Color_eqb color white
      then revoke white queenside g
      else if (fromRow =? 7) && (fromCol =? 7) && Color_eqb color white
      then revoke white kingside g
      else if (fromRow =? 0) && (fromCol =? 0) && Color_eqb color black
      then revoke black queenside g
      else if (fromRow =? 0) && (fromCol =? 7) && Color_eqb color black
      then revoke black kingside g
      else g
    else g in
  match capturedPiece with
  | Some (rook, white) =>
      let g := if (toRow =? 7) && (toCol =? 0) then revoke white queenside g else g in
      if (toRow =? 7) && (toCol =? 7) then revoke white kingside g else g
  | Some (rook, black) =>
      let g := if (toRow =? 0) && (toCol =? 0) then revoke black queenside g else g in
      if (toRow =? 0) && (toCol =? 7) then revoke black kingside g else g
  | _ => g
  end.

(** "Save move for history" and "Capture piece if any". *)
Definition recordMove (piece : Piece) (fromRow fromCol toRow toCol : Z)
    (capturedPiece : option Piece) (promotionPiece : option Kind)
    (oldEnPassantTarget : option Square) (g : Game) : Game :=
  let color := snd piece in
  let enPassantCapture := enPassantCaptureOf piece fromCol toRow toCol capturedPiece in
  let move :=
    mkMove (fromRow, fromCol) (toRow, toCol) piece capturedPiece color enPassantCapture
           (promotedPieceOf piece toRow promotionPiece) (castlingOf piece fromCol toCol)
           oldEnPassantTarget (castlingRights g)
           (specialMoveOf piece fromCol toRow toCol capturedPiece promotionPiece) in
  let g := set_moveHistory (moveHistory g ++ [move]) g in
  match capturedPiece, enPassantCapture with
  | Some p, None => pushCaptured color (Some p) g
  | _, _ => g
  end.

(** "Move piece (if not already handled by promotion)". *)
Definition movePiece (piece : Piece) (fromRow fromCol toRow toCol : Z)
    (promotionPiece : option Kind) (g : Game) : Game :=
  match promotedPieceOf piece toRow promotionPiece with
  | Some _ => g
  | None =>
      let g := set_board (put (board g) toRow toCol (Some piece)) g in
      set_board (put (board g) fromRow fromCol None) g
  end.

(** The check flags of both colours are recomputed. *)
Definition updateCheckFlags (g : Game) : Game :=
  let whiteCheck := isKingInCheck g white in
  let g := set_isInCheck (set_color (isInCheck g) white whiteCheck) g in
  let blackCheck := isKingInCheck g black in
  set_isInCheck (set_color (isInCheck g) black blackCheck) g.

(** "Switch player", the check flags, the end of the game, and the
    snapshot with the new move index. *)
Definition finishMove (opponentColor : Color) (g : Game) : Game :=
  let g := set_currentPlayer opponentColor g in
  let g := updateCheckFlags g in
  let g := checkGameEndConditions g in
  let g := set_boardStates (boardStates g ++ [deepCopyBoard (board g)]) g in
  set_currentMoveIndex (Z.of_nat (length (moveHistory g))) g.

(** [makeMove(fromRow, fromCol, toRow, toCol, promotionPiece = null)],
    without its rendering calls, block by block.  With an empty source
    square the first statement ([piece.split]) raises and nothing has
    changed.  The squares it indexes are taken to be squares of the
    board: for a destination outside the board, or an en-passant capture
    whose captured square is outside, [this.board[toRow][toCol]] and
    [this.board[enPassantRow][toCol]] raise a TypeError or lengthen a
    row, which the 8x8 grid does not follow (the callers pass members of
    a legal-move set, which lie on the board). *)
Definition makeMove (fromRow fromCol toRow toCol : Z) (promotionPiece : option Kind)
    (g : Game) : Game :=
  match cell (board g) fromRow fromCol with
  | None => g
  | Some piece =>
      let capturedPiece := cell (board g) toRow toCol in
      let opponentColor := opponent (snd piece) in
      let oldEnPassantTarget := enPassantTarget g in
      let g := set_enPassantTarget None g in
      let g := pawnSpecialMoves piece fromRow fromCol toRow toCol capturedPiece
                                promotionPiece g in
      let g := castleRook piece fromRow fromCol toCol g in
      let g := updateCastlingRights piece fromRow fromCol toRow toCol capturedPiece g in
      let g := recordMove piece fromRow fromCol toRow toCol capturedPiece promotionPiece
                          oldEnPassantTarget g in
      let g := movePiece piece fromRow fromCol toRow toCol promotionPiece g in
      finishMove opponentColor g
  end.

(** [truncateMoveHistory], without the notation table. *)
Definition truncateMoveHistory (g : Game) : Game :=
  let g := set_moveHistory (take (Z.to_nat (currentMoveIndex g)) (moveHistory g)) g in
  set_boardStates (take (Z.to_nat (currentMoveIndex g + 1)) (boardStates g)) g.

(** ** Navigation: [goToMove] replays the recorded moves *)

(** One iteration of the replay loop. *)
Definition replayMove (move : Move) (g : Game) : Game :=
  let '(fromRow, fromCol) := m_from move in
  let '(toRow, toCol) := m_to move in
  let piece := cell (board g) fromRow fromCol in
  let g := match m_capturedPiece move with
           | Some p => pushCaptured (m_player move) (Some p) g
           | None => g
           end in
  let g :=
    match m_enPassantCapture move with
    | Some (epRow, epCol) =>
        let capturedPawn := cell (board g) epRow epCol in
        let g := set_board (put (board g) epRow epCol None) g in
        pushCaptured (m_player move) capturedPawn g
    | None => g
    end in
  let g :=
    match m_castling move with
    | Some side =>
        let row := fromRow in
        let rookFromCol := match side with kingside => 7 | queenside => 0 end in
        let rookToCol := match side with kingside => 5 | queenside => 3 end in
        let rook := cell (board g) row rookFromCol in
        let g := set_board (put (board g) row rookToCol rook) g in
        set_board (put (board g) row rookFromCol None) g
    | None => g
    end in
  let g :=
    match m_promotedPiece move with
    | Some k =>
        let g := set_board (put (board g) toRow toCol (Some (k, m_player move))) g in
        set_board (put (board g) fromRow fromCol None) g
    | None =>
        let g := set_board (put (board g) toRow toCol piece) g in
        set_board (put (board g) fromRow fromCol None) g
    end in
  let g := match piece with
           | Some p =>
               if startsWith p king
               then set_kingPositions (set_color (kingPositions g) (m_player move) (toRow, toCol)) g
               else g
           | None => g
           end in
  let g := set_castlingRights (m_castlingRights move) g in
  set_enPassantTarget (m_enPassantTarget move) g.

Definition replayMoves (moves : list Move) (g : Game) : Game :=
  fold_left (fun g move => replayMove move g) moves g.

Definition goToMove (moveIndex : Z) (g : Game) : Game :=
  if (moveIndex <? 0) || (Z.of_nat (length (moveHistory g)) <? moveIndex) then g
  else
    let g := set_board createInitialBoard g in
    let g := set_kingPositions (mkByColor (7, 4) (0, 4)) g in
    let g := set_isInCheck (mkByColor false false) g in
    let g := set_castlingRights allRights g in
    let g := set_enPassantTarget None g in
    let g := set_capturedPieces (mkByColor [] []) g in
    let g := set_gameOver false g in
    let g := set_gameStatus StatusNone g in
    let g := replayMoves (take (Z.to_nat moveIndex) (moveHistory g)) g in
    let g := set_currentMoveIndex moveIndex g in
    let g := set_currentPlayer (if Z.even moveIndex then white else black) g in
    let g := updateCheckFlags g in
    if moveIndex =? Z.of_nat (length (moveHistory g)) then checkGameEndConditions g
    else set_gameStatus StatusNone (set_gameOver false g).

(** ** Clicks on squares *)

Definition selectPiece (row col : Z) (g : Game) : Game :=
  let g := set_selectedPiece (Some (row, col)) g in
  let '(moves, g) := calculateLegalMoves row col g in
  set_possibleMoves moves g.

Definition clearSelection (g : Game) : Game :=
  set_possibleMoves [] (set_selectedPiece None g).

Definition promptPromotion (fromRow fromCol toRow toCol : Z) (g : Game) : Game :=
  set_promotionMove (Some ((fromRow, fromCol), (toRow, toCol))) (set_promotionPending true g).

(** [completePromotion]; destructuring a [null] promotion move raises, and
    so does [makeMove] on an empty source square, after the history has
    been truncated and before the pending promotion is cleared. *)
Definition completePromotion (pieceType : Kind) (g : Game) : Game :=
  match promotionMove g with
  | None => g
  | Some ((fromRow, fromCol), (toRow, toCol)) =>
      let g := if currentMoveIndex g <? Z.of_nat (length (moveHistory g))
               then truncateMoveHistory g else g in
      match cell (board g) fromRow fromCol with
      | None => g
      | Some _ =>
          let g := makeMove fromRow fromCol toRow toCol (Some pieceType) g in
          set_promotionMove None (set_promotionPending false g)
      end
  end.

(** [handleSquareClick]; when the selected square has become empty the
    test of the promotion rank raises and nothing has changed. *)
Definition handleSquareClick (row col : Z) (g : Game) : Game :=
  match selectedPiece g with
  | Some (selectedRow, selectedCol) =>
      if existsb (fun '(r, c) => (r =? row) && (c =? col)) (possibleMoves g) then
        match cell (board g) selectedRow selectedCol with
        | None => g
        | Some piece =>
            let isPawn := startsWith piece pawn in
            let isPromotionRank :=
              (endsWith piece white && (row =? 0)) || (endsWith piece black && (row =? 7)) in
            let g :=
              if isPawn && isPromotionRank
              then promptPromotion selectedRow selectedCol row col g
              else
                let g := if currentMoveIndex g <? Z.of_nat (length (moveHistory g))
                         then truncateMoveHistory g else g in
                makeMove selectedRow selectedCol row col None g in
            clearSelection g
        end
      else
        match cell (board g) row col with
        | Some clickedPiece =>
            if endsWith clickedPiece (currentPlayer g) then selectPiece row col g
            else clearSelection g
        | None => clearSelection g
        end
  | None =>
      match cell (board g) row col with
      | Some piece => if endsWith piece (currentPlayer g) then selectPiece row col g else g
      | None => g
      end
  end.

(** The click listener of the board: clicks are ignored once the game is
    over or while the promotion dialog is open. *)
Definition onSquareClick (row col : Z) (g : Game) : Game :=
  if gameOver g || promotionPending g then g else handleSquareClick row col g.

(** ** pgn.js: replaying one token of the movetext *)

(** [legalMoves.some(([r, c]) => r === destRow && c === destCol)] *)
Definition canMoveTo (legalMoves : list Square) (destRow destCol : option Z) : bool :=
  existsb (fun '(r, c) => San.Z_is destRow r && San.Z_is destCol c) legalMoves.

(** The search loop of [processAlgebraicNotation]: the squares are visited
    row by row; the first piece of the player to move that has the wanted
    kind, passes the source constraints and has the destination among its
    legal moves is moved, and the search stops. *)
Fixpoint findAndMove (t : San.Token) (color : Color) (squares : list Square) (g : Game)
  : bool * Game :=
  match squares with
  | [] => (false, g)
  | (row, col) :: rest =>
      match cell (board g) row col with
      | Some piece =>
          if endsWith piece color && startsWith piece (San.pieceType t)
             && San.matchesSource t row col
          then
            let '(legalMoves, g) := calculateLegalMoves row col g in
            if canMoveTo legalMoves (San.destRow t) (San.destCol t) then
              match San.destRow t, San.destCol t with
              | Some destRow, Some destCol =>
                  (true, makeMove row col destRow destCol (San.promotionPiece t) g)
              | _, _ => (true, g)   (* not reached: the test above has failed *)
              end
            else findAndMove t color rest g
          else findAndMove t color rest g
      | None => findAndMove t color rest g
      end
  end.

(** [processCastlingMove] *)
Definition processCastlingMove (isKingside : bool) (g : Game) : bool * Game :=
  let color := currentPlayer g in
  let row := match color with white => 7 | black => 0 end in
  let kingCol := 4 in
  match cell (board g) row kingCol with
  | Some king_ =>
      if startsWith king_ king then
        let destCol := if isKingside then 6 else 2 in
        (true, makeMove row kingCol row destCol None g)
      else (false, g)
  | None => (false, g)
  end.

(** [processAlgebraicNotation(moveNotation, game)]; the result is the
    boolean it returns, or [Raised] for the [TypeError] of an empty token
    body. *)
Definition processAlgebraicNotation (moveNotation : string) (g : Game)
  : Outcome bool * Game :=
  if String.eqb moveNotation "" then (Returned false, g)
  else if String.eqb moveNotation "O-O" then
    let '(r, g) := processCastlingMove true g in (Returned r, g)
  else if String.eqb moveNotation "O-O-O" then
    let '(r, g) := processCastlingMove false g in (Returned r, g)
  else
    match San.decode (San.chars moveNotation) with
    | San.TypeError => (Raised, g)
    | San.Invalid => (Returned false, g)
    | San.Fields t =>
        let '(r, g) := findAndMove t (currentPlayer g) allSquares g in
        (Returned r, g)
    end.

End Mono.
(* ====================================================================== *)
(** * The layered implementation (src/js) *)
(* ====================================================================== *)

Module Layered.

(** ** Piece.js *)

Record Piece : Set := mkPiece { type : Kind; color : Color; hasMoved : bool }.

(** [new Pawn(color)], [new Knight(color)], ...: [PieceFactory.createPiece]. *)
Definition createPiece (t : Kind) (c : Color) : Piece := mkPiece t c false.

Definition setHasMoved (p : Piece) (moved : bool) : Piece :=
  mkPiece (type p) (color p) moved.

(** [clone()] of every subclass: a new piece of the same class and colour
    with [hasMoved] copied. *)
Definition Piece_clone (p : Piece) : Piece :=
  setHasMoved (createPiece (type p) (color p)) (hasMoved p).

(** ** Board.js *)

Abbreviation Board := (Grid Piece).

Definition createEmptyGrid : Board := replicate 8 (replicate 8 None).

Definition backRankPieces : list Kind :=
  [rook; knight; bishop; queen; king; bishop; knight; rook].

(** [PieceFactory.createInitialBoard] *)
Definition createInitialBoard : Board :=
  [ map (fun t => Some (createPiece t black)) backRankPieces;
    replicate 8 (Some (createPiece pawn black));
    replicate 8 None; replicate 8 None; replicate 8 None; replicate 8 None;
    replicate 8 (Some (createPiece pawn white));
    map (fun t => Some (createPiece t white)) backRankPieces ].

Definition getPiece (b : Board) (row col : Z) : option Piece :=
  if negb (isInBounds row col) then None else cell b row col.

Definition setPiece (b : Board) (row col : Z) (piece : option Piece) : bool * Board :=
  if negb (isInBounds row col) then (false, b) else (true, put b row col piece).

(** [movePiece]: the piece object is marked as moved; it is the object
    stored at the destination (and nowhere, when source and destination
    coincide).  The result is the object that stood on the destination,
    as it is when the call returns: when source and destination coincide
    that is the moved object itself, and it carries the mark. *)
Definition movePiece (b : Board) (fromRow fromCol toRow toCol : Z)
  : option Piece * Board :=
  if negb (isInBounds fromRow fromCol) || negb (isInBounds toRow toCol)
  then (None, b)
  else match cell b fromRow fromCol with
       | None => (None, b)
       | Some piece =>
           let capturedPiece :=
             if (fromRow =? toRow) && (fromCol =? toCol)
             then Some (setHasMoved piece true)
             else cell b toRow toCol in
           let b := put b toRow toCol (Some (setHasMoved piece true)) in
           let b := put b fromRow fromCol None in
           (capturedPiece, b)
       end.

(** [Board.clone]: every piece of the 8x8 grid is cloned into a new grid. *)
Definition Board_clone (b : Board) : Board :=
  map (map (fun x => match x with Some p => Some (Piece_clone p) | None => None end)) b.

(** [isOpponentPiece], [isFriendlyPiece], [isEmpty] of the base class. *)
Definition isOpponentPiece (self : Piece) (board : Board) (row col : Z) : bool :=
  match getPiece board row col with
  | Some piece => negb (Color_eqb (color piece) (color self))
  | None => false
  end.

Definition isFriendlyPiece (self : Piece) (board : Board) (row col : Z) : bool :=
  match getPiece board row col with
  | Some piece => Color_eqb (color piece) (color self)
  | None => false
  end.

Definition isEmpty (board : Board) (row col : Z) : bool :=
  match getPiece board row col with Some _ => false | None => true end.

(** ** GameState.js *)

(** [SPECIAL_MOVES] *)
Inductive SpecialMove : Set :=
| CASTLE_KINGSIDE | CASTLE_QUEENSIDE | EN_PASSANT | PROMOTION.

(** A candidate move: [[row, col]] or [[row, col, specialMove]]. *)
Definition MoveData : Set := (Z * Z * option SpecialMove)%type.

(** The move object pushed on the history by [GameController.makeMove]
    (its [notation] string is display text and is left out). *)
Record Move : Set := mkMove {
  m_piece : Piece;
  m_from : Square;
  m_to : Square;
  m_capturedPiece : option Piece;
  m_player : Color;
  m_enPassantCapture : option Square;
  m_promotedPiece : option Kind;
  m_castling : option Side;
  m_enPassantTarget : option Square;
  m_castlingRights : ByColor CastlingRights
}.

(** [RESULTS] *)
Inductive Result : Set := WHITE_WIN | BLACK_WIN | DRAW | IN_PROGRESS.

Record GameState : Type := mkGameState {
  currentPlayer : Color;
  moveHistory : list Move;
  boardStates : list Board;
  capturedPieces : ByColor (list (option Piece));
  kingPositions : ByColor Square;
  isInCheck : ByColor bool;
  castlingRights : ByColor CastlingRights;
  enPassantTarget : option Square;
  currentMoveIndex : Z;
  gameOver : bool;
  gameStatus : Status;
  result : Result;
  boardOrientation : Color;
  promotionPending : bool;
  promotionMove : option (Square * Square)
}.

(** Assignments to one field of the game state object. *)
Definition set_currentPlayer (v : Color) (s : GameState) : GameState :=
  mkGameState v (moveHistory s) (boardStates s) (capturedPieces s)
    (kingPositions s) (isInCheck s) (castlingRights s) (enPassantTarget s)
    (currentMoveIndex s) (gameOver s) (gameStatus s) (result s)
    (boardOrientation s) (promotionPending s) (promotionMove s).
Definition set_moveHistory (v : list Move) (s : GameState) : GameState :=
  mkGameState (currentPlayer s) v (boardStates s) (capturedPieces s)
    (kingPositions s) (isInCheck s) (castlingRights s) (enPassantTarget s)
    (currentMoveIndex s) (gameOver s) (gameStatus s) (result s)
    (boardOrientation s) (promotionPending s) (promotionMove s).
Definition set_boardStates (v : list Board) (s : GameState) : GameState :=
  mkGameState (currentPlayer s) (moveHistory s) v (capturedPieces s)
    (kingPositions s) (isInCheck s) (castlingRights s) (enPassantTarget s)
    (currentMoveIndex s) (gameOver s) (gameStatus s) (result s)
    (boardOrientation s) (promotionPending s) (promotionMove s).
Definition set_capturedPieces (v : ByColor (list (option Piece))) (s : GameState) : GameState :=
  mkGameState (currentPlayer s) (moveHistory s) (boardStates s) v
    (kingPositions s) (isInCheck s) (castlingRights s) (enPassantTarget s)
    (currentMoveIndex s) (gameOver s) (gameStatus s) (result s)
    (boardOrientation s) (promotionPending s) (promotionMove s).
Definition set_kingPositions (v : ByColor Square) (s : GameState) : GameState :=
  mkGameState (currentPlayer s) (moveHistory s) (boardStates s)
    (capturedPieces s) v (isInCheck s) (castlingRights s) (enPassantTarget s)
    (currentMoveIndex s) (gameOver s) (gameStatus s) (result s)
    (boardOrientation s) (promotionPending s) (promotionMove s).
Definition set_isInCheck (v : ByColor bool) (s : GameState) : GameState :=
  mkGameState (currentPlayer s) (moveHistory s) (boardStates s)
    (capturedPieces s) (kingPositions s) v (castlingRights s)
    (enPassantTarget s) (currentMoveIndex s) (gameOver s) (gameStatus s)
    (result s) (boardOrientation s) (promotionPending s) (promotionMove s).
Definition set_castlingRights (v : ByColor CastlingRights) (s : GameState) : GameState :=
  mkGameState (currentPlayer s) (moveHistory s) (boardStates s)
    (capturedPieces s) (kingPositions s) (isInCheck s) v (enPassantTarget s)
    (currentMoveIndex s) (gameOver s) (gameStatus s) (result s)
    (boardOrientation s) (promotionPending s) (promotionMove s).
Definition set_enPassantTarget (v : option Square) (s : GameState) : GameState :=
  mkGameState (currentPlayer s) (moveHistory s) (boardStates s)
    (capturedPieces s) (kingPositions s) (isInCheck s) (castlingRights s) v
    (currentMoveIndex s) (gameOver s) (gameStatus s) (result s)
    (boardOrientation s) (promotionPending s) (promotionMove s).
Definition set_currentMoveIndex (v : Z) (s : GameState) : GameState :=
  mkGameState (currentPlayer s) (moveHistory s) (boardStates s)
    (capturedPieces s) (kingPositions s) (isInCheck s) (castlingRights s)
    (enPassantTarget s) v (gameOver s) (gameStatus s) (result s)
    (boardOrientation s) (promotionPending s) (promotionMove s).
Definition set_gameOver (v : bool) (s : GameState) : GameState :=
  mkGameState (currentPlayer s) (moveHistory s) (boardStates s)
    (capturedPieces s) (kingPositions s) (isInCheck s) (castlingRights s)
    (enPassantTarget s) (currentMoveIndex s) v (gameStatus s) (result s)
    (boardOrientation s) (promotionPending s) (promotionMove s).
Definition set_gameStatus (v : Status) (s : GameState) : GameState :=
  mkGameState (currentPlayer s) (moveHistory s) (boardStates s)
    (capturedPieces s) (kingPositions s) (isInCheck s) (castlingRights s)
    (enPassantTarget s) (currentMoveIndex s) (gameOver s) v (result s)
    (boardOrientation s) (promotionPending s) (promotionMove s).
Definition set_result (v : Result) (s : GameState) : GameState :=
  mkGameState (currentPlayer s) (moveHistory s) (boardStates s)
    (capturedPieces s) (kingPositions s) (isInCheck s) (castlingRights s)
    (enPassantTarget s) (currentMoveIndex s) (gameOver s) (gameStatus s) v
    (boardOrientation s) (promotionPending s) (promotionMove s).
Definition set_boardOrientation (v : Color) (s : GameState) : GameState :=
  mkGameState (currentPlayer s) (moveHistory s) (boardStates s)
    (capturedPieces s) (kingPositions s) (isInCheck s) (castlingRights s)
    (enPassantTarget s) (currentMoveIndex s) (gameOver s) (gameStatus s)
    (result s) v (promotionPending s) (promotionMove s).
Definition set_promotionPending (v : bool) (s : GameState) : GameState :=
  mkGameState (currentPlayer s) (moveHistory s) (boardStates s)
    (capturedPieces s) (kingPositions s) (isInCheck s) (castlingRights s)
    (enPassantTarget s) (currentMoveIndex s) (gameOver s) (gameStatus s)
    (result s) (boardOrientation s) v (promotionMove s).
Definition set_promotionMove (v : option (Square * Square)) (s : GameState) : GameState :=
  mkGameState (currentPlayer s) (moveHistory s) (boardStates s)
    (capturedPieces s) (kingPositions s) (isInCheck s) (castlingRights s)
    (enPassantTarget s) (currentMoveIndex s) (gameOver s) (gameStatus s)
    (result s) (boardOrientation s) (promotionPending s) v.

(** [new GameState()] *)
Definition newGameState : GameState :=
  mkGameState white [] [] (mkByColor [] []) (mkByColor (7, 4) (0, 4))
    (mkByColor false false) allRights None 0 false StatusNone IN_PROGRESS
    white false None.

(** [reset()]: everything but the board orientation. *)
Definition GameState_reset (s : GameState) : GameState :=
  mkGameState white [] [] (mkByColor [] []) (mkByColor (7, 4) (0, 4))
    (mkByColor false false) allRights None 0 false StatusNone IN_PROGRESS
    (boardOrientation s) false None.

Definition switchPlayer (s : GameState) : GameState :=
  set_currentPlayer (opponent (currentPlayer s)) s.

(** [truncateHistory]: [slice(0, currentMoveIndex)] of the moves and
    [slice(0, currentMoveIndex + 1)] of the snapshots.  (The index is never
    negative, see [history_inv] below; [slice] with a negative end would
    count from the end of the array.) *)
Definition truncateHistory (s : GameState) : GameState :=
  let s := set_moveHistory (take (Z.to_nat (currentMoveIndex s)) (moveHistory s)) s in
  set_boardStates (take (Z.to_nat (currentMoveIndex s + 1)) (boardStates s)) s.

Definition addMove (move : Move) (boardState : Board) (s : GameState) : GameState :=
  let s := if currentMoveIndex s <? Z.of_nat (length (moveHistory s))
           then truncateHistory s else s in
  let s := set_moveHistory (moveHistory s ++ [move]) s in
  let s := set_boardStates (boardStates s ++ [boardState]) s in
  set_currentMoveIndex (Z.of_nat (length (moveHistory s))) s.

(** [updateResult]: [gameStatus.includes('Checkmate')], then
    [includes('Stalemate') || includes('Draw')]. *)
Definition updateResult (s : GameState) : GameState :=
  match gameStatus s with
  | StatusCheckmate _ =>
      set_result (match currentPlayer s with white => BLACK_WIN | black => WHITE_WIN end) s
  | StatusStalemate => set_result DRAW s
  | _ => set_result IN_PROGRESS s
  end.

Definition getOpponentColor (s : GameState) : Color := opponent (currentPlayer s).

(** [addCapturedPiece]: credited to the player to move; the argument is
    pushed as it is, [null] included. *)
Definition addCapturedPiece (piece : option Piece) (s : GameState) : GameState :=
  let capturer := currentPlayer s in
  set_capturedPieces
    (set_color (capturedPieces s) capturer (at_color (capturedPieces s) capturer ++ [piece])) s.

Definition updateKingPosition (c : Color) (row col : Z) (s : GameState) : GameState :=
  set_kingPositions (set_color (kingPositions s) c (row, col)) s.

(** [clone()]: a new game state with the position-related fields copied;
    history, captured pieces, move index, orientation and the promotion
    fields keep the values of the constructor. *)
Definition GameState_clone (s : GameState) : GameState :=
  let n := newGameState in
  let n := set_currentPlayer (currentPlayer s) n in
  let n := set_kingPositions (kingPositions s) n in
  let n := set_isInCheck (isInCheck s) n in
  let n := set_castlingRights (castlingRights s) n in
  let n := set_enPassantTarget (enPassantTarget s) n in
  let n := set_gameOver (gameOver s) n in
  let n := set_gameStatus (gameStatus s) n in
  set_result (result s) n.

(** ** The pieces' move generators ([getPossibleMoves]) *)

Definition plain (row col : Z) : MoveData := (row, col, None).

(** The while-loop shared by [Rook], [Bishop] and [Queen]. *)
Fixpoint slide (fuel : nat) (self : Piece) (board : Board)
    (currentRow currentCol rowDir colDir : Z) : list MoveData :=
  match fuel with
  | O => []
  | S fuel =>
      if isInBounds currentRow currentCol then
        if isEmpty board currentRow currentCol then
          plain currentRow currentCol
            :: slide fuel self board (currentRow + rowDir) (currentCol + colDir) rowDir colDir
        else if isOpponentPiece self board currentRow currentCol then
          [plain currentRow currentCol]
        else []
      else []
  end.

Definition slideAll (self : Piece) (board : Board) (row col : Z)
    (directions : list (Z * Z)) : list MoveData :=
  flat_map (fun '(rowDir, colDir) =>
              slide rayFuel self board (row + rowDir) (col + colDir) rowDir colDir)
           directions.

Definition Rook_directions : list (Z * Z) := [(-1, 0); (1, 0); (0, -1); (0, 1)].
Definition Bishop_directions : list (Z * Z) := [(-1, -1); (-1, 1); (1, -1); (1, 1)].
Definition Queen_directions : list (Z * Z) := Rook_directions ++ Bishop_directions.

Definition Rook_getPossibleMoves (self : Piece) (board : Board) (row col : Z) :=
  slideAll self board row col Rook_directions.

Definition Bishop_getPossibleMoves (self : Piece) (board : Board) (row col : Z) :=
  slideAll self board row col Bishop_directions.

Definition Queen_getPossibleMoves (self : Piece) (board : Board) (row col : Z) :=
  slideAll self board row col Queen_directions.

(** [Knight] and the ordinary [King] steps: an offset table. *)
Definition stepAll (self : Piece) (board : Board) (row col : Z)
    (offsets : list (Z * Z)) : list MoveData :=
  flat_map (fun '(rowOffset, colOffset) =>
              let newRow := row + rowOffset in
              let newCol := col + colOffset in
              if isInBounds newRow newCol
                 && (isEmpty board newRow newCol
                     || isOpponentPiece self board newRow newCol)
              then [plain newRow newCol] else [])
           offsets.

Definition Knight_getPossibleMoves (self : Piece) (board : Board) (row col : Z) :=
  stepAll self board row col knightOffsets.

(** [Pawn.getPossibleMoves]; [gameState] is optional in the source. *)
Definition Pawn_getPossibleMoves (self : Piece) (board : Board) (row col : Z)
    (gameState : option GameState) : list MoveData :=
  let direction := match color self with white => -1 | black => 1 end in
  let startingRow := match color self with white => 6 | black => 1 end in
  let forward :=
    if isInBounds (row + direction) col && isEmpty board (row + direction) col then
      plain (row + direction) col
        :: (if (row =? startingRow) && isEmpty board (row + 2 * direction) col
            then [plain (row + 2 * direction) col] else [])
    else [] in
  let captures :=
    flat_map (fun colOffset =>
      let captureRow := row + direction in
      let captureCol := col + colOffset in
      if isInBounds captureRow captureCol then
        (if isOpponentPiece self board captureRow captureCol
         then [plain captureRow captureCol] else [])
        ++ (match gameState with
            | Some gs =>
                match enPassantTarget gs with
                | Some (epRow, epCol) =>
                    if (captureRow =? epRow) && (captureCol =? epCol)
                    then [plain captureRow captureCol] else []
                | None => []
                end
            | None => []
            end)
      else []) [-1; 1] in
  forward ++ captures.

(** [King]: castling is offered on the castling right, the empty squares
    and the unmoved rook; no square is tested for attack here. *)
Definition isRookForCastling (self : Piece) (board : Board) (row col : Z) : bool :=
  match getPiece board row col with
  | Some piece =>
      Kind_eqb (type piece) rook && Color_eqb (color piece) (color self)
      && negb (hasMoved piece)
  | None => false
  end.

Definition canCastleKingside (self : Piece) (board : Board) (row col : Z) : bool :=
  isEmpty board row (col + 1) && isEmpty board row (col + 2)
  && isInBounds row (col + 3) && isRookForCastling self board row (col + 3).

Definition canCastleQueenside (self : Piece) (board : Board) (row col : Z) : bool :=
  isEmpty board row (col - 1) && isEmpty board row (col - 2)
  && isEmpty board row (col - 3)
  && isInBounds row (col - 4) && isRookForCastling self board row (col - 4).

Definition addCastlingMoves (self : Piece) (board : Board) (row col : Z)
    (gameState : GameState) : list MoveData :=
  (if kingSide (at_color (castlingRights gameState) (color self))
      && canCastleKingside self board row col
   then [(row, col + 2, Some CASTLE_KINGSIDE)] else [])
  ++
  (if queenSide (at_color (castlingRights gameState) (color self))
      && canCastleQueenside self board row col
   then [(row, col - 2, Some CASTLE_QUEENSIDE)] else []).

Definition King_getPossibleMoves (self : Piece) (board : Board) (row col : Z)
    (gameState : option GameState) : list MoveData :=
  stepAll self board row col kingOffsets
  ++ match gameState with
     | Some gs =>
         if negb (hasMoved self) && negb (at_color (isInCheck gs) (color self))
         then addCastlingMoves self board row col gs else []
     | None => []
     end.

(** Dynamic dispatch on the class of the piece. *)
Definition getPossibleMoves (self : Piece) (board : Board) (row col : Z)
    (gameState : option GameState) : list MoveData :=
  match type self with
  | pawn => Pawn_getPossibleMoves self board row col gameState
  | knight => Knight_getPossibleMoves self board row col
  | bishop => Bishop_getPossibleMoves self board row col
  | rook => Rook_getPossibleMoves self board row col
  | queen => Queen_getPossibleMoves self board row col
  | king => King_getPossibleMoves self board row col gameState
  end.

(** ** MoveValidator.js

    The validator holds two references, [this.board] and [this.gameState].
    [v_board] and [v_gameState] are the objects they currently point to;
    its methods are written in state-passing style over this pair. *)

Record Validator : Type := mkValidator { v_board : Board; v_gameState : GameState }.

Definition set_v_board (b : Board) (v : Validator) : Validator :=
  mkValidator b (v_gameState v).

Definition set_v_gameState (s : GameState) (v : Validator) : Validator :=
  mkValidator (v_board v) s.

(** [isSquareAttacked]: every piece of the attacking colour is asked for
    its possible moves, and the square is attacked when one of them lands
    on it. *)
Definition isSquareAttacked (v : Validator) (row col : Z) (defendingColor : Color) : bool :=
  let attackingColor := opponent defendingColor in
  existsb (fun '(r, c) =>
    match getPiece (v_board v) r c with
    | Some piece =>
        Color_eqb (color piece) attackingColor
        && existsb (fun '(attackRow, attackCol, _) =>
                      (attackRow =? row) && (attackCol =? col))
                   (getPossibleMoves piece (v_board v) r c (Some (v_gameState v)))
    | None => false
    end) allSquares.

Definition isKingInCheck (v : Validator) (c : Color) : bool :=
  let '(kingRow, kingCol) := at_color (kingPositions (v_gameState v)) c in
  isSquareAttacked v kingRow kingCol c.

(** [specialMove && specialMove.startsWith('castle')] *)
Definition isCastle (specialMove : option SpecialMove) : bool :=
  match specialMove with
  | Some CASTLE_KINGSIDE | Some CASTLE_QUEENSIDE => true
  | _ => false
  end.

(** [castlingSide === 'castle-kingside'] *)
Definition isKingsideMove (specialMove : option SpecialMove) : bool :=
  match specialMove with Some CASTLE_KINGSIDE => true | _ => false end.

(** [handleCastlingMove], on the board and state the validator points to.
    [piece.color] raises when the king's destination is empty. *)
Definition handleCastlingMove (fromRow fromCol toRow toCol : Z)
    (castlingSide : option SpecialMove) (v : Validator) : Outcome unit * Validator :=
  let v := set_v_board (snd (movePiece (v_board v) fromRow fromCol toRow toCol)) v in
  let isKingside := isKingsideMove castlingSide in
  let rookFromCol := if isKingside then 7 else 0 in
  let rookToCol := if isKingside then 5 else 3 in
  let v := set_v_board (snd (movePiece (v_board v) fromRow rookFromCol fromRow rookToCol)) v in
  match getPiece (v_board v) toRow toCol with
  | Some piece =>
      (Returned tt,
       set_v_gameState (updateKingPosition (color piece) toRow toCol (v_gameState v)) v)
  | None => (Raised, v)
  end.

(** [makeTemporaryMove]; [piece.type] raises when the source is empty. *)
Definition makeTemporaryMove (fromRow fromCol toRow toCol : Z)
    (specialMove : option SpecialMove) (v : Validator)
  : Outcome (option Piece) * Validator :=
  let piece := getPiece (v_board v) fromRow fromCol in
  let capturedPiece := getPiece (v_board v) toRow toCol in
  if isCastle specialMove then
    match handleCastlingMove fromRow fromCol toRow toCol specialMove v with
    | (Returned _, v) => (Returned None, v)
    | (Raised, v) => (Raised, v)
    end
  else
    match piece with
    | None => (Raised, v)
    | Some piece =>
        let '(capturedPiece, v) :=
          match enPassantTarget (v_gameState v) with
          | Some (epRow, epCol) =>
              if Kind_eqb (type piece) pawn && (toRow =? epRow) && (toCol =? epCol) then
                let enPassantRow :=
                  match color piece with white => toRow + 1 | black => toRow - 1 end in
                (getPiece (v_board v) enPassantRow toCol,
                 set_v_board (snd (setPiece (v_board v) enPassantRow toCol None)) v)
              else (capturedPiece, v)
          | None => (capturedPiece, v)
          end in
        let v := set_v_board (snd (setPiece (v_board v) toRow toCol (Some piece))) v in
        let v := set_v_board (snd (setPiece (v_board v) fromRow fromCol None)) v in
        let v :=
          if Kind_eqb (type piece) king then
            set_v_gameState
              (set_kingPositions
                 (set_color (kingPositions (v_gameState v)) (color piece) (toRow, toCol))
                 (v_gameState v)) v
          else v in
        (Returned capturedPiece, v)
    end.

(** [simulateMove]: the move is played on clones the validator is pointed
    to for the duration of the test; [savedBoard] and [savedState] are put
    back afterwards.  An exception raised in between leaves the validator
    pointing to the clones. *)
Definition simulateMove (fromRow fromCol toRow toCol : Z)
    (specialMove : option SpecialMove) (v : Validator) : Outcome bool * Validator :=
  match getPiece (v_board v) fromRow fromCol with
  | None => (Returned false, v)
  | Some piece =>
      let originalBoard := Board_clone (v_board v) in
      let originalState := GameState_clone (v_gameState v) in
      let simulationBoard := Board_clone originalBoard in
      let simulationState := GameState_clone originalState in
      let savedBoard := v_board v in
      let savedState := v_gameState v in
      let v := set_v_board simulationBoard v in
      let v := set_v_gameState simulationState v in
      match makeTemporaryMove fromRow fromCol toRow toCol specialMove v with
      | (Raised, v) => (Raised, v)
      | (Returned _, v) =>
          let isInCheck := isKingInCheck v (color piece) in
          let v := set_v_board savedBoard v in
          let v := set_v_gameState savedState v in
          (Returned (negb isInCheck), v)
      end
  end.

(** The loop of [calculateLegalMoves]: a candidate is kept when its
    simulation returns [true]; an exception is caught and the loop goes
    on with the next candidate. *)
Fixpoint filterLegal (row col : Z) (possibleMoves : list MoveData) (v : Validator)
  : list MoveData * Validator :=
  match possibleMoves with
  | [] => ([], v)
  | moveData :: rest =>
      let '(toRow, toCol, specialMove) := moveData in
      let '(r, v) := simulateMove row col toRow toCol specialMove v in
      let '(legalMoves, v) := filterLegal row col rest v in
      (match r with Returned true => moveData :: legalMoves | _ => legalMoves end, v)
  end.

Definition calculateLegalMoves (row col : Z) (v : Validator) : list MoveData * Validator :=
  match getPiece (v_board v) row col with
  | None => ([], v)
  | Some piece =>
      if negb (Color_eqb (color piece) (currentPlayer (v_gameState v))) then ([], v)
      else
        let possibleMoves :=
          getPossibleMoves piece (v_board v) row col (Some (v_gameState v)) in
        filterLegal row col possibleMoves v
  end.

(** [playerHasLegalMoves]: the first piece of the colour with a legal move
    ends the search. *)
Fixpoint anyLegal (c : Color) (squares : list Square) (v : Validator) : bool * Validator :=
  match squares with
  | [] => (false, v)
  | (row, col) :: rest =>
      match getPiece (v_board v) row col with
      | Some piece =>
          if Color_eqb (color piece) c then
            let '(legalMoves, v) := calculateLegalMoves row col v in
            if (0 <? Z.of_nat (length legalMoves)) then (true, v)
            else anyLegal c rest v
          else anyLegal c rest v
      | None => anyLegal c rest v
      end
  end.

Definition playerHasLegalMoves (c : Color) (v : Validator) : bool * Validator :=
  anyLegal c allSquares v.

(** [checkGameEndConditions] returns [{ gameOver, gameStatus }]. *)
Definition checkGameEndConditions (v : Validator) : (bool * Status) * Validator :=
  let currentColor := currentPlayer (v_gameState v) in
  let '(hasLegalMoves, v) := playerHasLegalMoves currentColor v in
  if negb hasLegalMoves then
    if at_color (isInCheck (v_gameState v)) currentColor
    then ((true, StatusCheckmate (opponent currentColor)), v)
    else ((true, StatusStalemate), v)
  else if at_color (isInCheck (v_gameState v)) currentColor
  then ((false, StatusCheck currentColor), v)
  else ((false, StatusNone), v).

(** [updateCheckStatus]: both tests are made before either flag is written. *)
Definition updateCheckStatus (v : Validator) : Validator :=
  let whiteCheck := isKingInCheck v white in
  let blackCheck := isKingInCheck v black in
  let gs := v_gameState v in
  let gs := set_isInCheck (set_color (isInCheck gs) white whiteCheck) gs in
  let gs := set_isInCheck (set_color (isInCheck gs) black blackCheck) gs in
  set_v_gameState gs v.

(** ** GameController.js

    [main.js] creates one [Board] and one [GameState] and hands both to the
    validator and to the controller.  The game state object is shared for
    good (neither reference is ever assigned again outside a simulation).
    The board is not: [goToMove] assigns a fresh clone to the controller's
    [this.board], while the validator keeps the board it was constructed
    with.  Boards therefore live in a store and the two references are
    kept apart. *)

Record Controller : Type := mkController {
  heap : list Board;              (* the Board objects, by address *)
  board : nat;                    (* GameController.board *)
  validatorBoard : nat;           (* MoveValidator.board *)
  gameState : GameState;          (* the GameState both refer to *)
  selectedPiece : option Square;
  possibleMoves : list MoveData
}.

Definition set_heap (h : list Board) (c : Controller) : Controller :=
  mkController h (board c) (validatorBoard c) (gameState c) (selectedPiece c) (possibleMoves c).

Definition set_board (r : nat) (c : Controller) : Controller :=
  mkController (heap c) r (validatorBoard c) (gameState c) (selectedPiece c) (possibleMoves c).

Definition set_gameState (s : GameState) (c : Controller) : Controller :=
  mkController (heap c) (board c) (validatorBoard c) s (selectedPiece c) (possibleMoves c).

Definition set_selectedPiece (p : option Square) (c : Controller) : Controller :=
  mkController (heap c) (board c) (validatorBoard c) (gameState c) p (possibleMoves c).

Definition set_possibleMoves (l : list MoveData) (c : Controller) : Controller :=
  mkController (heap c) (board c) (validatorBoard c) (gameState c) (selectedPiece c) l.

(** The board object behind a reference, and an in-place change of it. *)
Definition deref (h : list Board) (r : nat) : Board := h !!! r.

Definition liveBoard (c : Controller) : Board := deref (heap c) (board c).

Definition writeBoard (b : Board) (c : Controller) : Controller :=
  set_heap (<[board c := b]> (heap c)) c.

(** [this.board = <new object>] *)
Definition rebindBoard (b : Board) (c : Controller) : Controller :=
  set_board (length (heap c)) (set_heap (heap c ++ [b]) c).

(** A call of a validator method: it runs on the objects the validator
    refers to and its writes land in them.  ([calculateLegalMoves_restores]
    below shows that a simulation leaves the validator on these same
    objects.) *)
Definition theValidator (c : Controller) : Validator :=
  mkValidator (deref (heap c) (validatorBoard c)) (gameState c).

Definition storeValidator (v : Validator) (c : Controller) : Controller :=
  set_gameState (v_gameState v) (set_heap (<[validatorBoard c := v_board v]> (heap c)) c).

(** [main.js]: the objects as constructed, before [initialize]. *)
Definition newController : Controller :=
  mkController [createEmptyGrid] 0%nat 0%nat newGameState None [].

Definition clearSelection (c : Controller) : Controller :=
  set_possibleMoves [] (set_selectedPiece None c).

Definition initialize (c : Controller) : Controller :=
  let gs := GameState_reset (gameState c) in
  let c := writeBoard createInitialBoard c in        (* clear(); setupInitialPosition() *)
  let gs := set_moveHistory [] gs in
  let gs := set_currentMoveIndex 0 gs in
  let gs := set_boardStates [Board_clone (liveBoard c)] gs in
  let gs := set_currentPlayer white gs in
  let gs := set_kingPositions (mkByColor (7, 4) (0, 4)) gs in
  let gs := set_castlingRights allRights gs in
  let gs := set_isInCheck (mkByColor false false) gs in
  let gs := set_gameOver false gs in
  let gs := set_gameStatus StatusNone gs in
  let c := set_gameState gs c in
  let c := clearSelection c in
  storeValidator (updateCheckStatus (theValidator c)) c.

(** [handleCastling], on the controller's board. *)
Definition handleCastling (b : Board) (fromRow fromCol toRow toCol : Z)
    (castlingSide : Side) : Board :=
  let b := snd (movePiece b fromRow fromCol toRow toCol) in
  let isKingside := match castlingSide with kingside => true | queenside => false end in
  let rookFromCol := if isKingside then 7 else 0 in
  let rookToCol := if isKingside then 5 else 3 in
  snd (movePiece b fromRow rookFromCol fromRow rookToCol).

Definition revoke (c : Color) (side : Side) (s : GameState) : GameState :=
  let r := at_color (castlingRights s) c in
  let r := match side with
           | kingside => mkRights false (queenSide r)
           | queenside => mkRights (kingSide r) false
           end in
  set_castlingRights (set_color (castlingRights s) c r) s.

(** [updateCastlingRights]; [b] is the controller's board at the time of
    the call, that is, after the move has been played on it. *)
Definition updateCastlingRights (fromRow fromCol toRow toCol : Z) (piece : Piece)
    (b : Board) (s : GameState) : GameState :=
  let s := if Kind_eqb (type piece) king
           then revoke (color piece) queenside (revoke (color piece) kingside s)
           else s in
  let s :=
    if Kind_eqb (type piece) rook then
      if (fromRow =? 7) && (fromCol =? 0) && Color_eqb (color piece) white
      then revoke white queenside s
      else if (fromRow =? 7) && (fromCol =? 7) && Color_eqb (color piece) white
      then revoke white kingside s
      else if (fromRow =? 0) && (fromCol =? 0) && Color_eqb (color piece) black
      then revoke black queenside s
      else if (fromRow =? 0) && (fromCol =? 7) && Color_eqb (color piece) black
      then revoke black kingside s
      else s
    else s in
  match getPiece b toRow toCol with
  | Some capturedPiece =>
      if Kind_eqb (type capturedPiece) rook then
        let s := if (toRow =? 7) && (toCol =? 0) then revoke white queenside s else s in
        let s := if (toRow =? 7) && (toCol =? 7) then revoke white kingside s else s in
        let s := if (toRow =? 0) && (toCol =? 0) then revoke black queenside s else s in
        let s := if (toRow =? 0) && (toCol =? 7) then revoke black kingside s else s in
        s
      else s
  | None => s
  end.

Definition pushCaptured (c : Color) (p : Piece) (s : GameState) : GameState :=
  set_capturedPieces
    (set_color (capturedPieces s) c (at_color (capturedPieces s) c ++ [Some p])) s.

(** [capturedPiece = this.board.getPiece(toRow, toCol)] followed by
    [this.board.movePiece(fromRow, fromCol, toRow, toCol)]: the object
    read, as it is once the call has returned.  When source and
    destination coincide the object read is the one the call moves, and
    the call marks it. *)
Definition readBeforeMove (b : Board) (fromRow fromCol toRow toCol : Z) : option Piece :=
  match getPiece b toRow toCol with
  | Some p =>
      if (fromRow =? toRow) && (fromCol =? toCol) then Some (setHasMoved p true) else Some p
  | None => None
  end.

(** The part of [makeMove] between the lookup of the moving piece and the
    update of the castling rights: the move is played on the controller's
    board.  Result: the board, the game state, [capturedPiece],
    [enPassantCapture], [promotedPiece] and [castling]. *)
Definition playOnBoard (b : Board) (gs : GameState) (piece : Piece)
    (fromRow fromCol toRow toCol : Z)
    (specialMove : option SpecialMove) (promotionPiece : option Kind)
  : Board * GameState * option Piece * option Square * option Kind * option Side :=
  let pieceColor := color piece in
  if isCastle specialMove then
    let castling := if isKingsideMove specialMove then kingside else queenside in
    (handleCastling b fromRow fromCol toRow toCol castling, gs, None, None, None, Some castling)
  else if Kind_eqb (type piece) pawn then
    let enPassantRow := match pieceColor with white => toRow + 1 | black => toRow - 1 end in
    let '(b, gs, capturedPiece, enPassantCapture) :=
      if negb (fromCol =? toCol) && isEmpty b toRow toCol then
        let capturedPiece := getPiece b enPassantRow toCol in
        let b := snd (setPiece b enPassantRow toCol None) in
        let gs := match capturedPiece with
                  | Some p => pushCaptured pieceColor p gs
                  | None => gs
                  end in
        (b, gs, capturedPiece, Some (enPassantRow, toCol))
      else (b, gs, None, None) in
    match promotionPiece with
    | Some k =>
        let newPiece := createPiece k pieceColor in
        let b := snd (setPiece b toRow toCol (Some newPiece)) in
        let b := snd (setPiece b fromRow fromCol None) in
        (b, gs, capturedPiece, enPassantCapture, Some k, None)
    | None =>
        let gs := if Z.abs (fromRow - toRow) =? 2
                  then set_enPassantTarget (Some (enPassantRow, toCol)) gs else gs in
        let capturedPiece := readBeforeMove b fromRow fromCol toRow toCol in
        let b := snd (movePiece b fromRow fromCol toRow toCol) in
        (b, gs, capturedPiece, enPassantCapture, None, None)
    end
  else
    let capturedPiece := readBeforeMove b fromRow fromCol toRow toCol in
    let b := snd (movePiece b fromRow fromCol toRow toCol) in
    (b, gs, capturedPiece, None, None, None).

(** [makeMove].  The source wraps the body in [try ... catch]; with a
    piece kind for [promotionPiece] nothing in it raises on an 8x8 board. *)
Definition makeMove (fromRow fromCol toRow toCol : Z)
    (specialMove : option SpecialMove) (promotionPiece : option Kind)
    (c : Controller) : bool * Controller :=
  let '(fromRow, fromCol) :=
    match getPiece (liveBoard c) fromRow fromCol, selectedPiece c with
    | None, Some sel => sel
    | _, _ => (fromRow, fromCol)
    end in
  match getPiece (liveBoard c) fromRow fromCol with
  | None => (false, c)
  | Some piece =>
      let pieceColor := color piece in
      let opponentColor := opponent pieceColor in
      let gs := gameState c in
      let oldEnPassantTarget := enPassantTarget gs in
      let gs := set_enPassantTarget None gs in
      let '(b, gs, capturedPiece, enPassantCapture, promotedPiece, castling) :=
        playOnBoard (liveBoard c) gs piece fromRow fromCol toRow toCol
                    specialMove promotionPiece in
      let gs := match capturedPiece, enPassantCapture with
                | Some p, None => pushCaptured pieceColor p gs
                | _, _ => gs
                end in
      let gs := updateCastlingRights fromRow fromCol toRow toCol piece b gs in
      let gs := if Kind_eqb (type piece) king
                then set_kingPositions (set_color (kingPositions gs) pieceColor (toRow, toCol)) gs
                else gs in
      (* the piece object of the record is the one that was moved:
         [movePiece] has marked it unless the pawn was replaced *)
      let piece' := match promotedPiece with
                    | Some _ => piece
                    | None => if isInBounds toRow toCol then setHasMoved piece true else piece
                    end in
      let move := mkMove piece' (fromRow, fromCol) (toRow, toCol) capturedPiece pieceColor
                         enPassantCapture promotedPiece castling oldEnPassantTarget
                         (castlingRights gs) in
      let gs := addMove move (Board_clone b) gs in
      let gs := set_currentPlayer opponentColor gs in
      let c := set_gameState gs (writeBoard b c) in
      let c := storeValidator (updateCheckStatus (theValidator c)) c in
      let '((over, status), v) := checkGameEndConditions (theValidator c) in
      let c := storeValidator v c in
      let gs := set_gameStatus status (set_gameOver over (gameState c)) in
      let gs := updateResult gs in
      (true, set_gameState gs c)
  end.

(** One iteration of the replay loop of [rebuildBoardState]. *)
Definition replayMove (move : Move) (b : Board) (gs : GameState) : Board * GameState :=
  let '(fromRow, fromCol) := m_from move in
  let '(toRow, toCol) := m_to move in
  let piece := getPiece b fromRow fromCol in
  let gs := match m_capturedPiece move with
            | Some p => addCapturedPiece (Some p) gs
            | None => gs
            end in
  let '(b, gs) :=
    match m_enPassantCapture move with
    | Some (epRow, epCol) =>
        let capturedPawn := getPiece b epRow epCol in
        let b := snd (setPiece b epRow epCol None) in
        (b, addCapturedPiece capturedPawn gs)
    | None => (b, gs)
    end in
  let b :=
    match m_castling move with
    | Some side =>
        let row := fromRow in
        let rookFromCol := match side with kingside => 7 | queenside => 0 end in
        let rookToCol := match side with kingside => 5 | queenside => 3 end in
        let rook := getPiece b row rookFromCol in
        let b := snd (setPiece b row rookToCol rook) in
        snd (setPiece b row rookFromCol None)
    | None => b
    end in
  let b :=
    match m_promotedPiece move with
    | Some k =>
        let newPiece := createPiece k (m_player move) in
        let b := snd (setPiece b toRow toCol (Some newPiece)) in
        snd (setPiece b fromRow fromCol None)
    | None => snd (movePiece b fromRow fromCol toRow toCol)
    end in
  let gs := match piece with
            | Some p => if Kind_eqb (type p) king
                        then updateKingPosition (m_player move) toRow toCol gs else gs
            | None => gs
            end in
  let gs := set_castlingRights (m_castlingRights move) gs in
  let gs := set_enPassantTarget (m_enPassantTarget move) gs in
  (b, gs).

Fixpoint replayMoves (moves : list Move) (b : Board) (gs : GameState) : Board * GameState :=
  match moves with
  | [] => (b, gs)
  | move :: rest => let '(b, gs) := replayMove move b gs in replayMoves rest b gs
  end.

(** [rebuildBoardState]: the controller's board object is reset in place
    and the first [moveIndex] recorded moves are replayed on it. *)
Definition rebuildBoardState (moveIndex : Z) (c : Controller) : Controller :=
  let '(b, gs) :=
    replayMoves (take (Z.to_nat moveIndex) (moveHistory (gameState c)))
                createInitialBoard (gameState c) in
  set_gameState gs (writeBoard b c).

Definition goToMove (moveIndex : Z) (c : Controller) : Controller :=
  let gs := gameState c in
  if (moveIndex <? 0) || (Z.of_nat (length (moveHistory gs)) <? moveIndex) then c
  else
    let c :=
      if moveIndex <=? Z.of_nat (length (boardStates gs)) - 1 then
        match boardStates gs !! Z.to_nat moveIndex with
        | Some snapshot => rebindBoard (Board_clone snapshot) c
        | None => c   (* not reached: the index is below the length *)
        end
      else rebuildBoardState moveIndex c in
    let gs := set_currentMoveIndex moveIndex (gameState c) in
    let gs := set_currentPlayer (if Z.even moveIndex then white else black) gs in
    let c := set_gameState gs c in
    let c := storeValidator (updateCheckStatus (theValidator c)) c in
    if moveIndex =? Z.of_nat (length (moveHistory (gameState c))) then
      let '((over, status), v) := checkGameEndConditions (theValidator c) in
      let c := storeValidator v c in
      set_gameState (set_gameStatus status (set_gameOver over (gameState c))) c
    else
      set_gameState (set_gameStatus StatusNone (set_gameOver false (gameState c))) c.

Definition selectPiece (row col : Z) (c : Controller) : Controller :=
  match getPiece (liveBoard c) row col with
  | None => c
  | Some piece =>
      if negb (Color_eqb (color piece) (currentPlayer (gameState c))) then c
      else
        let c := set_selectedPiece (Some (row, col)) c in
        let '(moves, v) := calculateLegalMoves row col (theValidator c) in
        set_possibleMoves moves (storeValidator v c)
  end.

Definition promptPromotion (fromRow fromCol toRow toCol : Z) (c : Controller) : Controller :=
  let gs := set_promotionPending true (gameState c) in
  let gs := set_promotionMove (Some ((fromRow, fromCol), (toRow, toCol))) gs in
  set_gameState gs c.

(** [completePromotion]; destructuring a [null] promotion move raises, and
    the state is then left as it is. *)
Definition completePromotion (pieceType : Kind) (c : Controller) : Controller :=
  match promotionMove (gameState c) with
  | None => c
  | Some ((fromRow, fromCol), (toRow, toCol)) =>
      let c := snd (makeMove fromRow fromCol toRow toCol None (Some pieceType) c) in
      let gs := set_promotionPending false (gameState c) in
      set_gameState (set_promotionMove None gs) c
  end.

(** [possibleMoves.findIndex(m => m[0] === row && m[1] === col)] *)
Definition findMove (row col : Z) (moves : list MoveData) : option MoveData :=
  find (fun '(r, c, _) => (r =? row) && (c =? col)) moves.

Definition handleSquareClick (row col : Z) (c : Controller) : Controller :=
  let gs := gameState c in
  if gameOver gs || promotionPending gs then c
  else if currentMoveIndex gs <? Z.of_nat (length (moveHistory gs)) then
    clearSelection (goToMove (Z.of_nat (length (moveHistory gs))) c)
  else
    match selectedPiece c with
    | Some (selectedRow, selectedCol) =>
        match findMove row col (possibleMoves c) with
        | Some (_, _, special) =>
            let piece := getPiece (liveBoard c) selectedRow selectedCol in
            let promotes :=
              match piece with
              | Some p =>
                  Kind_eqb (type p) pawn
                  && ((Color_eqb (color p) white && (row =? 0))
                      || (Color_eqb (color p) black && (row =? 7)))
              | None => false
              end in
            let c := if promotes then promptPromotion selectedRow selectedCol row col c
                     else snd (makeMove selectedRow selectedCol row col special None c) in
            clearSelection c
        | None =>
            match getPiece (liveBoard c) row col with
            | Some clickedPiece =>
                if Color_eqb (color clickedPiece) (currentPlayer gs)
                then selectPiece row col c
                else clearSelection c
            | None => clearSelection c
            end
        end
    | None =>
        match getPiece (liveBoard c) row col with
        | Some piece =>
            if Color_eqb (color piece) (currentPlayer gs) then selectPiece row col c else c
        | None => c
        end
    end.

(** [resetGame] *)
Definition resetGame (c : Controller) : Controller :=
  let c := writeBoard createInitialBoard c in
  let gs := GameState_reset (gameState c) in
  let gs := set_boardStates [Board_clone (liveBoard c)] gs in
  clearSelection (set_gameState gs c).

(** [flipBoard]: the orientation is a field of the game state. *)
Definition flipBoard (c : Controller) : Controller :=
  let gs := gameState c in
  set_gameState (set_boardOrientation (opponent (boardOrientation gs)) gs) c.

(** [loadSavedGame], after the PGN has been loaded: the saved orientation
    is restored ([this.gameState.boardOrientation = savedGame.boardOrientation]). *)
Definition restoreOrientation (orientation : Color) (c : Controller) : Controller :=
  set_gameState (set_boardOrientation orientation (gameState c)) c.

(** ** PGNService.js: decoding one token of the movetext *)

(** The object returned by [parseAlgebraicNotation] and
    [parseCastlingMove]; a coordinate of [to] is [undefined] when the
    token names no file or rank of the board. *)
Record ParsedMove : Set := mkParsedMove {
  p_from : Square;
  p_to : option Z * option Z;
  p_pieceType : Kind;
  p_promotion : option Kind;
  p_capture : bool;
  p_castling : option Side
}.

Inductive Parse : Set :=
| Parsed (m : ParsedMove)
| Null                          (* an empty token *)
| PGNParseError.                (* thrown *)

(** The search loop: the first piece of the colour and kind that passes
    the source constraints is taken; its moves are not consulted. *)
Definition findPiece (t : San.Token) (c : Color) (b : Board) : option Square :=
  find (fun '(row, col) =>
          match getPiece b row col with
          | Some piece =>
              Color_eqb (color piece) c && Kind_eqb (type piece) (San.pieceType t)
              && San.matchesSource t row col
          | None => false
          end) allSquares.

Definition parseCastlingMove (isKingside : bool) (c : Color) : ParsedMove :=
  let row := match c with white => 7 | black => 0 end in
  let kingCol := 4 in
  let destCol := if isKingside then 6 else 2 in
  mkParsedMove (row, kingCol) (Some row, Some destCol) king None false
               (Some (if isKingside then kingside else queenside)).

Definition parseAlgebraicNotation (moveNotation : string) (c : Color) (b : Board)
    (gs : GameState) : Parse :=
  if String.eqb moveNotation "" then Null
  else if String.eqb moveNotation "O-O" then Parsed (parseCastlingMove true c)
  else if String.eqb moveNotation "O-O-O" then Parsed (parseCastlingMove false c)
  else
    match San.decode (San.chars moveNotation) with
    | San.TypeError => PGNParseError
    | San.Invalid => PGNParseError
    | San.Fields t =>
        match findPiece t c b with
        | Some from =>
            Parsed (mkParsedMove from (San.destRow t, San.destCol t) (San.pieceType t)
                                 (San.promotionPiece t) (San.capture t) None)
        | None => PGNParseError
        end
    end.

(** The body of the loop of [GameController.loadPGN] for one token whose
    destination is a square of the board:
    [makeMove(from[0], from[1], to[0], to[1], null, promotion)].  (For a
    token whose decoded destination lacks a coordinate the loader hands
    [undefined] to [makeMove]; integer coordinates do not cover that call,
    and this function is not to be used for such a token.) *)
Definition loadToken (moveNotation : string) (col : Color) (c : Controller) : Controller :=
  match parseAlgebraicNotation moveNotation col (liveBoard c) (gameState c) with
  | Parsed m =>
      match p_to m with
      | (Some toRow, Some toCol) =>
          snd (makeMove (fst (p_from m)) (snd (p_from m)) toRow toCol None (p_promotion m) c)
      | _ => c
      end
  | _ => c
  end.

(** The position as kinds and colours, without the [hasMoved] marks. *)
Definition placement (b : Board) : Grid (Kind * Color) :=
  map (map (fun x => match x with Some p => Some (type p, color p) | None => None end)) b.

End Layered.

(* ====================================================================== *)
(** * Attack patterns, as the specification words them

    A pawn attacks its two forward-diagonal squares; a knight the squares
    at its eight offsets; a king its eight neighbours; rook and queen
    attack along the four orthogonal rays, bishop and queen along the four
    diagonal rays, and a ray ends with the first occupied square.  This
    definition walks from the attacking piece to the square; it is what
    the two detectors of the source are compared with. *)
(* ====================================================================== *)

Module Rules.

Abbreviation Position := (Grid (Kind * Color)).

(** White pawns advance towards row 0, black pawns towards row 7. *)
Definition forward (c : Color) : Z := match c with white => -1 | black => 1 end.

Definition pawnAttacks (c : Color) (from target : Square) : bool :=
  (fst target =? fst from + forward c) && (Z.abs (snd target - snd from) =? 1).

Definition offsetAttacks (offsets : list (Z * Z)) (from target : Square) : bool :=
  existsb (fun '(dr, dc) => Square_eqb target (fst from + dr, snd from + dc)) offsets.

(** Along one ray from the piece: every square up to and including the
    first occupied one is attacked. *)
Fixpoint rayAttacks (fuel : nat) (pos : Position) (row col dr dc : Z) (target : Square)
  : bool :=
  match fuel with
  | O => false
  | S fuel =>
      isInBounds row col
      && (Square_eqb target (row, col)
          || (negb (is_Some_b (cell pos row col))
              && rayAttacks fuel pos (row + dr) (col + dc) dr dc target))
  end.

Definition raysAttack (pos : Position) (directions : list (Z * Z)) (from target : Square)
  : bool :=
  existsb (fun '(dr, dc) =>
             rayAttacks rayFuel pos (fst from + dr) (snd from + dc) dr dc target)
          directions.

Definition orthogonal : list (Z * Z) := [(0, 1); (1, 0); (0, -1); (-1, 0)].
Definition diagonal : list (Z * Z) := [(1, 1); (1, -1); (-1, 1); (-1, -1)].

(** Does the piece [(k, c)] standing on [from] attack [target]? *)
Definition attacks (pos : Position) (k : Kind) (c : Color) (from target : Square) : bool :=
  match k with
  | pawn => pawnAttacks c from target
  | knight => offsetAttacks knightOffsets from target
  | king => offsetAttacks kingOffsets from target
  | rook => raysAttack pos orthogonal from target
  | bishop => raysAttack pos diagonal from target
  | queen => raysAttack pos orthogonal from target || raysAttack pos diagonal from target
  end.

(** Is [target] attacked by some piece of the opponent of [defendingColor]? *)
Definition attacked (pos : Position) (target : Square) (defendingColor : Color) : bool :=
  isInBounds (fst target) (snd target)
  && existsb (fun from =>
                match cell pos (fst from) (snd from) with
                | Some (k, c) =>
                    Color_eqb c (opponent defendingColor) && attacks pos k c from target
                | None => false
                end) allSquares.

End Rules.

(* ====================================================================== *)
(** * Invariants and reachable states of the layered engine *)
(* ====================================================================== *)

(** The invariant of the history: one snapshot more than moves, and the
    viewed ply between 0 and the number of moves. *)
Definition history_inv (s : Layered.GameState) : Prop :=
  length (Layered.boardStates s) = S (length (Layered.moveHistory s))
  /\ 0 <= Layered.currentMoveIndex s <= Z.of_nat (length (Layered.moveHistory s)).

(** Two game states with the same history. *)
Definition same_history (s s' : Layered.GameState) : Prop :=
  Layered.moveHistory s' = Layered.moveHistory s
  /\ Layered.boardStates s' = Layered.boardStates s
  /\ Layered.currentMoveIndex s' = Layered.currentMoveIndex s.

(** What every operation of the controller keeps: the board objects and
    the snapshots are 8x8 grids, both board references point into the
    store, and the history satisfies its invariant. *)
Definition ctrl_inv (c : Layered.Controller) : Prop :=
  Forall wf_grid (Layered.heap c)
  /\ (Layered.board c < length (Layered.heap c))%nat
  /\ (Layered.validatorBoard c < length (Layered.heap c))%nat
  /\ Forall wf_grid (Layered.boardStates (Layered.gameState c))
  /\ history_inv (Layered.gameState c).

(** The states the engine can be in: it starts with [initialize] on the
    objects [main.js] constructs, and is driven by clicks on squares,
    navigation, the promotion dialog, "new game", the PGN loader (which
    calls [makeMove] with whatever its parser returns, so every call of
    [makeMove] is allowed here), the "flip board" button and the
    orientation that loading a saved game restores. *)
Inductive reachable : Layered.Controller -> Prop :=
| reach_initialize : reachable (Layered.initialize Layered.newController)
| reach_click c row col :
    reachable c -> reachable (Layered.handleSquareClick row col c)
| reach_goToMove c moveIndex :
    reachable c -> reachable (Layered.goToMove moveIndex c)
| reach_completePromotion c pieceType :
    reachable c -> reachable (Layered.completePromotion pieceType c)
| reach_resetGame c :
    reachable c -> reachable (Layered.resetGame c)
| reach_makeMove c fromRow fromCol toRow toCol specialMove promotionPiece :
    reachable c ->
    reachable (snd (Layered.makeMove fromRow fromCol toRow toCol specialMove promotionPiece c))
| reach_flipBoard c :
    reachable c -> reachable (Layered.flipBoard c)
| reach_restoreOrientation c orientation :
    reachable c -> reachable (Layered.restoreOrientation orientation c).

(** What the specification says of the history of a game state: the
    invariant, and what appending a move does (the moves and snapshots
    beyond the viewed ply are dropped, the new pair is pushed, and the
    viewed ply becomes the new number of moves). *)
Definition history_contract (s : Layered.GameState) : Prop :=
  length (Layered.boardStates s) = S (length (Layered.moveHistory s))
  /\ 0 <= Layered.currentMoveIndex s <= Z.of_nat (length (Layered.moveHistory s))
  /\ forall (move : Layered.Move) (snapshot : Layered.Board),
       let s' := Layered.addMove move snapshot s in
       Layered.moveHistory s'
         = take (Z.to_nat (Layered.currentMoveIndex s)) (Layered.moveHistory s) ++ [move]
       /\ Layered.boardStates s'
         = take (Z.to_nat (Layered.currentMoveIndex s + 1)) (Layered.boardStates s) ++ [snapshot]
       /\ Layered.currentMoveIndex s' = Z.of_nat (length (Layered.moveHistory s')).

(** The store, the two board references and the game state (which holds
    the history) are the same in two states of the controller; the
    selection may differ. *)
Definition same_position (c c' : Layered.Controller) : Prop :=
  Layered.heap c' = Layered.heap c
  /\ Layered.board c' = Layered.board c
  /\ Layered.validatorBoard c' = Layered.validatorBoard c
  /\ Layered.gameState c' = Layered.gameState c.

(** [makeMove] finds no piece to move: the source square is empty, and
    so is the selected square when there is a selection. *)
Definition nothingToMove (c : Layered.Controller) (row col : Z) : Prop :=
  Layered.getPiece (Layered.liveBoard c) row col = None
  /\ forall selectedRow selectedCol,
       Layered.selectedPiece c = Some (selectedRow, selectedCol) ->
       Layered.getPiece (Layered.liveBoard c) selectedRow selectedCol = None.

(** How a click that is no acceptable move request is treated, at the
    latest move of a running game: (a) with nothing selected, a click on an
    empty square or on a piece of the player not to move changes nothing;
    (b) with a piece selected, a click on a square that is not among the
    moves computed for it leaves board, game state and history as they
    are; (c) [makeMove] returns [false] exactly when it finds no piece to
    move, whatever the destination, the special-move mark and the
    promotion piece, and then it changes nothing; (d) the moves kept with
    a selection are the legal moves of the selected square. *)
Definition rejection_contract (c : Layered.Controller) (row col : Z) : Prop :=
  (Layered.selectedPiece c = None ->
   (forall p, Layered.getPiece (Layered.liveBoard c) row col = Some p ->
              Layered.color p <> Layered.currentPlayer (Layered.gameState c)) ->
   Layered.handleSquareClick row col c = c)
  /\ (forall sel, Layered.selectedPiece c = Some sel ->
        Layered.findMove row col (Layered.possibleMoves c) = None ->
        same_position c (Layered.handleSquareClick row col c))
  /\ (forall toRow toCol specialMove promotionPiece,
        (fst (Layered.makeMove row col toRow toCol specialMove promotionPiece c) = false
         <-> nothingToMove c row col)
        /\ (nothingToMove c row col ->
            Layered.makeMove row col toRow toCol specialMove promotionPiece c = (false, c)))
  /\ (forall p, Layered.getPiece (Layered.liveBoard c) row col = Some p ->
        Layered.color p = Layered.currentPlayer (Layered.gameState c) ->
        Layered.selectedPiece (Layered.selectPiece row col c) = Some (row, col)
        /\ Layered.possibleMoves (Layered.selectPiece row col c)
           = fst (Layered.calculateLegalMoves row col (Layered.theValidator c))).

(** The directions of the rays: one step along a row, a column or a
    diagonal. *)
Definition unitDirection (dr dc : Z) : Prop :=
  (dr = -1 \/ dr = 0 \/ dr = 1) /\ (dc = -1 \/ dc = 0 \/ dc = 1) /\ (dr <> 0 \/ dc <> 0).

(** How many squares of the board a ray visits from [(r, c)] on. *)
Definition stepsToEdge (r c dr dc : Z) : Z :=
  Z.min (if dr =? 1 then 8 - r else if dr =? -1 then r + 1 else 8)
        (if dc =? 1 then 8 - c else if dc =? -1 then c + 1 else 8).

(* ====================================================================== *)
(** * Games played on the two engines

    A game is given by the squares clicked, in order; each engine takes
    the clicks through its own click handler. *)
(* ====================================================================== *)

Definition Layered_start : Layered.Controller := Layered.initialize Layered.newController.

Definition Layered_clicks (squares : list Square) (c : Layered.Controller)
  : Layered.Controller :=
  fold_left (fun c '(row, col) => Layered.handleSquareClick row col c) squares c.

Definition Mono_clicks (squares : list Square) (g : Mono.Game) : Mono.Game :=
  fold_left (fun g '(row, col) => Mono.onSquareClick row col g) squares g.

(** The live position of the layered engine, as the rules see it. *)
Definition Layered_position (c : Layered.Controller) : Rules.Position :=
  Layered.placement (Layered.liveBoard c).

(** 1. e4 d5 2. Ke2 d4 on the monolithic engine: the black pawn on d4
    attacks c3 and e3, and it is White's move. *)
Definition Mono_pawn_on_d4 : Mono.Game :=
  Mono_clicks [(6, 4); (4, 4); (1, 3); (3, 3); (7, 4); (6, 4); (3, 3); (4, 3)] Mono.newGame.

(** 1. e4 f6 on the layered engine, then "last move" is pressed (a
    navigation to the ply that is already shown), then 2. Qh5+. *)
Definition Layered_check_after_navigation : Layered.Controller :=
  Layered_clicks [(7, 3); (3, 7)]
    (Layered.goToMove 2
       (Layered_clicks [(6, 4); (4, 4); (1, 5); (2, 5)] Layered_start)).

(** 1. e4 b6 2. g3 Ba6 3. Bg2 Nc6 4. Nf3 Nf6 on the layered engine: f1 and
    g1 are empty, and the bishop on a6 attacks f1. *)
Definition Layered_bishop_eyes_f1 : Layered.Controller :=
  Layered_clicks [(6, 4); (4, 4); (1, 1); (2, 1); (6, 6); (5, 6); (0, 2); (2, 0);
                  (7, 5); (6, 6); (0, 1); (2, 2); (7, 6); (5, 5); (0, 6); (2, 5)]
                 Layered_start.

(** 1. Nf3 a6 2. Ng5 a5 3. Nxf7 a4: the knight on f7 attacks the rook that
    has never left h8. *)
Definition knight_to_f7 : list Square :=
  [(7, 6); (5, 5); (1, 0); (2, 0); (5, 5); (3, 6); (2, 0); (3, 0);
   (3, 6); (1, 5); (3, 0); (4, 0)].

(** A board with a single black pawn, on d5. *)
Definition lone_pawn_on_d5 : Rules.Position :=
  put (replicate 8 (replicate 8 None)) 3 3 (Some (pawn, black)).

Definition Layered_lone_pawn_on_d5 : Layered.Board :=
  put Layered.createEmptyGrid 3 3 (Some (Layered.createPiece pawn black)).

(* ====================================================================== *)
(** * Vocabulary of the statements about castling and the PGN search *)
(* ====================================================================== *)

(** The square a rook starts on. *)
Definition corner (owner : Color) (side : Side) : Square :=
  match owner, side with
  | white, kingside => (7, 7)
  | white, queenside => (7, 0)
  | black, kingside => (0, 7)
  | black, queenside => (0, 0)
  end.

(** The square a king starts on. *)
Definition kingHome (c : Color) : Square :=
  match c with white => (7, 4) | black => (0, 4) end.

Definition granted (r : CastlingRights) (side : Side) : bool :=
  match side with kingside => kingSide r | queenside => queenSide r end.

(** Where a castling king lands, the columns strictly between king and
    rook, and the columns the king stands on, passes and lands on. *)
Definition castlingTarget (col : Z) (side : Side) : Z :=
  match side with kingside => col + 2 | queenside => col - 2 end.

Definition castlingBetween (col : Z) (side : Side) : list Z :=
  match side with
  | kingside => [col + 1; col + 2]
  | queenside => [col - 1; col - 2; col - 3]
  end.

Definition castlingPath (col : Z) (side : Side) : list Z :=
  match side with
  | kingside => [col; col + 1; col + 2]
  | queenside => [col; col - 1; col - 2]
  end.

(** The test the search loop of pgn.js makes on a square: a piece of the
    moving colour and of the wanted kind stands there, the square passes
    the source constraints of the token, and the destination is among
    the legal moves of the square. *)
Definition Mono_qualifies (t : San.Token) (color : Color) (g : Mono.Game) (sq : Square)
  : bool :=
  let '(row, col) := sq in
  match cell (Mono.board g) row col with
  | Some piece =>
      Mono.endsWith piece color && Mono.startsWith piece (San.pieceType t)
      && San.matchesSource t row col
      && Mono.canMoveTo (fst (Mono.calculateLegalMoves row col g))
                        (San.destRow t) (San.destCol t)
  | None => false
  end.

(** 1. e4 e5 2. Nf3 Nc6 3. Bc4 Bc5: White may castle kingside. *)
Definition italian_opening : list Square :=
  [(6, 4); (4, 4); (1, 4); (3, 4); (7, 6); (5, 5); (0, 1); (2, 2);
   (7, 5); (4, 2); (0, 5); (3, 2)].

(** 1. f3 e5 2. g4 Qh4#. *)
Definition fools_mate : list Square :=
  [(6, 5); (5, 5); (1, 4); (3, 4); (6, 6); (4, 6); (0, 3); (4, 7)].

(** A square of the board, and the square a candidate of the layered
    engine leads to. *)
Definition onBoard (sq : Square) : Prop := isInBounds (fst sq) (snd sq) = true.

Definition destination (m : Layered.MoveData) : Square := fst m.

(** White king a1, Black king a3, Black queen b4, Black to move; the
    queen goes to b3. *)
Definition before_stalemate : Rules.Position :=
  put (put (put (replicate 8 (replicate 8 None)) 7 0 (Some (king, white)))
           5 0 (Some (king, black)))
      4 1 (Some (queen, black)).

Definition noRights : ByColor CastlingRights :=
  mkByColor (mkRights false false) (mkRights false false).

Definition Mono_before_stalemate : Mono.Game :=
  Mono.set_castlingRights noRights
    (Mono.set_currentPlayer black
       (Mono.set_kingPositions (mkByColor (7, 0) (5, 0))
          (Mono.set_boardStates [before_stalemate]
             (Mono.set_board before_stalemate Mono.newGame)))).

Definition Layered_before_stalemate_board : Layered.Board :=
  put (put (put Layered.createEmptyGrid 7 0 (Some (Layered.mkPiece king white true)))
           5 0 (Some (Layered.mkPiece king black true)))
      4 1 (Some (Layered.mkPiece queen black true)).

Definition Layered_before_stalemate : Layered.Controller :=
  Layered.mkController [Layered_before_stalemate_board] 0%nat 0%nat
    (Layered.set_castlingRights noRights
       (Layered.set_currentPlayer black
          (Layered.set_kingPositions (mkByColor (7, 0) (5, 0))
             (Layered.set_boardStates [Layered_before_stalemate_board]
                Layered.newGameState))))
    None [].

(** A candidate passes the simulation: played on the position, it leaves
    the mover's king on a square the engine's detector does not report. *)
Definition Mono_safe (row col : Z) (piece : Mono.Piece) (g : Mono.Game) (sq : Square) : bool :=
  fst (Mono.tryMove row col piece (snd piece) (fst sq) (snd sq) g).

Definition Layered_safe (row col : Z) (v : Layered.Validator) (m : Layered.MoveData) : bool :=
  match fst (Layered.simulateMove row col (fst (fst m)) (snd (fst m)) (snd m) v) with
  | Returned true => true
  | _ => false
  end.

(** Castling rights are only ever taken away: a right that is revoked
    before is revoked after. *)
Definition neverRegranted (before after : ByColor CastlingRights) : Prop :=
  forall c side, granted (at_color before c) side = false ->
                 granted (at_color after c) side = false.

(* ====================================================================== *)
(** * Notation, results and the rest of the monolithic class *)
(* ====================================================================== *)

(** ** NotationView.js: the text of a move *)

Module NotationView.

Local Open Scope string_scope.

(** [FILES] and [RANKS] of Constants.js (the same arrays are local to
    [addMoveToHistory] of the monolithic class). *)
Definition files : list string := ["a"; "b"; "c"; "d"; "e"; "f"; "g"; "h"]%list.
Definition ranks : list string := ["8"; "7"; "6"; "5"; "4"; "3"; "2"; "1"]%list.

(** [arr[i]] inside a string concatenation: outside the array the value
    is [undefined], which concatenates as the text ["undefined"]. *)
Definition at_ (arr : list string) (i : Z) : string :=
  if (0 <=? i)%Z then
    match arr !! Z.to_nat i with
    | Some s => s
    | None => "undefined"
    end
  else "undefined".

(** [type[0].toUpperCase()], with [N] for the knight. *)
Definition initial (k : Kind) : string :=
  match k with
  | pawn => "P" | knight => "N" | bishop => "B"
  | rook => "R" | queen => "Q" | king => "K"
  end.

(** The prefix of a move: no letter for a pawn. *)
Definition pieceLetter (k : Kind) : string :=
  match k with pawn => "" | _ => initial k end.

(** The part of the notation that both engines build with the same
    statements: the capture or the plain move. *)
Definition moveText (pieceType : string) (fromCol toRow toCol : Z) (isCapture : bool)
  : string :=
  if isCapture then
    if String.eqb pieceType ""
    then at_ files fromCol ++ "x" ++ at_ files toCol ++ at_ ranks toRow
    else pieceType ++ "x" ++ at_ files toCol ++ at_ ranks toRow
  else pieceType ++ at_ files toCol ++ at_ ranks toRow.

(** [NotationView.generateNotation]; its [board] argument is not used. *)
Definition generateNotation (piece : Layered.Piece) (from to : Square)
    (isCapture : bool) (specialMove : option Layered.SpecialMove)
    (promotionPiece : option Kind) (isCheck isCheckmate : bool) : string :=
  let '(fromRow, fromCol) := from in
  let '(toRow, toCol) := to in
  let pieceType := pieceLetter (Layered.type piece) in
  let notation :=
    if Layered.isCastle specialMove then
      match specialMove with
      | Some Layered.CASTLE_KINGSIDE => "O-O"
      | _ => "O-O-O"
      end
    else
      let notation := moveText pieceType fromCol toRow toCol isCapture in
      match promotionPiece with
      | Some k => notation ++ "=" ++ initial k
      | None => notation
      end in
  if isCheckmate then notation ++ "#"
  else if isCheck then notation ++ "+"
  else notation.

(** The notation [GameController.makeMove] stores in the move record and
    hands to the notation table.  It is generated after the move has been
    played on the board and before the player is switched and the check
    flags are recomputed, so the flags it reads are those of the state
    before the move.  [None] when [makeMove] finds no piece to move. *)
Definition notationOfMove (fromRow fromCol toRow toCol : Z)
    (specialMove : option Layered.SpecialMove) (promotionPiece : option Kind)
    (c : Layered.Controller) : option string :=
  let '(fromRow, fromCol) :=
    match Layered.getPiece (Layered.liveBoard c) fromRow fromCol, Layered.selectedPiece c with
    | None, Some sel => sel
    | _, _ => (fromRow, fromCol)
    end in
  match Layered.getPiece (Layered.liveBoard c) fromRow fromCol with
  | None => None
  | Some piece =>
      let gs := Layered.set_enPassantTarget None (Layered.gameState c) in
      let '(_, gs, capturedPiece, _, _, _) :=
        Layered.playOnBoard (Layered.liveBoard c) gs piece fromRow fromCol toRow toCol
                            specialMove promotionPiece in
      let isCheck :=
        at_color (Layered.isInCheck gs) (Layered.getOpponentColor gs) in
      Some (generateNotation piece (fromRow, fromCol) (toRow, toCol)
              (is_Some_b capturedPiece) specialMove promotionPiece
              isCheck (Layered.gameOver gs && isCheck))
  end.

End NotationView.

(** ** The result token of a PGN document *)

Module PGNService.

(** [getPGNResult(gameStatus, currentPlayer)], the same function in
    PGNService.js and in pgn.js; the result strings are those of
    [RESULTS]. *)
Definition getPGNResult (gameStatus : Status) (currentPlayer : Color) : Layered.Result :=
  let includesCheckmate :=
    match gameStatus with StatusCheckmate _ => true | _ => false end in
  let includesStalemate :=
    match gameStatus with StatusStalemate => true | _ => false end in
  let gameOver := includesCheckmate || includesStalemate in
  if negb gameOver then Layered.IN_PROGRESS
  else if includesCheckmate then
    match currentPlayer with
    | white => Layered.BLACK_WIN
    | black => Layered.WHITE_WIN
    end
  else if includesStalemate then Layered.DRAW
  else Layered.IN_PROGRESS.

End PGNService.

(** ** More of the monolithic class *)

Module ChessGame.

Local Open Scope string_scope.

(** [resetGame]: the fields it assigns; the board orientation and the two
    promotion fields are not among them. *)
Definition resetGame (g : Mono.Game) : Mono.Game :=
  Mono.mkGame Mono.createInitialBoard white None [] [] (mkByColor [] [])
    (Mono.boardOrientation g) 0 [Mono.deepCopyBoard Mono.createInitialBoard]
    (mkByColor (7, 4) (0, 4)) (mkByColor false false) false StatusNone allRights None
    (Mono.promotionPending g) (Mono.promotionMove g).

Definition flipBoard (g : Mono.Game) : Mono.Game :=
  Mono.set_boardOrientation (opponent (Mono.boardOrientation g)) g.

(** The text [addMoveToHistory] writes into the notation table, from its
    arguments and from the state it finds ([gameStatus], [isInCheck]). *)
Definition notation (fromCol toRow toCol : Z) (piece : Mono.Piece)
    (capturedPiece : option Mono.Piece) (specialMove : Mono.SpecialMove)
    (g : Mono.Game) : string :=
  let pieceType := NotationView.pieceLetter (fst piece) in
  let notation :=
    match specialMove with
    | Mono.Castling kingside => "O-O"
    | Mono.Castling queenside => "O-O-O"
    | _ =>
        let isCapture :=
          is_Some_b capturedPiece
          || match specialMove with Mono.EnPassant => true | _ => false end in
        let notation := NotationView.moveText pieceType fromCol toRow toCol isCapture in
        match specialMove with
        | Mono.Promotion => notation ++ "=" ++ NotationView.initial (fst piece)
        | _ => notation
        end
    end in
  match Mono.gameStatus g with
  | StatusCheckmate _ => notation ++ "#"
  | _ => if of_white (Mono.isInCheck g) || of_black (Mono.isInCheck g)
         then notation ++ "+" else notation
  end.

(** The call of [addMoveToHistory] at the end of [makeMove]: the state is
    the one after the move.  [None] when [makeMove] raises. *)
Definition notationOfMove (fromRow fromCol toRow toCol : Z)
    (promotionPiece : option Kind) (g : Mono.Game) : option string :=
  match cell (Mono.board g) fromRow fromCol with
  | None => None
  | Some piece =>
      let capturedPiece := cell (Mono.board g) toRow toCol in
      Some (notation fromCol toRow toCol piece capturedPiece
              (Mono.specialMoveOf piece fromCol toRow toCol capturedPiece promotionPiece)
              (Mono.makeMove fromRow fromCol toRow toCol promotionPiece g))
  end.

End ChessGame.

(** ** Vocabulary of the statements about notation *)

(** What [San.decode] makes of a text: the kind, the capture flag, the
    source file, the destination row and column as the search loop will
    use them (either may be undefined), and the promotion piece; no
    source rank. *)
Definition decodesTo (s : string) (k : Kind) (isCapture : bool) (source : option ascii)
    (row col : option Z) (promotion : option Kind) : Prop :=
  exists t,
    San.decode (San.chars s) = San.Fields t
    /\ San.pieceType t = k
    /\ San.capture t = isCapture
    /\ San.sourceFile t = source
    /\ San.sourceRank t = None
    /\ San.destRow t = row
    /\ San.destCol t = col
    /\ San.promotionPiece t = promotion.

(** The same test as a computation. *)
Definition decodesTo_b (s : string) (k : Kind) (isCapture : bool) (source : option ascii)
    (row col : option Z) (promotion : option Kind) : bool :=
  match San.decode (San.chars s) with
  | San.Fields t =>
      Kind_eqb (San.pieceType t) k
      && Bool.eqb (San.capture t) isCapture
      && match San.sourceFile t, source with
         | Some a, Some b => Ascii.eqb a b
         | None, None => true
         | _, _ => false
         end
      && negb (is_Some_b (San.sourceRank t))
      && match San.destRow t, row with
         | Some a, Some b => a =? b
         | None, None => true
         | _, _ => false
         end
      && match San.destCol t, col with
         | Some a, Some b => a =? b
         | None, None => true
         | _, _ => false
         end
      && match San.promotionPiece t, promotion with
         | Some a, Some b => Kind_eqb a b
         | None, None => true
         | _, _ => false
         end
  | _ => false
  end.

(** What the decoders make of a promotion letter: rook, bishop and
    knight are read back, everything else is a queen. *)
Definition readPromotion (k : Kind) : Kind :=
  match k with
  | rook => rook | bishop => bishop | knight => knight
  | _ => queen
  end.

(** The letter of a file, as a character. *)
Definition fileChar (col : Z) : ascii := ascii_of_nat (97 + Z.to_nat col).

Definition allKinds : list Kind := [pawn; knight; bishop; rook; queen; king].
Definition allPromotions : list (option Kind) := None :: map Some allKinds.
Definition allMarks : list (bool * bool) :=
  [(false, false); (true, false); (false, true); (true, true)].

(** ** The states of the monolithic engine

    A game starts with the constructor and is driven by the listeners of
    [setupEventListeners] (clicks on squares, the navigation buttons and
    the notation rows, the promotion dialog, "new game", "flip board") and
    by the PGN loader, which hands every token to
    [processAlgebraicNotation]. *)
Inductive Mono_reachable : Mono.Game -> Prop :=
| mono_constructor : Mono_reachable Mono.newGame
| mono_click g row col :
    Mono_reachable g -> Mono_reachable (Mono.onSquareClick row col g)
| mono_goToMove g moveIndex :
    Mono_reachable g -> Mono_reachable (Mono.goToMove moveIndex g)
| mono_completePromotion g pieceType :
    Mono_reachable g -> Mono_reachable (Mono.completePromotion pieceType g)
| mono_resetGame g :
    Mono_reachable g -> Mono_reachable (ChessGame.resetGame g)
| mono_flipBoard g :
    Mono_reachable g -> Mono_reachable (ChessGame.flipBoard g)
| mono_token g moveNotation :
    Mono_reachable g ->
    Mono_reachable (snd (Mono.processAlgebraicNotation moveNotation g)).

(** The history of the monolithic engine: one snapshot more than moves,
    the viewed ply between 0 and the number of moves. *)
Definition Mono_history_inv (g : Mono.Game) : Prop :=
  length (Mono.boardStates g) = S (length (Mono.moveHistory g))
  /\ 0 <= Mono.currentMoveIndex g <= Z.of_nat (length (Mono.moveHistory g)).

(** Two states of the monolithic engine with the same recorded moves and
    snapshots. *)
Definition same_log (g g' : Mono.Game) : Prop :=
  Mono.moveHistory g' = Mono.moveHistory g /\ Mono.boardStates g' = Mono.boardStates g.

(** The calls on which [makeMove] of the monolithic class stays on the
    8x8 board: the destination is a square of the board, and so is the
    square of the pawn taken when the move is an en-passant capture (a
    pawn that changes column onto an empty square). *)
Definition Mono_onBoard (g : Mono.Game) (piece : Mono.Piece) (fromCol toRow toCol : Z)
  : bool :=
  isInBounds toRow toCol
  && (negb (Mono.isEnPassantCapture piece fromCol toCol (cell (Mono.board g) toRow toCol))
      || isInBounds (Mono.enPassantRowOf (snd piece) toRow) toCol).

(** The square a pawn passes over when it advances two rows. *)
Definition doubleStepTarget (k : Kind) (c : Color) (fromRow toRow toCol : Z)
  : option Square :=
  if Kind_eqb k pawn && (Z.abs (fromRow - toRow) =? 2)
  then Some (match c with white => toRow + 1 | black => toRow - 1 end, toCol)
  else None.

(** 1. a4 b5 2. axb5 a6 3. bxa6 Bb7 4. axb7 Nc6, and then the clicks on b7
    and a8: the pawn is about to take the rook on a8, and the promotion
    dialog is open. *)
Definition promotion_clicks : list Square :=
  [(6, 0); (4, 0); (1, 1); (3, 1); (4, 0); (3, 1); (1, 0); (2, 0); (3, 1); (2, 0);
   (0, 2); (1, 1); (2, 0); (1, 1); (0, 1); (2, 2); (1, 1); (0, 0)].

Definition Layered_promotion_pending : Layered.Controller :=
  Layered_clicks promotion_clicks Layered_start.

Definition Mono_promotion_pending : Mono.Game :=
  Mono_clicks promotion_clicks Mono.newGame.

(** The rank on which a pawn of the colour promotes. *)
Definition lastRank (c : Color) : Z := match c with white => 0 | black => 7 end.

(** The controller's board is no longer the object the validator
    examines. *)
Definition detached (c : Layered.Controller) : Prop :=
  Layered.board c <> Layered.validatorBoard c.

(** One operation of the layered controller. *)
Inductive Layered_step (c : Layered.Controller) : Layered.Controller -> Prop :=
| step_click row col : Layered_step c (Layered.handleSquareClick row col c)
| step_goToMove moveIndex : Layered_step c (Layered.goToMove moveIndex c)
| step_completePromotion pieceType : Layered_step c (Layered.completePromotion pieceType c)
| step_resetGame : Layered_step c (Layered.resetGame c)
| step_makeMove fromRow fromCol toRow toCol specialMove promotionPiece :
    Layered_step c
      (snd (Layered.makeMove fromRow fromCol toRow toCol specialMove promotionPiece c))
| step_flipBoard : Layered_step c (Layered.flipBoard c)
| step_restoreOrientation orientation :
    Layered_step c (Layered.restoreOrientation orientation c).

(** What an operation does to the store of board objects: nothing, a
    write into the controller's board, or a new object for the controller
    to refer to.  The validator's reference is the same in all three. *)
Inductive store_change (c c' : Layered.Controller) : Prop :=
| store_same :
    Layered.heap c' = Layered.heap c -> Layered.board c' = Layered.board c ->
    Layered.validatorBoard c' = Layered.validatorBoard c -> store_change c c'
| store_write b :
    Layered.heap c' = <[Layered.board c := b]> (Layered.heap c) ->
    Layered.board c' = Layered.board c ->
    Layered.validatorBoard c' = Layered.validatorBoard c -> store_change c c'
| store_rebind b :
    Layered.heap c' = Layered.heap c ++ [b] ->
    Layered.board c' = length (Layered.heap c) ->
    Layered.validatorBoard c' = Layered.validatorBoard c -> store_change c c'.
(* ====================================================================== *)
(** * Facts about the grid *)
(* ====================================================================== *)

Lemma Color_eqb_eq a b : Color_eqb a b = true <-> a = b.
Proof. destruct a, b; simpl; split; congruence. Qed.

Lemma Kind_eqb_eq a b : Kind_eqb a b = true <-> a = b.
Proof. destruct a, b; simpl; split; congruence. Qed.

Lemma Color_eqb_refl a : Color_eqb a a = true.
Proof. now destruct a. Qed.

Lemma Kind_eqb_refl a : Kind_eqb a a = true.
Proof. now destruct a. Qed.

Lemma Square_eqb_eq a b : Square_eqb a b = true <-> a = b.
Proof.
  destruct a as [r c], b as [r' c']; unfold Square_eqb; simpl.
  rewrite andb_true_iff, !Z.eqb_eq. split; [intros []|intros [=]]; subst; auto.
Qed.

Lemma at_set_color {A} (o : ByColor A) c c' v :
  at_color (set_color o c v) c' = if Color_eqb c c' then v else at_color o c'.
Proof. now destruct c, c'. Qed.

Section GridFacts.
Context {A : Type}.

Lemma isInBounds_spec row col :
  isInBounds row col = true <-> 0 <= row < 8 /\ 0 <= col < 8.
Proof. unfold isInBounds, BOARD_SIZE. lia. Qed.

Lemma isInBounds_false row col :
  isInBounds row col = false <-> row < 0 \/ 7 < row \/ col < 0 \/ 7 < col.
Proof.
  destruct (isInBounds row col) eqn:E.
  - apply isInBounds_spec in E. split; [discriminate|lia].
  - split; auto. intros _.
    destruct (Z_lt_dec row 0); auto. destruct (Z_lt_dec 7 row); auto.
    destruct (Z_lt_dec col 0); auto. destruct (Z_lt_dec 7 col); auto.
    assert (isInBounds row col = true) by (apply isInBounds_spec; lia).
    congruence.
Qed.

Lemma cell_out (g : Grid A) row col : isInBounds row col = false -> cell g row col = None.
Proof. unfold cell. now intros ->. Qed.

Lemma cell_Some_in (g : Grid A) row col x : cell g row col = Some x -> isInBounds row col = true.
Proof. unfold cell. destruct (isInBounds row col); [auto|discriminate]. Qed.

Lemma wf_put (g : Grid A) row col v : wf_grid g -> wf_grid (put g row col v).
Proof.
  intros [Hl Hr]. unfold put. destruct (isInBounds row col); [|now split].
  split.
  - now rewrite length_alter.
  - apply Forall_lookup_2. intros i r Hi.
    destruct (decide (Z.to_nat row = i)) as [<-|Hne].
    + rewrite list_lookup_alter_eq in Hi.
      destruct (g !! Z.to_nat row) as [r0|] eqn:E; simpl in Hi; [|discriminate].
      injection Hi as <-. rewrite length_insert.
      eapply (Forall_lookup_1 _ _ _ _ Hr E).
    + rewrite list_lookup_alter_ne in Hi by assumption.
      eapply (Forall_lookup_1 _ _ _ _ Hr Hi).
Qed.

Lemma cell_put_eq (g : Grid A) row col v :
  wf_grid g -> isInBounds row col = true -> cell (put g row col v) row col = v.
Proof.
  intros [Hl Hr] Hb. unfold cell, put. rewrite Hb.
  apply isInBounds_spec in Hb.
  rewrite list_lookup_alter_eq.
  destruct (g !! Z.to_nat row) as [r0|] eqn:E; simpl.
  - rewrite list_lookup_insert_eq; [reflexivity|].
    rewrite (Forall_lookup_1 _ _ _ _ Hr E). lia.
  - apply lookup_ge_None_1 in E. lia.
Qed.

Lemma cell_put_ne (g : Grid A) row col v row' col' :
  (row, col) <> (row', col') -> cell (put g row col v) row' col' = cell g row' col'.
Proof.
  intros Hne. unfold cell, put.
  destruct (isInBounds row' col') eqn:Hb'; [|reflexivity].
  destruct (isInBounds row col) eqn:Hb; [|reflexivity].
  apply isInBounds_spec in Hb, Hb'.
  destruct (decide (Z.to_nat row = Z.to_nat row')) as [Er|Er].
  - rewrite <- Er, list_lookup_alter_eq.
    destruct (g !! Z.to_nat row) as [r0|]; simpl; [|reflexivity].
    rewrite list_lookup_insert_ne; [reflexivity|].
    intros Ec. apply Hne. f_equal; lia.
  - now rewrite list_lookup_alter_ne.
Qed.

Lemma cell_put (g : Grid A) row col v row' col' :
  wf_grid g -> isInBounds row col = true ->
  cell (put g row col v) row' col' =
    if Square_eqb (row, col) (row', col') then v else cell g row' col'.
Proof.
  intros Hw Hb. destruct (Square_eqb (row, col) (row', col')) eqn:E.
  - apply Square_eqb_eq in E. injection E as <- <-. now apply cell_put_eq.
  - apply cell_put_ne. intros Heq. rewrite Heq in E.
    assert (Square_eqb (row', col') (row', col') = true) by now apply Square_eqb_eq.
    congruence.
Qed.

Lemma put_out (g : Grid A) row col v : isInBounds row col = false -> put g row col v = g.
Proof. unfold put. now intros ->. Qed.

(** Two well-formed grids with the same cells are the same grid. *)
Lemma grid_ext (g g' : Grid A) :
  wf_grid g -> wf_grid g' ->
  (forall row col, isInBounds row col = true -> cell g row col = cell g' row col) ->
  g = g'.
Proof.
  intros [Hl Hr] [Hl' Hr'] Hc. apply list_eq. intros i.
  destruct (decide (i < 8)%nat) as [Hi|Hi].
  2:{ rewrite !lookup_ge_None_2 by lia. reflexivity. }
  destruct (lookup_lt_is_Some_2 g i) as [r E]; [lia|].
  destruct (lookup_lt_is_Some_2 g' i) as [r' E']; [lia|].
  rewrite E, E'. f_equal. apply list_eq. intros j.
  pose proof (Forall_lookup_1 _ _ _ _ Hr E) as Lr.
  pose proof (Forall_lookup_1 _ _ _ _ Hr' E') as Lr'.
  cbv beta in Lr, Lr'.
  destruct (decide (j < 8)%nat) as [Hj|Hj].
  2:{ rewrite !lookup_ge_None_2 by lia. reflexivity. }
  destruct (lookup_lt_is_Some_2 r j) as [x Ex]; [lia|].
  destruct (lookup_lt_is_Some_2 r' j) as [x' Ex']; [lia|].
  specialize (Hc (Z.of_nat i) (Z.of_nat j)).
  unfold cell in Hc. rewrite !Nat2Z.id, E, E', Ex, Ex' in Hc.
  assert (Hb : isInBounds (Z.of_nat i) (Z.of_nat j) = true)
    by (apply isInBounds_spec; lia).
  rewrite Hb in Hc. rewrite Ex, Ex'. f_equal. now apply Hc.
Qed.
End GridFacts.

(* ====================================================================== *)
(** * The legality filter leaves no trace *)
(* ====================================================================== *)

Lemma set_color_restore {A} (o : ByColor A) c v :
  set_color (set_color o c v) c (at_color o c) = o.
Proof. destruct o, c; reflexivity. Qed.

Section MonoFrame.
Import Mono.

Lemma deepCopyBoard_id b : deepCopyBoard b = b.
Proof. unfold deepCopyBoard. apply map_id. Qed.

(** One simulated candidate: whatever was written is taken back. *)
Lemma Mono_tryMove_restores row col piece color toRow toCol g :
  snd (tryMove row col piece color toRow toCol g) = g.
Proof.
  unfold tryMove. rewrite !deepCopyBoard_id. cbv zeta. cbn [snd].
  destruct (startsWith piece king).
  - destruct (startsWith piece pawn && negb (col =? toCol) && _);
      destruct (1 <? Z.abs (col - toCol));
      destruct g;
      cbv [set_board set_kingPositions board kingPositions currentPlayer
           selectedPiece possibleMoves moveHistory capturedPieces
           boardOrientation currentMoveIndex boardStates isInCheck gameOver
           gameStatus castlingRights enPassantTarget promotionPending
           promotionMove];
      now rewrite set_color_restore.
  - destruct (startsWith piece pawn && negb (col =? toCol) && _);
      destruct g; reflexivity.
Qed.

Lemma Mono_filterLegal_restores row col piece color moves g :
  snd (filterLegal row col piece color moves g) = g.
Proof.
  induction moves as [|[toRow toCol] rest IH]; [reflexivity|].
  cbn [filterLegal].
  pose proof (Mono_tryMove_restores row col piece color toRow toCol g) as H.
  destruct (tryMove row col piece color toRow toCol g) as [ok g1]. cbn in H. subst g1.
  destruct (filterLegal row col piece color rest g) as [l g2]. cbn in IH. now subst g2.
Qed.

Lemma Mono_calculateLegalMoves_restores row col g :
  snd (calculateLegalMoves row col g) = g.
Proof.
  unfold calculateLegalMoves. destruct (cell (board g) row col); [|reflexivity].
  apply Mono_filterLegal_restores.
Qed.

Lemma Mono_anyLegal_restores color squares g : snd (anyLegal color squares g) = g.
Proof.
  induction squares as [|[row col] rest IH]; [reflexivity|].
  cbn [anyLegal]. destruct (cell (board g) row col) as [piece|]; [|exact IH].
  destruct (endsWith piece color); [|exact IH].
  pose proof (Mono_calculateLegalMoves_restores row col g) as H.
  destruct (calculateLegalMoves row col g) as [l g1]. cbn in H. subst g1.
  destruct (0 <? Z.of_nat (length l)); [reflexivity|exact IH].
Qed.

End MonoFrame.

Section LayeredFrame.
Import Layered.

Lemma Piece_clone_id p : Piece_clone p = p.
Proof. now destruct p. Qed.

Lemma Board_clone_id b : Board_clone b = b.
Proof.
  unfold Board_clone. rewrite <- (map_id b) at 2. apply map_ext. intros r.
  rewrite <- (map_id r) at 2. apply map_ext. intros [p|]; [|reflexivity].
  now rewrite Piece_clone_id.
Qed.

Lemma getPiece_cell b row col : getPiece b row col = cell b row col.
Proof.
  unfold getPiece. destruct (isInBounds row col) eqn:E; cbn; [reflexivity|].
  symmetry. now apply cell_out.
Qed.

Lemma setPiece_put b row col p : snd (setPiece b row col p) = put b row col p.
Proof.
  unfold setPiece. destruct (isInBounds row col) eqn:E; cbn; [reflexivity|].
  symmetry. now apply put_out.
Qed.

Lemma wf_movePiece b fr fc tr tc : wf_grid b -> wf_grid (snd (movePiece b fr fc tr tc)).
Proof.
  intros Hw. unfold movePiece.
  destruct (negb (isInBounds fr fc) || negb (isInBounds tr tc)); [exact Hw|].
  destruct (cell b fr fc); [|exact Hw]. cbn. now repeat apply wf_put.
Qed.

(** After [movePiece], a square other than the source is empty only if it
    was empty before. *)
Lemma movePiece_keeps_occupied b fr fc tr tc row col :
  wf_grid b -> (row, col) <> (fr, fc) ->
  is_Some_b (cell b row col) = true ->
  is_Some_b (cell (snd (movePiece b fr fc tr tc)) row col) = true.
Proof.
  intros Hw Hne Hocc. unfold movePiece.
  destruct (negb (isInBounds fr fc) || negb (isInBounds tr tc)) eqn:Hb; [exact Hocc|].
  destruct (cell b fr fc) as [piece|]; [|exact Hocc]. cbn.
  apply orb_false_iff in Hb as [Hb1 Hb2].
  apply negb_false_iff in Hb1, Hb2.
  rewrite cell_put_ne by congruence.
  rewrite cell_put by assumption.
  destruct (Square_eqb (tr, tc) (row, col)); [reflexivity|exact Hocc].
Qed.

Lemma movePiece_arrives b fr fc tr tc piece :
  wf_grid b -> cell b fr fc = Some piece -> isInBounds tr tc = true ->
  (fr, fc) <> (tr, tc) ->
  cell (snd (movePiece b fr fc tr tc)) tr tc = Some (setHasMoved piece true).
Proof.
  intros Hw Hp Hb Hne. unfold movePiece.
  rewrite (cell_Some_in _ _ _ _ Hp), Hb, Hp. cbn.
  rewrite cell_put_ne by assumption. now apply cell_put_eq.
Qed.

(** Candidates other than castling carry no special mark. *)
Lemma slide_plain fuel self b r c dr dc m : In m (slide fuel self b r c dr dc) -> snd m = None.
Proof.
  revert r c. induction fuel as [|fuel IH]; intros r c; cbn; [tauto|].
  destruct (isInBounds r c); [|cbn; tauto].
  destruct (isEmpty b r c).
  - intros [<-|H]; [reflexivity|]. eapply IH, H.
  - destruct (isOpponentPiece self b r c); cbn; [intros [<-|[]]; reflexivity|tauto].
Qed.

Lemma slideAll_plain self b row col dirs m : In m (slideAll self b row col dirs) -> snd m = None.
Proof.
  unfold slideAll. rewrite in_flat_map. intros [[dr dc] [_ H]]. eapply slide_plain, H.
Qed.

Lemma stepAll_plain self b row col offs m : In m (stepAll self b row col offs) -> snd m = None.
Proof.
  unfold stepAll. rewrite in_flat_map. intros [[dr dc] [_ H]].
  destruct (isInBounds _ _ && _); cbn in H; [|tauto]. destruct H as [<-|[]]. reflexivity.
Qed.

Lemma Pawn_plain self b row col gs m :
  In m (Pawn_getPossibleMoves self b row col gs) -> snd m = None.
Proof.
  unfold Pawn_getPossibleMoves. rewrite in_app_iff. intros [H|H].
  - destruct (isInBounds _ _ && _); cbn in H; [|tauto].
    destruct H as [<-|H]; [reflexivity|].
    destruct ((row =? _) && _); cbn in H; [|tauto]. destruct H as [<-|[]]. reflexivity.
  - apply in_flat_map in H as [off [_ H]].
    destruct (isInBounds _ _); cbn in H; [|tauto].
    apply in_app_iff in H as [H|H].
    + destruct (isOpponentPiece _ _ _ _); cbn in H; [|tauto]. destruct H as [<-|[]]. reflexivity.
    + destruct gs as [gs|]; [|cbn in H; tauto].
      destruct (enPassantTarget gs) as [[epRow epCol]|]; [|cbn in H; tauto].
      destruct ((_ =? epRow) && _); cbn in H; [|tauto]. destruct H as [<-|[]]. reflexivity.
Qed.

(** A candidate with a special mark is a castling move of the king,
    offered by [addCastlingMoves]. *)
Lemma special_candidate piece b row col gs toRow toCol sp :
  In (toRow, toCol, Some sp) (getPossibleMoves piece b row col gs) ->
  toRow = row /\
  ((sp = CASTLE_KINGSIDE /\ toCol = col + 2 /\ canCastleKingside piece b row col = true)
   \/ (sp = CASTLE_QUEENSIDE /\ toCol = col - 2 /\ canCastleQueenside piece b row col = true)).
Proof.
  unfold getPossibleMoves. intros H.
  assert (Hno : forall l, (forall m, In m l -> snd m = None) ->
                          In (toRow, toCol, Some sp) l -> False).
  { intros l Hl Hin. specialize (Hl _ Hin). discriminate. }
  destruct (type piece).
  - exfalso. eapply Hno, H. intros m. apply Pawn_plain.
  - exfalso. eapply Hno, H. intros m. apply stepAll_plain.
  - exfalso. eapply Hno, H. intros m. apply slideAll_plain.
  - exfalso. eapply Hno, H. intros m. apply slideAll_plain.
  - exfalso. eapply Hno, H. intros m. apply slideAll_plain.
  - unfold King_getPossibleMoves in H. apply in_app_iff in H as [H|H].
    + exfalso. eapply Hno, H. intros m. apply stepAll_plain.
    + destruct gs as [gs|]; [|cbn in H; tauto].
      destruct (negb (hasMoved piece) && _); [|cbn in H; tauto].
      unfold addCastlingMoves in H. apply in_app_iff in H as [H|H].
      * destruct (kingSide _) ; cbn in H; [|tauto].
        destruct (canCastleKingside piece b row col) eqn:E; cbn in H; [|tauto].
        destruct H as [[= <- <- <-]|[]]. auto.
      * destruct (queenSide _) ; cbn in H; [|tauto].
        destruct (canCastleQueenside piece b row col) eqn:E; cbn in H; [|tauto].
        destruct H as [[= <- <- <-]|[]]. auto.
Qed.

(** The king's destination is occupied after both pieces have been moved,
    so [handleCastlingMove] reads the colour of a piece and returns. *)
Lemma castle_target_occupied b row col piece toCol rookFromCol rookToCol :
  wf_grid b -> cell b row col = Some piece ->
  isInBounds row toCol = true -> toCol <> col -> toCol <> rookFromCol ->
  is_Some_b
    (cell (snd (movePiece (snd (movePiece b row col row toCol))
                          row rookFromCol row rookToCol)) row toCol) = true.
Proof.
  intros Hw Hp Hb Hne Hr.
  apply movePiece_keeps_occupied.
  - now apply wf_movePiece.
  - congruence.
  - erewrite movePiece_arrives; eauto. congruence.
Qed.

Lemma handleCastlingMove_returns row col toCol sp v piece :
  wf_grid (v_board v) -> cell (v_board v) row col = Some piece ->
  (sp = CASTLE_KINGSIDE /\ toCol = col + 2 /\ isInBounds row (col + 3) = true)
  \/ (sp = CASTLE_QUEENSIDE /\ toCol = col - 2 /\ isInBounds row (col - 4) = true) ->
  exists v', handleCastlingMove row col row toCol (Some sp) v = (Returned tt, v').
Proof.
  intros Hw Hp Hc.
  pose proof (cell_Some_in _ _ _ _ Hp) as Hin. apply isInBounds_spec in Hin.
  unfold handleCastlingMove. cbn [set_v_board v_board v_gameState].
  assert (Hocc : is_Some_b
            (cell (snd (movePiece (snd (movePiece (v_board v) row col row toCol)) row
                 (if isKingsideMove (Some sp) then 7 else 0) row
                 (if isKingsideMove (Some sp) then 5 else 3))) row toCol) = true).
  { destruct Hc as [(-> & -> & Hb)|(-> & -> & Hb)]; apply isInBounds_spec in Hb;
      cbn [isKingsideMove]; eapply castle_target_occupied; eauto;
      try (apply isInBounds_spec); lia. }
  rewrite getPiece_cell.
  destruct (cell _ row toCol) as [p|]; [eauto|discriminate].
Qed.

Lemma Validator_restored b s w : set_v_gameState s (set_v_board b w) = mkValidator b s.
Proof. reflexivity. Qed.

Lemma Validator_eta v : mkValidator (v_board v) (v_gameState v) = v.
Proof. now destruct v. Qed.

(** A simulated candidate of the piece on [(row, col)] returns, and the
    validator is back on the live board and state. *)
Lemma simulateMove_restores row col toRow toCol sp v piece gs :
  wf_grid (v_board v) ->
  getPiece (v_board v) row col = Some piece ->
  In (toRow, toCol, sp) (getPossibleMoves piece (v_board v) row col gs) ->
  exists r, simulateMove row col toRow toCol sp v = (Returned r, v).
Proof.
  intros Hw Hp Hin. unfold simulateMove. rewrite Hp.
  rewrite !Board_clone_id.
  set (v2 := set_v_gameState _ (set_v_board (v_board v) v)).
  assert (Hb2 : v_board v2 = v_board v) by reflexivity.
  assert (Hret : exists x v3, makeTemporaryMove row col toRow toCol sp v2 = (Returned x, v3)).
  { unfold makeTemporaryMove. rewrite Hb2, Hp.
    destruct (isCastle sp) eqn:Hc.
    - destruct sp as [sp|]; [|discriminate].
      apply special_candidate in Hin as [-> Hside].
      rewrite getPiece_cell in Hp.
      destruct (handleCastlingMove_returns row col toCol sp v2 piece) as [v3 E].
      + now rewrite Hb2.
      + now rewrite Hb2.
      + destruct Hside as [(-> & -> & Hk)|(-> & -> & Hq)]; [left|right];
          repeat split; unfold canCastleKingside, canCastleQueenside in *;
          repeat (apply andb_true_iff in Hk as [Hk ?]);
          repeat (apply andb_true_iff in Hq as [Hq ?]); assumption.
      + rewrite E. eauto.
    - destruct (enPassantTarget (v_gameState v2)) as [[epRow epCol]|].
      + destruct (Kind_eqb (type piece) pawn && (toRow =? epRow) && (toCol =? epCol)); eauto.
      + eauto. }
  destruct Hret as (x & v3 & ->).
  rewrite !Validator_restored, Validator_eta. eauto.
Qed.

Lemma filterLegal_restores row col v piece gs moves :
  wf_grid (v_board v) ->
  getPiece (v_board v) row col = Some piece ->
  (forall m, In m moves -> In m (getPossibleMoves piece (v_board v) row col gs)) ->
  snd (filterLegal row col moves v) = v.
Proof.
  intros Hw Hp. induction moves as [|[[toRow toCol] sp] rest IH]; intros Hsub; [reflexivity|].
  cbn [filterLegal].
  destruct (simulateMove_restores row col toRow toCol sp v piece gs Hw Hp) as [r ->].
  { apply Hsub. now left. }
  specialize (IH (fun m Hm => Hsub m (or_intror Hm))).
  destruct (filterLegal row col rest v) as [l v']. cbn in IH. now subst v'.
Qed.

(** [calculateLegalMoves] returns with the validator as it found it. *)
Lemma calculateLegalMoves_restores row col v :
  wf_grid (v_board v) -> snd (calculateLegalMoves row col v) = v.
Proof.
  intros Hw. unfold calculateLegalMoves.
  destruct (getPiece (v_board v) row col) as [piece|] eqn:Hp; [|reflexivity].
  destruct (negb (Color_eqb (color piece) (currentPlayer (v_gameState v)))); [reflexivity|].
  eapply filterLegal_restores; eauto.
Qed.

Lemma anyLegal_restores c squares v :
  wf_grid (v_board v) -> snd (anyLegal c squares v) = v.
Proof.
  intros Hw. induction squares as [|[row col] rest IH]; [reflexivity|].
  cbn [anyLegal]. destruct (getPiece (v_board v) row col) as [piece|]; [|exact IH].
  destruct (Color_eqb (color piece) c); [|exact IH].
  pose proof (calculateLegalMoves_restores row col v Hw) as H.
  destruct (calculateLegalMoves row col v) as [l v1]. cbn in H. subst v1.
  destruct (0 <? Z.of_nat (length l)); [reflexivity|exact IH].
Qed.

Lemma checkGameEndConditions_restores v :
  wf_grid (v_board v) -> snd (checkGameEndConditions v) = v.
Proof.
  intros Hw. unfold checkGameEndConditions, playerHasLegalMoves.
  pose proof (anyLegal_restores (currentPlayer (v_gameState v)) allSquares v Hw) as H.
  destruct (anyLegal _ allSquares v) as [has v1]. cbn in H. subst v1.
  destruct (negb has); destruct (at_color _ _); reflexivity.
Qed.

End LayeredFrame.

(** C5.  Computing the legal-move set of a square leaves the live board and
    the live game state exactly as they were: in the monolithic engine the
    candidates are played on the live board and taken back, in the layered
    engine the validator is pointed to clones and pointed back.  Both
    functions return the state they were given, for every square and every
    position on an 8x8 board. *)
Theorem C5_legal_moves_leave_no_trace :
  (forall (g : Mono.Game) (row col : Z),
      snd (Mono.calculateLegalMoves row col g) = g)
  /\ (forall (v : Layered.Validator) (row col : Z),
         wf_grid (Layered.v_board v) ->
         snd (Layered.calculateLegalMoves row col v) = v).
Proof.
  split.
  - intros g row col. apply Mono_calculateLegalMoves_restores.
  - intros v row col Hw. now apply calculateLegalMoves_restores.
Qed.

(** The legal moves of e2 at the start of a game, on both engines. *)
Lemma C5_no_trace_at_the_start :
  snd (Mono.calculateLegalMoves 6 4 Mono.newGame) = Mono.newGame
  /\ snd (Layered.calculateLegalMoves 6 4 (Layered.theValidator Layered_start))
     = Layered.theValidator Layered_start.
Proof.
  split.
  - apply (proj1 C5_legal_moves_leave_no_trace Mono.newGame 6 4).
  - apply (proj2 C5_legal_moves_leave_no_trace (Layered.theValidator Layered_start) 6 4).
    vm_compute. split; [reflexivity|]. repeat constructor.
Defined.

(* ====================================================================== *)
(** * Board accessors at the edge of the board *)
(* ====================================================================== *)

(** C10.  For coordinates with a row or column outside 0..7 the accessors
    of [Board] answer without touching the grid: [getPiece] returns [null],
    [setPiece] returns [false] and [movePiece] returns [null] (whichever of
    its two squares is off the board), and the grid is the one they were
    given.  The guard is taken before any index into the grid is
    evaluated, so there is nothing that could raise. *)
Theorem C10_board_accessors_off_board
    (b : Layered.Board) (row col : Z) (piece : option Layered.Piece) (row' col' : Z) :
  row < 0 \/ 7 < row \/ col < 0 \/ 7 < col ->
  Layered.getPiece b row col = None
  /\ Layered.setPiece b row col piece = (false, b)
  /\ Layered.movePiece b row col row' col' = (None, b)
  /\ Layered.movePiece b row' col' row col = (None, b).
Proof.
  intros Hout. apply isInBounds_false in Hout.
  unfold Layered.getPiece, Layered.setPiece, Layered.movePiece.
  rewrite Hout. cbn. repeat split; try reflexivity.
  now rewrite orb_true_r.
Qed.

Lemma C10_off_board_at_row_8 :
  (8 < 0 \/ 7 < 8 \/ 0 < 0 \/ 7 < 0)
  /\ Layered.getPiece Layered.createInitialBoard 8 0 = None
  /\ Layered.setPiece Layered.createInitialBoard 8 0
       (Some (Layered.createPiece queen white)) = (false, Layered.createInitialBoard)
  /\ Layered.movePiece Layered.createInitialBoard 8 0 6 4 = (None, Layered.createInitialBoard)
  /\ Layered.movePiece Layered.createInitialBoard 6 4 8 0 = (None, Layered.createInitialBoard).
Proof.
  split; [right; left; lia|].
  apply (C10_board_accessors_off_board Layered.createInitialBoard 8 0
           (Some (Layered.createPiece queen white)) 6 4).
  right; left; lia.
Defined.

(* ====================================================================== *)
(** * The history of the layered engine *)
(* ====================================================================== *)

(** Field reads of field writes of the game state, computed away. *)
Ltac gs_red :=
  cbv [Layered.currentPlayer Layered.moveHistory Layered.boardStates
       Layered.capturedPieces Layered.kingPositions Layered.isInCheck
       Layered.castlingRights Layered.enPassantTarget
       Layered.currentMoveIndex Layered.gameOver Layered.gameStatus
       Layered.result Layered.boardOrientation Layered.promotionPending
       Layered.promotionMove Layered.set_currentPlayer
       Layered.set_moveHistory Layered.set_boardStates
       Layered.set_capturedPieces Layered.set_kingPositions
       Layered.set_isInCheck Layered.set_castlingRights
       Layered.set_enPassantTarget Layered.set_currentMoveIndex
       Layered.set_gameOver Layered.set_gameStatus Layered.set_result
       Layered.set_boardOrientation Layered.set_promotionPending
       Layered.set_promotionMove].

Ltac gs_red_in H :=
  cbv [Layered.currentPlayer Layered.moveHistory Layered.boardStates
       Layered.capturedPieces Layered.kingPositions Layered.isInCheck
       Layered.castlingRights Layered.enPassantTarget
       Layered.currentMoveIndex Layered.gameOver Layered.gameStatus
       Layered.result Layered.boardOrientation Layered.promotionPending
       Layered.promotionMove Layered.set_currentPlayer
       Layered.set_moveHistory Layered.set_boardStates
       Layered.set_capturedPieces Layered.set_kingPositions
       Layered.set_isInCheck Layered.set_castlingRights
       Layered.set_enPassantTarget Layered.set_currentMoveIndex
       Layered.set_gameOver Layered.set_gameStatus Layered.set_result
       Layered.set_boardOrientation Layered.set_promotionPending
       Layered.set_promotionMove] in H.

Section LayeredHistory.
Import Layered.

Lemma same_history_refl s : same_history s s.
Proof. now repeat split. Qed.

Lemma same_history_trans s1 s2 s3 :
  same_history s1 s2 -> same_history s2 s3 -> same_history s1 s3.
Proof. intros (?&?&?) (?&?&?). repeat split; congruence. Qed.

Lemma same_history_inv s s' : same_history s s' -> history_inv s -> history_inv s'.
Proof. intros (Hm&Hb&Hi) H. unfold history_inv. now rewrite Hm, Hb, Hi. Qed.

Ltac same_hist := repeat split; reflexivity.

Lemma sh_enPassantTarget v s : same_history s (set_enPassantTarget v s).
Proof. same_hist. Qed.
Lemma sh_capturedPieces v s : same_history s (set_capturedPieces v s).
Proof. same_hist. Qed.
Lemma sh_castlingRights v s : same_history s (set_castlingRights v s).
Proof. same_hist. Qed.
Lemma sh_kingPositions v s : same_history s (set_kingPositions v s).
Proof. same_hist. Qed.
Lemma sh_currentPlayer v s : same_history s (set_currentPlayer v s).
Proof. same_hist. Qed.
Lemma sh_isInCheck v s : same_history s (set_isInCheck v s).
Proof. same_hist. Qed.
Lemma sh_gameOver v s : same_history s (set_gameOver v s).
Proof. same_hist. Qed.
Lemma sh_gameStatus v s : same_history s (set_gameStatus v s).
Proof. same_hist. Qed.
Lemma sh_result v s : same_history s (set_result v s).
Proof. same_hist. Qed.
Lemma sh_promotionPending v s : same_history s (set_promotionPending v s).
Proof. same_hist. Qed.
Lemma sh_promotionMove v s : same_history s (set_promotionMove v s).
Proof. same_hist. Qed.

Lemma sh_pushCaptured c p s : same_history s (pushCaptured c p s).
Proof. same_hist. Qed.

Lemma sh_revoke c side s : same_history s (revoke c side s).
Proof. same_hist. Qed.

Lemma sh_updateResult s : same_history s (updateResult s).
Proof. unfold updateResult. destruct (gameStatus s); same_hist. Qed.

Lemma sh_if (b : bool) s s1 s2 :
  same_history s s1 -> same_history s s2 -> same_history s (if b then s1 else s2).
Proof. now destruct b. Qed.

Lemma sh_updateCastlingRights fr fc tr tc piece b s :
  same_history s (updateCastlingRights fr fc tr tc piece b s).
Proof.
  unfold updateCastlingRights.
  repeat match goal with
         | |- context [if ?c then _ else _] => destruct c
         | |- context [getPiece ?x ?y ?z] => destruct (getPiece x y z)
         end; same_hist.
Qed.

(** The move is played on the board: the grid stays 8x8 and the history is
    not touched. *)
Lemma playOnBoard_spec b gs piece fr fc tr tc sp promo :
  wf_grid b ->
  let '(b', gs', _, _, _, _) := playOnBoard b gs piece fr fc tr tc sp promo in
  wf_grid b' /\ same_history gs gs'.
Proof.
  intros Hw. unfold playOnBoard.
  destruct (isCastle sp).
  { split; [|apply same_history_refl]. unfold handleCastling. now repeat apply wf_movePiece. }
  destruct (Kind_eqb (type piece) pawn).
  2:{ split; [now apply wf_movePiece|apply same_history_refl]. }
  set (ep := if negb (fc =? tc) && isEmpty b tr tc then _ else _).
  assert (Hep : let '(b1, gs1, _, _) := ep in wf_grid b1 /\ same_history gs gs1).
  { subst ep. destruct (negb (fc =? tc) && isEmpty b tr tc).
    - rewrite setPiece_put. split; [now apply wf_put|].
      destruct (getPiece b _ tc); [apply sh_pushCaptured|apply same_history_refl].
    - split; [exact Hw|apply same_history_refl]. }
  destruct ep as [[[b1 gs1] cp] epc]. destruct Hep as [Hw1 Hs1].
  destruct promo as [k|].
  - rewrite !setPiece_put. split; [now repeat apply wf_put|exact Hs1].
  - split; [now apply wf_movePiece|].
    eapply same_history_trans; [exact Hs1|].
    apply sh_if; [apply sh_enPassantTarget|apply same_history_refl].
Qed.

(** [addMove] on a history that satisfies the invariant. *)
Lemma addMove_spec move b s :
  history_inv s ->
  let n := Z.to_nat (currentMoveIndex s) in
  moveHistory (addMove move b s) = take n (moveHistory s) ++ [move]
  /\ boardStates (addMove move b s) = take (S n) (boardStates s) ++ [b]
  /\ currentMoveIndex (addMove move b s) = Z.of_nat (length (moveHistory (addMove move b s)))
  /\ history_inv (addMove move b s).
Proof.
  intros [Hlen Hidx]. cbn zeta. unfold addMove, history_inv.
  assert (Hn : (Z.to_nat (currentMoveIndex s) <= length (moveHistory s))%nat) by lia.
  destruct (currentMoveIndex s <? Z.of_nat (length (moveHistory s))) eqn:Hlt.
  - unfold truncateHistory. apply Z.ltb_lt in Hlt.
    destruct s; gs_red; gs_red_in Hlen; gs_red_in Hidx; gs_red_in Hn; gs_red_in Hlt.
    match goal with
    | |- context [Z.to_nat (?z + 1)] =>
        replace (Z.to_nat (z + 1)) with (S (Z.to_nat z)) by lia
    end.
    rewrite !length_app, !length_take. cbn [length].
    repeat split; try reflexivity; lia.
  - apply Z.ltb_ge in Hlt.
    assert (Heq : Z.to_nat (currentMoveIndex s) = length (moveHistory s)) by lia.
    rewrite Heq.
    rewrite (take_ge (moveHistory s)) by lia.
    rewrite (take_ge (boardStates s)) by lia.
    destruct s; gs_red; gs_red_in Hlen; gs_red_in Hidx.
    rewrite !length_app. cbn [length].
    repeat split; try reflexivity; lia.
Qed.

End LayeredHistory.

(* ====================================================================== *)
(** * The controller keeps its invariant *)
(* ====================================================================== *)

Section LayeredController.
Import Layered.

Lemma wf_createInitialBoard : wf_grid createInitialBoard.
Proof. split; [reflexivity|]. repeat constructor. Qed.

Lemma wf_createEmptyGrid : wf_grid createEmptyGrid.
Proof. split; [reflexivity|]. repeat constructor. Qed.

Lemma insert_own (h : list Board) (r : nat) : <[r := deref h r]> h = h.
Proof.
  apply list_insert_id'. intros Hlt. unfold deref.
  now apply list_lookup_lookup_total_lt.
Qed.

Lemma deref_wf (h : list Board) (r : nat) :
  Forall wf_grid h -> (r < length h)%nat -> wf_grid (deref h r).
Proof. intros Hh Hr. unfold deref. now apply Forall_lookup_total_1. Qed.

Lemma deref_insert (h : list Board) (r : nat) b :
  (r < length h)%nat -> deref (<[r := b]> h) r = b.
Proof. intros Hr. unfold deref. now apply list_lookup_total_insert_eq. Qed.

Lemma ctrl_inv_liveBoard c : ctrl_inv c -> wf_grid (liveBoard c).
Proof. intros (Hh & Hb & _). now apply deref_wf. Qed.

Lemma ctrl_inv_validatorBoard c : ctrl_inv c -> wf_grid (v_board (theValidator c)).
Proof. intros (Hh & _ & Hv & _). now apply deref_wf. Qed.

(** A validator call that returns the validator as it was changes nothing. *)
Lemma storeValidator_id c : storeValidator (theValidator c) c = c.
Proof.
  unfold storeValidator, theValidator. cbn. rewrite insert_own. now destruct c.
Qed.

(** [updateCheckStatus] writes the two check flags of the shared state. *)
Lemma storeValidator_updateCheckStatus c :
  storeValidator (updateCheckStatus (theValidator c)) c
  = set_gameState (v_gameState (updateCheckStatus (theValidator c))) c.
Proof.
  unfold storeValidator, updateCheckStatus. cbn. rewrite insert_own. now destruct c.
Qed.

Lemma sh_updateCheckStatus v :
  same_history (v_gameState v) (v_gameState (updateCheckStatus v)).
Proof. repeat split; reflexivity. Qed.

Lemma ctrl_inv_set_gameState c gs :
  ctrl_inv c -> same_history (gameState c) gs -> ctrl_inv (set_gameState gs c).
Proof.
  intros (Hh & Hb & Hv & Hs & Hi) Hsame.
  pose proof Hsame as (Hm & Hbs & Hc).
  repeat split; try assumption; cbn.
  - now rewrite Hbs.
  - rewrite Hbs, Hm. apply Hi.
  - rewrite Hc. apply Hi.
  - rewrite Hc, Hm. apply Hi.
Qed.

Lemma ctrl_inv_new_gameState c gs :
  ctrl_inv c -> Forall wf_grid (boardStates gs) -> history_inv gs ->
  ctrl_inv (set_gameState gs c).
Proof.
  intros (Hh & Hb & Hv & _ & _) Hs Hi. unfold ctrl_inv.
  split; [exact Hh|]. split; [exact Hb|]. split; [exact Hv|]. split; [exact Hs|exact Hi].
Qed.

Lemma ctrl_inv_writeBoard c b : ctrl_inv c -> wf_grid b -> ctrl_inv (writeBoard b c).
Proof.
  intros (Hh & Hb & Hv & Hs & Hi) Hw.
  unfold writeBoard. repeat split; cbn; try apply Hi; try assumption.
  - now apply Forall_insert.
  - now rewrite length_insert.
  - now rewrite length_insert.
Qed.

Lemma ctrl_inv_rebindBoard c b : ctrl_inv c -> wf_grid b -> ctrl_inv (rebindBoard b c).
Proof.
  intros (Hh & Hb & Hv & Hs & Hi) Hw.
  unfold rebindBoard. repeat split; cbn; try apply Hi; try assumption.
  - apply Forall_app. split; [assumption|]. now constructor.
  - rewrite length_app. cbn. lia.
  - rewrite length_app. cbn. lia.
Qed.

Lemma ctrl_inv_selection c p l :
  ctrl_inv c -> ctrl_inv (set_possibleMoves l (set_selectedPiece p c)).
Proof. intros H. exact H. Qed.

Lemma ctrl_inv_updateCheckStatus c :
  ctrl_inv c -> ctrl_inv (storeValidator (updateCheckStatus (theValidator c)) c).
Proof.
  intros H. rewrite storeValidator_updateCheckStatus.
  apply ctrl_inv_set_gameState; [assumption|]. apply (sh_updateCheckStatus (theValidator c)).
Qed.

(** The end-of-turn test leaves the store and the game state alone; its
    verdict is written by the caller. *)
Lemma storeValidator_checkGameEnd c :
  ctrl_inv c -> storeValidator (snd (checkGameEndConditions (theValidator c))) c = c.
Proof.
  intros H. rewrite checkGameEndConditions_restores by now apply ctrl_inv_validatorBoard.
  apply storeValidator_id.
Qed.

Lemma storeValidator_calculateLegalMoves c row col :
  ctrl_inv c -> storeValidator (snd (calculateLegalMoves row col (theValidator c))) c = c.
Proof.
  intros H. rewrite calculateLegalMoves_restores by now apply ctrl_inv_validatorBoard.
  apply storeValidator_id.
Qed.

Lemma wf_Board_clone b : wf_grid b -> wf_grid (Board_clone b).
Proof. now rewrite Board_clone_id. Qed.

Lemma ctrl_inv_initialize : ctrl_inv (initialize newController).
Proof.
  unfold initialize. apply ctrl_inv_updateCheckStatus.
  repeat split; cbn; try lia.
  - repeat constructor.
  - repeat constructor.
Qed.


Lemma wf_boardStates_push (l : list Board) n b :
  Forall wf_grid l -> wf_grid b -> Forall wf_grid (take n l ++ [b]).
Proof.
  intros Hl Hb. apply Forall_app. split; [now apply Forall_take|now constructor].
Qed.

(** [makeMove] keeps the invariant, whatever its arguments. *)
Lemma ctrl_inv_makeMove fr fc tr tc sp promo c :
  ctrl_inv c -> ctrl_inv (snd (makeMove fr fc tr tc sp promo c)).
Proof.
  intros Hinv. unfold makeMove.
  destruct (match getPiece (liveBoard c) fr fc, selectedPiece c with
            | None, Some sel => sel
            | _, _ => (fr, fc)
            end) as [fromRow fromCol].
  destruct (getPiece (liveBoard c) fromRow fromCol) as [piece|]; [|exact Hinv].
  pose proof (playOnBoard_spec (liveBoard c) (set_enPassantTarget None (gameState c))
                piece fromRow fromCol tr tc sp promo (ctrl_inv_liveBoard c Hinv)) as Hplay.
  destruct (playOnBoard _ _ piece fromRow fromCol tr tc sp promo)
    as [[[[[b gs] capturedPiece] enPassantCapture] promotedPiece] castling].
  destruct Hplay as [Hwb Hsh].
  set (gs1 := match capturedPiece, enPassantCapture with
              | Some p, None => pushCaptured (color piece) p gs
              | _, _ => gs
              end).
  assert (H1 : same_history (gameState c) gs1).
  { eapply same_history_trans; [apply sh_enPassantTarget|].
    eapply same_history_trans; [exact Hsh|].
    subst gs1. destruct capturedPiece, enPassantCapture;
      try apply same_history_refl. apply sh_pushCaptured. }
  set (gs2 := updateCastlingRights fromRow fromCol tr tc piece b gs1).
  set (gs3 := if Kind_eqb (type piece) king then _ else gs2).
  assert (H3 : same_history (gameState c) gs3).
  { eapply same_history_trans; [exact H1|].
    eapply same_history_trans; [apply sh_updateCastlingRights|].
    subst gs3. apply sh_if; [apply sh_kingPositions|apply same_history_refl]. }
  set (move := mkMove _ _ _ _ _ _ _ _ _ _).
  pose proof Hinv as (Hh & Hb & Hv & Hs & Hi).
  pose proof (same_history_inv _ _ H3 Hi) as Hi3.
  pose proof (addMove_spec move (Board_clone b) gs3 Hi3) as (Em & Eb & Ec & Hi4).
  set (gs4 := addMove move (Board_clone b) gs3) in *.
  set (c1 := set_gameState (set_currentPlayer (opponent (color piece)) gs4) (writeBoard b c)).
  assert (Hc1 : ctrl_inv c1).
  { assert (Hb4 : Forall wf_grid (boardStates gs4)).
    { rewrite Eb. apply wf_boardStates_push; [|now apply wf_Board_clone].
      destruct H3 as (_ & -> & _). exact Hs. }
    apply ctrl_inv_new_gameState.
    - now apply ctrl_inv_writeBoard.
    - exact Hb4.
    - exact (same_history_inv _ _ (sh_currentPlayer _ _) Hi4). }
  set (c2 := storeValidator (updateCheckStatus (theValidator c1)) c1).
  assert (Hc2 : ctrl_inv c2) by now apply ctrl_inv_updateCheckStatus.
  pose proof (storeValidator_checkGameEnd c2 Hc2) as Hend.
  destruct (checkGameEndConditions (theValidator c2)) as [[over status] v].
  cbn [snd] in Hend |- *. rewrite Hend.
  apply ctrl_inv_set_gameState; [exact Hc2|].
  eapply same_history_trans; [|apply sh_updateResult].
  eapply same_history_trans; [apply sh_gameOver|apply sh_gameStatus].
Qed.


Lemma ctrl_inv_goToMove moveIndex c : ctrl_inv c -> ctrl_inv (goToMove moveIndex c).
Proof.
  intros Hinv. unfold goToMove.
  destruct ((moveIndex <? 0) || _) eqn:Hguard; [exact Hinv|].
  apply orb_false_iff in Hguard as [Hlo Hhi].
  apply Z.ltb_ge in Hlo, Hhi.
  pose proof Hinv as (Hh & Hb & Hv & Hs & Hlen & Hidx).
  set (c1 := if moveIndex <=? Z.of_nat (length (boardStates (gameState c))) - 1 then _ else _).
  assert (Hc1 : ctrl_inv c1 /\ gameState c1 = gameState c).
  { subst c1. destruct (moveIndex <=? _) eqn:Hle; [|apply Z.leb_gt in Hle; lia].
    destruct (boardStates (gameState c) !! Z.to_nat moveIndex) as [snapshot|] eqn:Hsnap.
    - split; [|reflexivity]. apply ctrl_inv_rebindBoard; [assumption|].
      apply wf_Board_clone. eapply Forall_lookup_1; eauto.
    - now split. }
  destruct Hc1 as [Hc1 Hgs].
  set (gs := set_currentPlayer _ (set_currentMoveIndex moveIndex (gameState c1))).
  set (c2 := set_gameState gs c1).
  assert (Hc2 : ctrl_inv c2).
  { destruct Hc1 as (Hh1 & Hb1 & Hv1 & Hs1 & Hi1).
    repeat split; try assumption; cbn; rewrite Hgs; try assumption; lia. }
  set (c3 := storeValidator (updateCheckStatus (theValidator c2)) c2).
  assert (Hc3 : ctrl_inv c3) by now apply ctrl_inv_updateCheckStatus.
  destruct (moveIndex =? _).
  - pose proof (storeValidator_checkGameEnd c3 Hc3) as Hend.
    destruct (checkGameEndConditions (theValidator c3)) as [[over status] v].
    cbn [snd] in Hend. rewrite Hend.
    apply ctrl_inv_set_gameState; [exact Hc3|].
    eapply same_history_trans; [apply sh_gameOver|apply sh_gameStatus].
  - apply ctrl_inv_set_gameState; [exact Hc3|].
    eapply same_history_trans; [apply sh_gameOver|apply sh_gameStatus].
Qed.

(** Selecting a piece computes its legal moves and changes nothing but the
    selection. *)
Lemma selectPiece_frame row col c :
  ctrl_inv c ->
  exists sel moves, selectPiece row col c = set_possibleMoves moves (set_selectedPiece sel c).
Proof.
  intros Hinv. unfold selectPiece.
  destruct (getPiece (liveBoard c) row col) as [piece|].
  2:{ exists (selectedPiece c), (possibleMoves c). now destruct c. }
  destruct (negb _).
  { exists (selectedPiece c), (possibleMoves c). now destruct c. }
  set (c1 := set_selectedPiece (Some (row, col)) c).
  pose proof (storeValidator_calculateLegalMoves c1 row col Hinv) as Hst.
  destruct (calculateLegalMoves row col (theValidator c1)) as [moves v].
  cbn [snd] in Hst. rewrite Hst. eauto.
Qed.

Lemma ctrl_inv_selectPiece row col c : ctrl_inv c -> ctrl_inv (selectPiece row col c).
Proof.
  intros Hinv. destruct (selectPiece_frame row col c Hinv) as (sel & moves & ->).
  exact Hinv.
Qed.

Lemma ctrl_inv_clearSelection c : ctrl_inv c -> ctrl_inv (clearSelection c).
Proof. intros H. exact H. Qed.

Lemma ctrl_inv_promptPromotion fr fc tr tc c :
  ctrl_inv c -> ctrl_inv (promptPromotion fr fc tr tc c).
Proof.
  intros H. unfold promptPromotion. apply ctrl_inv_set_gameState; [exact H|].
  eapply same_history_trans; [apply sh_promotionPending|apply sh_promotionMove].
Qed.

Lemma ctrl_inv_handleSquareClick row col c :
  ctrl_inv c -> ctrl_inv (handleSquareClick row col c).
Proof.
  intros Hinv. unfold handleSquareClick.
  destruct (gameOver (gameState c) || promotionPending (gameState c)); [exact Hinv|].
  destruct (currentMoveIndex (gameState c) <? _).
  { apply ctrl_inv_clearSelection. now apply ctrl_inv_goToMove. }
  destruct (selectedPiece c) as [[selectedRow selectedCol]|].
  - destruct (findMove row col (possibleMoves c)) as [[[r0 c0] special]|].
    + apply ctrl_inv_clearSelection.
      destruct (match getPiece (liveBoard c) selectedRow selectedCol with
                | Some p => _ | None => false end).
      * now apply ctrl_inv_promptPromotion.
      * now apply ctrl_inv_makeMove.
    + destruct (getPiece (liveBoard c) row col) as [clicked|].
      * destruct (Color_eqb _ _); [now apply ctrl_inv_selectPiece|exact Hinv].
      * exact Hinv.
  - destruct (getPiece (liveBoard c) row col) as [piece|]; [|exact Hinv].
    destruct (Color_eqb _ _); [now apply ctrl_inv_selectPiece|exact Hinv].
Qed.

Lemma ctrl_inv_completePromotion k c : ctrl_inv c -> ctrl_inv (completePromotion k c).
Proof.
  intros Hinv. unfold completePromotion.
  destruct (promotionMove (gameState c)) as [[[fr fc] [tr tc]]|]; [|exact Hinv].
  apply ctrl_inv_set_gameState; [now apply ctrl_inv_makeMove|].
  eapply same_history_trans; [apply sh_promotionPending|apply sh_promotionMove].
Qed.

Lemma ctrl_inv_resetGame c : ctrl_inv c -> ctrl_inv (resetGame c).
Proof.
  intros Hinv. unfold resetGame. apply ctrl_inv_clearSelection.
  pose proof (ctrl_inv_writeBoard c createInitialBoard Hinv wf_createInitialBoard)
    as (Hh & Hb & Hv & _ & _).
  repeat split; try assumption; cbn; try lia.
  constructor; [|constructor]. apply wf_Board_clone.
  now apply deref_wf.
Qed.

Lemma ctrl_inv_restoreOrientation o c : ctrl_inv c -> ctrl_inv (restoreOrientation o c).
Proof.
  intros Hinv. unfold restoreOrientation. apply ctrl_inv_set_gameState; [exact Hinv|].
  now repeat split.
Qed.

Lemma ctrl_inv_flipBoard c : ctrl_inv c -> ctrl_inv (flipBoard c).
Proof.
  intros Hinv. unfold flipBoard. apply ctrl_inv_set_gameState; [exact Hinv|].
  now repeat split.
Qed.

(** Every reachable state satisfies the invariant. *)
Lemma reachable_ctrl_inv c : reachable c -> ctrl_inv c.
Proof.
  induction 1.
  - apply ctrl_inv_initialize.
  - now apply ctrl_inv_handleSquareClick.
  - now apply ctrl_inv_goToMove.
  - now apply ctrl_inv_completePromotion.
  - now apply ctrl_inv_resetGame.
  - now apply ctrl_inv_makeMove.
  - now apply ctrl_inv_flipBoard.
  - now apply ctrl_inv_restoreOrientation.
Qed.

End LayeredController.

(* ====================================================================== *)
(** * Claims about the history and about rejected requests *)
(* ====================================================================== *)

(** C6.  In every state the layered engine can reach through move
    application and navigation, the snapshot list is exactly one longer
    than the move list and [currentMoveIndex] lies between 0 and the number
    of moves; and [addMove] keeps the moves before the viewed ply and the
    snapshots up to it, pushes the new move and snapshot, and sets
    [currentMoveIndex] to the new number of moves (when the viewed ply is
    the last one nothing is dropped). *)
Theorem C6_history_invariant (c : Layered.Controller) :
  reachable c -> history_contract (Layered.gameState c).
Proof.
  intros Hr. apply reachable_ctrl_inv in Hr as (_ & _ & _ & _ & Hi).
  pose proof Hi as [Hlen Hidx].
  split; [exact Hlen|]. split; [exact Hidx|].
  intros move snapshot s'.
  destruct (addMove_spec move snapshot _ Hi) as (Em & Eb & Ec & _).
  subst s'. split; [exact Em|]. split; [|exact Ec].
  rewrite Eb. do 2 f_equal. lia.
Qed.

(** One pawn move, then back to the start: the viewed ply 0 is behind the
    single recorded move. *)
Lemma C6_history_after_going_back :
  history_contract
    (Layered.gameState
       (Layered.goToMove 0
          (Layered.handleSquareClick 4 4
             (Layered.handleSquareClick 6 4 (Layered.initialize Layered.newController))))).
Proof.
  apply (C6_history_invariant
           (Layered.goToMove 0
              (Layered.handleSquareClick 4 4
                 (Layered.handleSquareClick 6 4 (Layered.initialize Layered.newController))))).
  apply reach_goToMove, reach_click, reach_click, reach_initialize.
Defined.

Section Rejection.
Import Layered.

Lemma same_position_refl c : same_position c c.
Proof. now repeat split. Qed.

Lemma same_position_selection c p l :
  same_position c (set_possibleMoves l (set_selectedPiece p c)).
Proof. now repeat split. Qed.

Lemma selectPiece_moves row col c p :
  ctrl_inv c ->
  getPiece (liveBoard c) row col = Some p ->
  color p = currentPlayer (gameState c) ->
  selectedPiece (selectPiece row col c) = Some (row, col)
  /\ possibleMoves (selectPiece row col c)
     = fst (calculateLegalMoves row col (theValidator c)).
Proof.
  intros Hinv Hp Hc. unfold selectPiece. rewrite Hp, Hc, Color_eqb_refl. cbn [negb].
  set (c1 := set_selectedPiece (Some (row, col)) c).
  change (theValidator c1) with (theValidator c).
  destruct (calculateLegalMoves row col (theValidator c)) as [moves v]. now split.
Qed.

(** [makeMove] falls back on the selected square when the source is
    empty; it then does what it does from that square. *)
Lemma makeMove_source fr fc tr tc sp promo c :
  makeMove fr fc tr tc sp promo c = (false, c)
  \/ exists fr' fc' piece,
       getPiece (liveBoard c) fr' fc' = Some piece
       /\ makeMove fr fc tr tc sp promo c = makeMove fr' fc' tr tc sp promo c.
Proof.
  destruct (getPiece (liveBoard c) fr fc) as [piece|] eqn:Hp.
  - right. exists fr, fc, piece. now split.
  - destruct (selectedPiece c) as [[sr sc]|] eqn:Hsel.
    + destruct (getPiece (liveBoard c) sr sc) as [piece|] eqn:Hq.
      * right. exists sr, sc, piece. split; [exact Hq|].
        unfold makeMove. rewrite Hp, Hsel, Hq. cbv beta iota. rewrite Hq. reflexivity.
      * left. unfold makeMove. rewrite Hp, Hsel. cbv beta iota. now rewrite Hq.
    + left. unfold makeMove. rewrite Hp, Hsel. cbv beta iota. now rewrite Hp.
Qed.

(** With a piece on the source square [makeMove] returns [true]. *)
Lemma makeMove_accepts fr fc tr tc sp promo c piece :
  getPiece (liveBoard c) fr fc = Some piece ->
  fst (makeMove fr fc tr tc sp promo c) = true.
Proof.
  intros Hp. unfold makeMove. rewrite Hp. cbv beta iota. rewrite Hp.
  destruct (playOnBoard _ _ piece fr fc tr tc sp promo)
    as [[[[[b gs] capturedPiece] enPassantCapture] promotedPiece] castling].
  destruct (checkGameEndConditions _) as [[over status] v]. reflexivity.
Qed.

(** [makeMove] returns [false] exactly when it finds nothing to move, and
    then the controller is as it was. *)
Lemma makeMove_refuses fr fc tr tc sp promo c :
  (fst (makeMove fr fc tr tc sp promo c) = false <-> nothingToMove c fr fc)
  /\ (nothingToMove c fr fc -> makeMove fr fc tr tc sp promo c = (false, c)).
Proof.
  assert (Hno : nothingToMove c fr fc -> makeMove fr fc tr tc sp promo c = (false, c)).
  { intros [Hp Hsel]. unfold makeMove. rewrite Hp.
    destruct (selectedPiece c) as [[sr sc]|] eqn:Hs; cbv beta iota.
    - now rewrite (Hsel sr sc eq_refl).
    - now rewrite Hp. }
  split; [|exact Hno]. split.
  - intros Hf. unfold nothingToMove.
    destruct (getPiece (liveBoard c) fr fc) as [piece|] eqn:Hp.
    { rewrite (makeMove_accepts fr fc tr tc sp promo c piece Hp) in Hf. discriminate. }
    split; [reflexivity|]. intros sr sc Hs.
    destruct (getPiece (liveBoard c) sr sc) as [piece|] eqn:Hq; [|reflexivity].
    assert (E : makeMove fr fc tr tc sp promo c = makeMove sr sc tr tc sp promo c).
    { unfold makeMove. rewrite Hp, Hs, Hq. cbv beta iota. rewrite Hq. reflexivity. }
    rewrite E, (makeMove_accepts sr sc tr tc sp promo c piece Hq) in Hf. discriminate.
  - intros H. now rewrite (Hno H).
Qed.

End Rejection.

(** C8 (as the code has it).  At the latest move of a running game with no
    promotion pending, a click that is no acceptable move request leaves
    the board, the game state and the history unchanged, as
    [rejection_contract] spells out; [makeMove] itself refuses a request
    exactly when it finds no piece to move, on the source square or on
    the selected one, and then it changes nothing. *)
Theorem C8_rejected_requests_change_nothing (c : Layered.Controller) (row col : Z) :
  reachable c ->
  Layered.gameOver (Layered.gameState c) = false ->
  Layered.promotionPending (Layered.gameState c) = false ->
  Layered.currentMoveIndex (Layered.gameState c)
    = Z.of_nat (length (Layered.moveHistory (Layered.gameState c))) ->
  rejection_contract c row col.
Proof.
  intros Hr Hover Hpend Htip. apply reachable_ctrl_inv in Hr.
  assert (Hnav : (Layered.currentMoveIndex (Layered.gameState c)
                  <? Z.of_nat (length (Layered.moveHistory (Layered.gameState c)))) = false)
    by (apply Z.ltb_ge; lia).
  unfold rejection_contract. split; [|split; [|split]].
  - intros Hsel Hpiece. unfold Layered.handleSquareClick.
    rewrite Hover, Hpend, Hnav, Hsel. cbn [orb].
    destruct (Layered.getPiece (Layered.liveBoard c) row col) as [p|] eqn:Hp; [|reflexivity].
    destruct (Color_eqb (Layered.color p) _) eqn:E; [|reflexivity].
    apply Color_eqb_eq in E. now elim (Hpiece p).
  - intros [selectedRow selectedCol] Hsel Hfind. unfold Layered.handleSquareClick.
    rewrite Hover, Hpend, Hnav, Hsel, Hfind. cbn [orb].
    destruct (Layered.getPiece (Layered.liveBoard c) row col) as [p|];
      [|apply same_position_selection].
    destruct (Color_eqb (Layered.color p) _); [|apply same_position_selection].
    destruct (selectPiece_frame row col c Hr) as (s & l & ->).
    apply same_position_selection.
  - intros toRow toCol specialMove promotionPiece. apply makeMove_refuses.
  - intros p Hp Hc. now apply (selectPiece_moves row col c p).
Qed.

(** The four parts at the start of a game.  (a) A click on the empty
    square d5, and one on the black pawn on e7, change nothing.  (b) With
    the pawn on e2 selected, a click on d5, which is none of its moves,
    leaves the position as it is.  (c) [makeMove] from the empty square d5
    is refused when nothing is selected, and is carried out, from e2, when
    the pawn on e2 is selected.  (d) Selecting e2 stores the legal moves of
    e2. *)
Lemma C8_rejections_at_the_start :
  let start := Layered.initialize Layered.newController in
  let selected := Layered.handleSquareClick 6 4 start in
  (Layered.handleSquareClick 3 3 start = start
   /\ Layered.handleSquareClick 1 4 start = start)
  /\ same_position selected (Layered.handleSquareClick 3 3 selected)
  /\ (Layered.makeMove 3 3 4 4 None None start = (false, start)
      /\ fst (Layered.makeMove 3 3 4 4 None None selected) <> false)
  /\ (Layered.selectedPiece (Layered.selectPiece 6 4 start) = Some (6, 4)
      /\ Layered.possibleMoves (Layered.selectPiece 6 4 start)
         = fst (Layered.calculateLegalMoves 6 4 (Layered.theValidator start))).
Proof.
  cbv zeta.
  pose proof (fun row col =>
                C8_rejected_requests_change_nothing
                  (Layered.initialize Layered.newController) row col
                  reach_initialize eq_refl eq_refl eq_refl) as Hstart.
  pose proof (fun row col =>
                C8_rejected_requests_change_nothing
                  (Layered.handleSquareClick 6 4 (Layered.initialize Layered.newController))
                  row col (reach_click _ 6 4 reach_initialize) eq_refl eq_refl eq_refl)
    as Hselected.
  split; [|split; [|split]].
  - split.
    + apply (proj1 (Hstart 3 3)); [reflexivity|]. intros p Hp. vm_compute in Hp. discriminate.
    + apply (proj1 (Hstart 1 4)); [reflexivity|]. intros p Hp. vm_compute in Hp.
      injection Hp as <-. vm_compute. discriminate.
  - apply (proj1 (proj2 (Hselected 3 3)) (6, 4)); vm_compute; reflexivity.
  - split.
    + apply (proj2 (proj1 (proj2 (proj2 (Hstart 3 3))) 4 4 None None)).
      split; [vm_compute; reflexivity|]. intros sr sc Hs. vm_compute in Hs. discriminate.
    + intros Hf.
      apply (proj1 (proj1 (proj1 (proj2 (proj2 (Hselected 3 3))) 4 4 None None))) in Hf.
      destruct Hf as [_ Hf]. specialize (Hf 6 4 eq_refl). vm_compute in Hf. discriminate.
  - apply (proj2 (proj2 (proj2 (Hstart 6 4))) (Layered.createPiece pawn white));
      vm_compute; reflexivity.
Defined.

(* ====================================================================== *)
(** * Where the engines depart from the specification *)
(* ====================================================================== *)

Lemma reachable_clicks squares c : reachable c -> reachable (Layered_clicks squares c).
Proof.
  revert c. induction squares as [|[row col] rest IH]; intros c Hc; [exact Hc|].
  apply IH. now apply reach_click.
Qed.

Ltac evaluate := vm_compute; repeat first [reflexivity | left; reflexivity | right].

(** Conjunctions of facts about concrete games, settled by evaluation. *)
Ltac evaluate_all :=
  repeat match goal with |- _ /\ _ => split end; evaluate.

(** C1.  Both engines accept moves after which the mover's own king is
    attacked.  Monolithic: after 1. e4 d5 2. Ke2 d4 the move Ke3 is in the
    legal-move set of e2, and on e3 the king stands on a square the pawn
    on d4 attacks (the engine's detector looks for pawns on the wrong
    side of the square, see C3).  Layered: after a navigation the
    validator still examines the board object it was constructed with,
    while moves are played on the controller's new board; with the black
    king in check from h5, a7-a6 is in the legal-move set the validator
    returns, is played, and the king is still attacked, also by the
    engine's own detector run on the live board. *)
Theorem C1_accepted_move_leaves_king_attacked :
  (let g := Mono_pawn_on_d4 in
   let g' := Mono.makeMove 6 4 5 4 None g in
   Mono.currentPlayer g = white
   /\ In (5, 4) (fst (Mono.calculateLegalMoves 6 4 g))
   /\ cell (Mono.board g') 5 4 = Some (king, white)
   /\ Rules.attacked (Mono.board g') (5, 4) white = true)
  /\
  (let c := Layered_check_after_navigation in
   let c' := Layered.handleSquareClick 2 0 (Layered.handleSquareClick 1 0 c) in
   reachable c
   /\ Layered.currentPlayer (Layered.gameState c) = black
   /\ In (2, 0, None) (fst (Layered.calculateLegalMoves 1 0 (Layered.theValidator c)))
   /\ length (Layered.moveHistory (Layered.gameState c'))
      = S (length (Layered.moveHistory (Layered.gameState c)))
   /\ Layered.getPiece (Layered.liveBoard c') 0 4 = Some (Layered.createPiece king black)
   /\ Rules.attacked (Layered_position c') (0, 4) black = true
   /\ Layered.isSquareAttacked
        (Layered.mkValidator (Layered.liveBoard c') (Layered.gameState c')) 0 4 black = true).
Proof.
  split; cbv zeta.
  - evaluate_all.
  - split.
    + apply reachable_clicks, reach_goToMove, reachable_clicks, reach_initialize.
    + evaluate_all.
Qed.

(** C2.  The king of the layered engine offers castling without asking
    whether the square it passes is attacked, and the legality filter only
    tests the square it lands on.  After 1. e4 b6 2. g3 Ba6 3. Bg2 Nc6
    4. Nf3 Nf6 the bishop on a6 attacks f1; [King.getPossibleMoves] emits
    the kingside castling candidate, it is a legal move of e1, and the
    click on g1 castles. *)
Theorem C2_layered_castles_through_attack :
  let c := Layered_bishop_eyes_f1 in
  let c' := Layered_clicks [(7, 4); (7, 6)] c in
  reachable c
  /\ Rules.attacked (Layered_position c) (7, 5) white = true
  /\ Layered.isSquareAttacked (Layered.theValidator c) 7 5 white = true
  /\ In (7, 6, Some Layered.CASTLE_KINGSIDE)
        (Layered.King_getPossibleMoves (Layered.createPiece king white)
           (Layered.liveBoard c) 7 4 (Some (Layered.gameState c)))
  /\ In (7, 6, Some Layered.CASTLE_KINGSIDE)
        (fst (Layered.calculateLegalMoves 7 4 (Layered.theValidator c)))
  /\ Layered_position c' !! 7%nat
     = Some [Some (rook, white); Some (knight, white); Some (bishop, white);
             Some (queen, white); None; Some (rook, white); Some (king, white); None].
Proof.
  cbv zeta. split.
  - apply reachable_clicks, reach_initialize.
  - evaluate_all.
Qed.

(** C3.  Neither detector implements the attack patterns of the
    specification.  The monolithic one looks for an attacking pawn one row
    further along the pawn's own direction, that is, behind the square:
    with a single black pawn on d5 it reports c6 (no pawn attacks it) and
    misses c4 (which the pawn attacks).  The layered one asks every enemy
    piece for its possible moves: a pawn then "attacks" the empty square
    straight ahead of it (d4) and does not attack an empty
    forward-diagonal square (c4). *)
Theorem C3_detectors_disagree_with_the_patterns :
  let g := Mono.set_board lone_pawn_on_d5 Mono.newGame in
  let v := Layered.mkValidator Layered_lone_pawn_on_d5 Layered.newGameState in
  Layered.placement Layered_lone_pawn_on_d5 = lone_pawn_on_d5
  /\ (Rules.attacked lone_pawn_on_d5 (4, 2) white = true
      /\ Mono.isSquareAttacked g 4 2 white = false
      /\ Layered.isSquareAttacked v 4 2 white = false)
  /\ (Rules.attacked lone_pawn_on_d5 (2, 2) white = false
      /\ Mono.isSquareAttacked g 2 2 white = true)
  /\ (Rules.attacked lone_pawn_on_d5 (4, 3) white = false
      /\ Layered.isSquareAttacked v 4 3 white = true).
Proof. cbv zeta. evaluate_all. Qed.

(** C4.  In the layered engine [updateCastlingRights] reads the
    destination square after the move has been played, so it sees the
    capturing piece, not the captured rook.  After 1. Nf3 a6 2. Ng5 a5
    3. Nxf7 a4 4. Nxh8 the rook has been captured on its original square
    and Black still has the kingside castling right; the same clicks on
    the monolithic engine revoke it. *)
Theorem C4_layered_capture_keeps_castling_right :
  let before := Layered_clicks knight_to_f7 Layered_start in
  let after := Layered_clicks [(1, 5); (0, 7)] before in
  reachable before
  /\ Layered.getPiece (Layered.liveBoard before) 0 7 = Some (Layered.createPiece rook black)
  /\ In (0, 7, None) (fst (Layered.calculateLegalMoves 1 5 (Layered.theValidator before)))
  /\ Layered.getPiece (Layered.liveBoard after) 0 7
     = Some (Layered.mkPiece knight white true)
  /\ kingSide (of_black (Layered.castlingRights (Layered.gameState after))) = true
  /\ kingSide (of_black (Mono.castlingRights
                           (Mono_clicks (knight_to_f7 ++ [(1, 5); (0, 7)]) Mono.newGame)))
     = false.
Proof.
  cbv zeta. split.
  - apply reachable_clicks, reach_initialize.
  - evaluate_all.
Qed.

(** C7.  In the layered engine the replay fallback does not reproduce what
    the snapshot path gives.  After 1. e4, going to ply 1 through the
    snapshot leaves the en-passant target on e3, while [rebuildBoardState]
    installs the target recorded before the move (none); the boards agree
    here.  After castling they do not: the replay moves the rook with
    [setPiece], so the rook on f1 is not marked as moved, while the
    snapshot has it marked.  The monolithic engine, which always replays,
    loses the en-passant target in the same way. *)
Theorem C7_replay_differs_from_snapshot :
  (let c := Layered_clicks [(6, 4); (4, 4)] Layered_start in
   Layered.liveBoard (Layered.rebuildBoardState 1 c) = Layered.liveBoard (Layered.goToMove 1 c)
   /\ Layered.enPassantTarget (Layered.gameState (Layered.goToMove 1 c)) = Some (5, 4)
   /\ Layered.enPassantTarget (Layered.gameState (Layered.rebuildBoardState 1 c)) = None)
  /\
  (let c := Layered_clicks [(7, 4); (7, 6)] Layered_bishop_eyes_f1 in
   Layered.currentMoveIndex (Layered.gameState c) = 9
   /\ Layered.getPiece (Layered.liveBoard (Layered.goToMove 9 c)) 7 5
      = Some (Layered.mkPiece rook white true)
   /\ Layered.getPiece (Layered.liveBoard (Layered.rebuildBoardState 9 c)) 7 5
      = Some (Layered.mkPiece rook white false))
  /\
  (let g := Mono_clicks [(6, 4); (4, 4)] Mono.newGame in
   Mono.board (Mono.goToMove 1 g) = Mono.board g
   /\ Mono.enPassantTarget g = Some (5, 4)
   /\ Mono.enPassantTarget (Mono.goToMove 1 g) = None).
Proof. cbv zeta. evaluate_all. Qed.

(** C8, as stated, fails for [makeMove]: at the start position, with White
    to move, the request to move the black pawn from e7 to e5 is carried
    out, and so is the request to move the white pawn from e2 to e6, which
    is not among the legal moves of e2.  Both return [true] and both
    change the board and the history. *)
Lemma C8_makeMove_checks_neither_turn_nor_legality :
  let c := Layered_start in
  let black_pawn := Layered.makeMove 1 4 3 4 None None c in
  let jump := Layered.makeMove 6 4 2 4 None None c in
  Layered.currentPlayer (Layered.gameState c) = white
  /\ Layered.getPiece (Layered.liveBoard c) 1 4 = Some (Layered.createPiece pawn black)
  /\ fst black_pawn = true
  /\ Layered.getPiece (Layered.liveBoard (snd black_pawn)) 3 4
     = Some (Layered.mkPiece pawn black true)
  /\ length (Layered.moveHistory (Layered.gameState (snd black_pawn))) = 1%nat
  /\ fst (Layered.calculateLegalMoves 6 4 (Layered.theValidator c))
     = [(5, 4, None); (4, 4, None)]
  /\ fst jump = true
  /\ Layered.getPiece (Layered.liveBoard (snd jump)) 2 4
     = Some (Layered.mkPiece pawn white true)
  /\ length (Layered.moveHistory (Layered.gameState (snd jump))) = 1%nat.
Proof. cbv zeta. evaluate_all. Qed.

(** C9.  The parser of the layered engine takes the first piece of the
    right colour and kind in row-major order and never asks for its legal
    moves.  At the start position the token [e4] is decoded as a move of
    the pawn on a2, although e4 is no legal move of a2 and is one of e2;
    the loader then puts the a-pawn on e4.  The parser of pgn.js moves the
    e-pawn. *)
Theorem C9_layered_parser_ignores_legal_moves :
  let c := Layered_start in
  Layered.parseAlgebraicNotation "e4" white (Layered.liveBoard c) (Layered.gameState c)
  = Layered.Parsed (Layered.mkParsedMove (6, 0) (Some 4, Some 4) pawn None false None)
  /\ fst (Layered.calculateLegalMoves 6 0 (Layered.theValidator c))
     = [(5, 0, None); (4, 0, None)]
  /\ fst (Layered.calculateLegalMoves 6 4 (Layered.theValidator c))
     = [(5, 4, None); (4, 4, None)]
  /\ Layered.getPiece (Layered.liveBoard (Layered.loadToken "e4" white c)) 6 0 = None
  /\ Layered.getPiece (Layered.liveBoard (Layered.loadToken "e4" white c)) 6 4
     = Some (Layered.createPiece pawn white)
  /\ Layered.getPiece (Layered.liveBoard (Layered.loadToken "e4" white c)) 4 4
     = Some (Layered.mkPiece pawn white true)
  /\ cell (Mono.board (snd (Mono.processAlgebraicNotation "e4" Mono.newGame))) 6 4 = None
  /\ cell (Mono.board (snd (Mono.processAlgebraicNotation "e4" Mono.newGame))) 6 0
     = Some (pawn, white).
Proof. cbv zeta. evaluate_all. Qed.
(* ====================================================================== *)
(** * Eight iterations are enough for every ray *)
(* ====================================================================== *)

Lemma unit_step_leaves_board r c dr dc k :
  unitDirection dr dc ->
  isInBounds r c = true ->
  stepsToEdge r c dr dc <= Z.of_nat (S k) ->
  1 <= stepsToEdge r c dr dc
  /\ (isInBounds (r + dr) (c + dc) = true ->
      stepsToEdge (r + dr) (c + dc) dr dc <= Z.of_nat k).
Proof.
  intros (Hr & Hc & Hnz) Hb Hk. apply isInBounds_spec in Hb.
  unfold stepsToEdge in *.
  split.
  - destruct Hr as [-> | [-> | ->]], Hc as [-> | [-> | ->]]; cbn; lia.
  - intros Hb'. apply isInBounds_spec in Hb'.
    destruct Hr as [-> | [-> | ->]], Hc as [-> | [-> | ->]]; cbn in *; lia.
Qed.

Lemma stepsToEdge_le_8 r c dr dc :
  unitDirection dr dc -> isInBounds r c = true -> stepsToEdge r c dr dc <= 8.
Proof.
  intros (Hr & Hc & Hnz) Hb. apply isInBounds_spec in Hb. unfold stepsToEdge.
  destruct Hr as [-> | [-> | ->]], Hc as [-> | [-> | ->]]; cbn; lia.
Qed.

Lemma Mono_ray_fuel b color dr dc :
  unitDirection dr dc ->
  forall k n r c,
    (isInBounds r c = true ->
     stepsToEdge r c dr dc <= Z.of_nat k /\ stepsToEdge r c dr dc <= Z.of_nat n) ->
    Mono.ray k b color r c dr dc = Mono.ray n b color r c dr dc.
Proof.
  intros Hd. induction k as [|k IH]; intros [|n] r c H; cbn [Mono.ray]; try reflexivity;
    destruct (isInBounds r c) eqn:Hb; try reflexivity.
  - destruct (H eq_refl) as [H0 _].
    destruct (unit_step_leaves_board r c dr dc 0 Hd Hb); lia.
  - destruct (H eq_refl) as [_ H0].
    destruct (unit_step_leaves_board r c dr dc 0 Hd Hb); lia.
  - destruct (H eq_refl) as [Hk Hn].
    destruct (cell b r c); [reflexivity|]. f_equal. apply IH. intros Hb'.
    split; [eapply (unit_step_leaves_board r c dr dc k)|
            eapply (unit_step_leaves_board r c dr dc n)]; eauto.
Qed.

Lemma Mono_attackRay_fuel b attacker dr dc :
  unitDirection dr dc ->
  forall k n r c,
    (isInBounds r c = true ->
     stepsToEdge r c dr dc <= Z.of_nat k /\ stepsToEdge r c dr dc <= Z.of_nat n) ->
    Mono.attackRay k b attacker r c dr dc = Mono.attackRay n b attacker r c dr dc.
Proof.
  intros Hd. induction k as [|k IH]; intros [|n] r c H; cbn [Mono.attackRay];
    try reflexivity; destruct (isInBounds r c) eqn:Hb; try reflexivity.
  - destruct (H eq_refl) as [H0 _].
    destruct (unit_step_leaves_board r c dr dc 0 Hd Hb); lia.
  - destruct (H eq_refl) as [_ H0].
    destruct (unit_step_leaves_board r c dr dc 0 Hd Hb); lia.
  - destruct (H eq_refl) as [Hk Hn].
    destruct (cell b r c); [reflexivity|]. apply IH. intros Hb'.
    split; [eapply (unit_step_leaves_board r c dr dc k)|
            eapply (unit_step_leaves_board r c dr dc n)]; eauto.
Qed.

Lemma Layered_slide_fuel self b dr dc :
  unitDirection dr dc ->
  forall k n r c,
    (isInBounds r c = true ->
     stepsToEdge r c dr dc <= Z.of_nat k /\ stepsToEdge r c dr dc <= Z.of_nat n) ->
    Layered.slide k self b r c dr dc = Layered.slide n self b r c dr dc.
Proof.
  intros Hd. induction k as [|k IH]; intros [|n] r c H; cbn [Layered.slide];
    try reflexivity; destruct (isInBounds r c) eqn:Hb; try reflexivity.
  - destruct (H eq_refl) as [H0 _].
    destruct (unit_step_leaves_board r c dr dc 0 Hd Hb); lia.
  - destruct (H eq_refl) as [_ H0].
    destruct (unit_step_leaves_board r c dr dc 0 Hd Hb); lia.
  - destruct (H eq_refl) as [Hk Hn].
    destruct (Layered.isEmpty b r c); [|reflexivity]. f_equal. apply IH. intros Hb'.
    split; [eapply (unit_step_leaves_board r c dr dc k)|
            eapply (unit_step_leaves_board r c dr dc n)]; eauto.
Qed.

Lemma Rules_rayAttacks_fuel pos target dr dc :
  unitDirection dr dc ->
  forall k n r c,
    (isInBounds r c = true ->
     stepsToEdge r c dr dc <= Z.of_nat k /\ stepsToEdge r c dr dc <= Z.of_nat n) ->
    Rules.rayAttacks k pos r c dr dc target = Rules.rayAttacks n pos r c dr dc target.
Proof.
  intros Hd. induction k as [|k IH]; intros [|n] r c H; cbn [Rules.rayAttacks];
    try reflexivity; destruct (isInBounds r c) eqn:Hb; try reflexivity.
  - destruct (H eq_refl) as [H0 _].
    destruct (unit_step_leaves_board r c dr dc 0 Hd Hb); lia.
  - destruct (H eq_refl) as [_ H0].
    destruct (unit_step_leaves_board r c dr dc 0 Hd Hb); lia.
  - destruct (H eq_refl) as [Hk Hn]. cbn [andb]. do 2 f_equal. apply IH. intros Hb'.
    split; [eapply (unit_step_leaves_board r c dr dc k)|
            eapply (unit_step_leaves_board r c dr dc n)]; eauto.
Qed.

(** The loops of the source run until the ray leaves the board; the
    models stop after [rayFuel] iterations.  More iterations change
    nothing: every ray has left the board by then. *)
Theorem rays_end_within_rayFuel (dr dc : Z) (n : nat) (r c : Z) :
  unitDirection dr dc -> (rayFuel <= n)%nat ->
  (forall b color, Mono.ray n b color r c dr dc = Mono.ray rayFuel b color r c dr dc)
  /\ (forall b attacker,
         Mono.attackRay n b attacker r c dr dc = Mono.attackRay rayFuel b attacker r c dr dc)
  /\ (forall self b,
         Layered.slide n self b r c dr dc = Layered.slide rayFuel self b r c dr dc)
  /\ (forall pos target,
         Rules.rayAttacks n pos r c dr dc target
         = Rules.rayAttacks rayFuel pos r c dr dc target).
Proof.
  intros Hd Hn. unfold rayFuel in *.
  assert (H : isInBounds r c = true ->
              stepsToEdge r c dr dc <= Z.of_nat n /\ stepsToEdge r c dr dc <= Z.of_nat 8).
  { intros Hb. pose proof (stepsToEdge_le_8 r c dr dc Hd Hb). lia. }
  repeat split; intros.
  - now apply Mono_ray_fuel.
  - now apply Mono_attackRay_fuel.
  - now apply Layered_slide_fuel.
  - now apply Rules_rayAttacks_fuel.
Qed.

Lemma directions_are_unit :
  Forall (fun d => unitDirection (fst d) (snd d))
         (Mono.straightDirections ++ Mono.diagonalDirections
          ++ Layered.Queen_directions ++ Rules.orthogonal ++ Rules.diagonal).
Proof.
  cbn. repeat (apply List.Forall_cons; [unfold unitDirection; cbn; lia|]).
  apply List.Forall_nil.
Qed.

(** A ray along the first rank from a1, with nine iterations. *)
Lemma rays_with_nine_iterations :
  (forall b color, Mono.ray 9 b color 7 0 0 1 = Mono.ray rayFuel b color 7 0 0 1)
  /\ (forall b attacker,
         Mono.attackRay 9 b attacker 7 0 0 1 = Mono.attackRay rayFuel b attacker 7 0 0 1)
  /\ (forall self b, Layered.slide 9 self b 7 0 0 1 = Layered.slide rayFuel self b 7 0 0 1)
  /\ (forall pos target,
         Rules.rayAttacks 9 pos 7 0 0 1 target = Rules.rayAttacks rayFuel pos 7 0 0 1 target).
Proof.
  apply (rays_end_within_rayFuel 0 1 9 7 0).
  - unfold unitDirection. lia.
  - unfold rayFuel. lia.
Defined.

(* ====================================================================== *)
(** * The monolithic engine: castling, castling rights, the PGN search *)
(* ====================================================================== *)

Section MonoExtras.
Import Mono.

Lemma steps_offset g row col color offsets r c :
  In (r, c) (steps g row col color offsets) ->
  exists off, In off offsets /\ r = row + fst off /\ c = col + snd off
              /\ isInBounds r c = true.
Proof.
  unfold steps. rewrite in_flat_map. intros ([dr dc] & Hin & H).
  exists (dr, dc). cbn [fst snd]. split; [exact Hin|].
  destruct (isInBounds (row + dr) (col + dc)) eqn:Hb; [|destruct H].
  destruct (cell (board g) (row + dr) (col + dc)) as [p|].
  - destruct (negb (endsWith p color)); [|destruct H].
    destruct H as [H|[]]. injection H as <- <-. now rewrite Hb.
  - destruct H as [H|[]]. injection H as <- <-. now rewrite Hb.
Qed.

Lemma king_step_is_short g row col color r c :
  In (r, c) (steps g row col color kingOffsets) -> -1 <= c - col <= 1.
Proof.
  intros H. apply steps_offset in H as (off & Hin & _ & -> & _).
  unfold kingOffsets in Hin. cbn in Hin.
  repeat (destruct Hin as [<-|Hin]; [cbn; lia|]). destruct Hin.
Qed.

End MonoExtras.

(** Splits a conjunction of guards of [calculateKingMoves] into its parts. *)
Ltac guards E :=
  repeat match type of E with _ && _ = true => apply andb_true_iff in E as [E ?] end;
  repeat match goal with
         | H : _ && _ = true |- _ => apply andb_true_iff in H as [? ?]
         | H : negb _ = true |- _ => apply negb_true_iff in H
         | H : is_Some_b ?x = false |- _ =>
             assert (x = None) by (destruct x; [discriminate H|reflexivity]); clear H
         end.

(** [calculateKingMoves] offers a castling move only to a king on its
    original square whose check flag is off, when the right of that side
    is granted, the squares between king and rook are empty, and the
    engine's detector reports none of the king's square, the square it
    passes and the square it lands on as attacked. *)
Theorem Mono_castling_candidate_is_guarded
    (g : Mono.Game) (row col : Z) (color : Color) (side : Side) :
  In (row, castlingTarget col side) (Mono.calculateKingMoves g row col color) ->
  (row, col) = kingHome color
  /\ at_color (Mono.isInCheck g) color = false
  /\ granted (at_color (Mono.castlingRights g) color) side = true
  /\ Forall (fun c => cell (Mono.board g) row c = None) (castlingBetween col side)
  /\ Forall (fun c => Mono.isSquareAttacked g row c color = false) (castlingPath col side).
Proof.
  unfold Mono.calculateKingMoves. rewrite in_app_iff. intros [H|H].
  { apply king_step_is_short in H. destruct side; cbn in H; lia. }
  destruct (Mono.canCastle g row col color) eqn:Hc; [|destruct H].
  assert (Hhome : (row, col) = kingHome color
                  /\ at_color (Mono.isInCheck g) color = false).
  { unfold Mono.canCastle in Hc. destruct color; cbn;
      apply andb_true_iff in Hc as [Hc Hk]; apply andb_true_iff in Hc as [Hr Hcol];
      apply Z.eqb_eq in Hr, Hcol; apply negb_true_iff in Hk; subst; now split. }
  destruct Hhome as [Hh Hk]. split; [exact Hh|]. split; [exact Hk|].
  rewrite in_app_iff in H.
  destruct side; cbn [castlingTarget granted castlingBetween castlingPath].
  - destruct H as [H|H].
    + destruct (kingSide _ && _ && _ && _) eqn:E in H; [|destruct H].
      guards E. split; [assumption|]. split; repeat constructor; assumption.
    + destruct (queenSide _ && _ && _ && _ && _) in H; [|destruct H].
      destruct H as [H|[]]. injection H as H. lia.
  - destruct H as [H|H].
    + destruct (kingSide _ && _ && _ && _) in H; [|destruct H].
      destruct H as [H|[]]. injection H as H. lia.
    + destruct (queenSide _ && _ && _ && _ && _) eqn:E in H; [|destruct H].
      guards E. split; [assumption|]. split; repeat constructor; assumption.
Qed.
Section MonoRights.
Import Mono.

Lemma castlingRights_checkGameEndConditions g :
  castlingRights (checkGameEndConditions g) = castlingRights g.
Proof.
  unfold checkGameEndConditions, playerHasLegalMoves.
  pose proof (Mono_anyLegal_restores (currentPlayer g) allSquares g) as H.
  destruct (anyLegal (currentPlayer g) allSquares g) as [has g1]. cbn in H. subst g1.
  destruct (negb has); destruct (at_color (isInCheck g) (currentPlayer g)); reflexivity.
Qed.

Lemma castlingRights_finishMove o g :
  castlingRights (finishMove o g) = castlingRights g.
Proof.
  unfold finishMove. cbv zeta.
  change (castlingRights (checkGameEndConditions (updateCheckFlags (set_currentPlayer o g)))
          = castlingRights g).
  now rewrite castlingRights_checkGameEndConditions.
Qed.

Lemma castlingRights_movePiece piece fromRow fromCol toRow toCol promotionPiece g :
  castlingRights (movePiece piece fromRow fromCol toRow toCol promotionPiece g)
  = castlingRights g.
Proof. unfold movePiece. now destruct (promotedPieceOf piece toRow promotionPiece). Qed.

Lemma castlingRights_recordMove piece fromRow fromCol toRow toCol captured promotionPiece
    old g :
  castlingRights (recordMove piece fromRow fromCol toRow toCol captured promotionPiece old g)
  = castlingRights g.
Proof.
  unfold recordMove. cbv zeta.
  destruct captured; [|reflexivity].
  now destruct (enPassantCaptureOf piece fromCol toRow toCol (Some p)).
Qed.

Lemma granted_revoke c side g :
  granted (at_color (castlingRights (revoke c side g)) c) side = false.
Proof.
  unfold revoke. cbv zeta.
  change (castlingRights (set_castlingRights ?r g)) with r.
  rewrite at_set_color, Color_eqb_refl. now destruct side.
Qed.

Lemma updateCastlingRights_capture piece fromRow fromCol toRow toCol owner side g :
  (toRow, toCol) = corner owner side ->
  granted (at_color (castlingRights
                       (updateCastlingRights piece fromRow fromCol toRow toCol
                                             (Some (rook, owner)) g)) owner) side = false.
Proof.
  intros Hc. unfold updateCastlingRights. cbv zeta.
  destruct owner, side; injection Hc as -> ->; cbn [Z.eqb Pos.eqb andb];
    apply granted_revoke.
Qed.

End MonoRights.

(** In [makeMove] of the monolithic engine, a move onto a square holding a
    rook that stands on its original corner revokes the right of that
    rook's owner on that side, whatever piece moves and whatever the rook
    did before. *)
Theorem Mono_capture_of_corner_rook_revokes
    (g : Mono.Game) (fromRow fromCol toRow toCol : Z) (promotionPiece : option Kind)
    (piece : Mono.Piece) (owner : Color) (side : Side) :
  cell (Mono.board g) fromRow fromCol = Some piece ->
  cell (Mono.board g) toRow toCol = Some (rook, owner) ->
  (toRow, toCol) = corner owner side ->
  granted (at_color (Mono.castlingRights
                       (Mono.makeMove fromRow fromCol toRow toCol promotionPiece g)) owner)
          side = false.
Proof.
  intros Hp Hr Hc. unfold Mono.makeMove. rewrite Hp, Hr. cbv zeta.
  rewrite castlingRights_finishMove, castlingRights_movePiece, castlingRights_recordMove.
  now apply updateCastlingRights_capture.
Qed.

(** 4. Nxh8 after 1. Nf3 a6 2. Ng5 a5 3. Nxf7 a4. *)
Lemma Mono_knight_takes_rook_on_h8 :
  granted (at_color (Mono.castlingRights
                       (Mono.makeMove 1 5 0 7 None (Mono_clicks knight_to_f7 Mono.newGame)))
                    black) kingside = false.
Proof.
  apply (Mono_capture_of_corner_rook_revokes
           (Mono_clicks knight_to_f7 Mono.newGame) 1 5 0 7 None (knight, white)
           black kingside); vm_compute; reflexivity.
Defined.

Lemma Mono_findAndMove_first
    (t : San.Token) (color : Color) (squares : list Square) (g : Mono.Game) :
  Mono.findAndMove t color squares g
  = match find (Mono_qualifies t color g) squares with
    | Some (row, col) =>
        (true,
         match San.destRow t, San.destCol t with
         | Some destRow, Some destCol =>
             Mono.makeMove row col destRow destCol (San.promotionPiece t) g
         | _, _ => g
         end)
    | None => (false, g)
    end.
Proof.
  induction squares as [|[row col] rest IH]; [reflexivity|].
  cbn [Mono.findAndMove find]. unfold Mono_qualifies at 1.
  destruct (cell (Mono.board g) row col) as [piece|]; [|exact IH].
  destruct (Mono.endsWith piece color && Mono.startsWith piece (San.pieceType t)
            && San.matchesSource t row col); cbn [andb]; [|exact IH].
  pose proof (Mono_calculateLegalMoves_restores row col g) as Hr.
  destruct (Mono.calculateLegalMoves row col g) as [legal g1]. cbn [fst snd] in *. subst g1.
  destruct (Mono.canMoveTo legal (San.destRow t) (San.destCol t)); [|exact IH].
  destruct (San.destRow t), (San.destCol t); reflexivity.
Qed.

(** The search loop of pgn.js moves the first square, in the order the
    squares are visited, that [Mono_qualifies]: right colour and kind,
    source constraints met, destination among its legal moves.  It
    answers [false] and changes nothing when no square qualifies. *)
Theorem Mono_findAndMove_takes_first_match
    (t : San.Token) (color : Color) (squares : list Square) (g : Mono.Game) :
  Mono.findAndMove t color squares g
  = match find (Mono_qualifies t color g) squares with
    | Some (row, col) =>
        (true,
         match San.destRow t, San.destCol t with
         | Some destRow, Some destCol =>
             Mono.makeMove row col destRow destCol (San.promotionPiece t) g
         | _, _ => g
         end)
    | None => (false, g)
    end.
Proof. apply Mono_findAndMove_first. Qed.

(** After 1. e4 e5 2. Nf3 Nc6 3. Bc4 Bc5 the king on e1 is offered g1. *)
Lemma Mono_castling_in_the_italian_opening :
  (7, 4) = kingHome white
  /\ at_color (Mono.isInCheck (Mono_clicks italian_opening Mono.newGame)) white = false
  /\ granted (at_color (Mono.castlingRights (Mono_clicks italian_opening Mono.newGame))
                       white) kingside = true
  /\ Forall (fun c => cell (Mono.board (Mono_clicks italian_opening Mono.newGame)) 7 c = None)
            (castlingBetween 4 kingside)
  /\ Forall (fun c => Mono.isSquareAttacked (Mono_clicks italian_opening Mono.newGame)
                        7 c white = false)
            (castlingPath 4 kingside).
Proof.
  apply (Mono_castling_candidate_is_guarded
           (Mono_clicks italian_opening Mono.newGame) 7 4 white kingside).
  vm_compute. repeat first [left; reflexivity | right].
Defined.

(* ====================================================================== *)
(** * Candidate and legal moves stay on the board *)
(* ====================================================================== *)

(** Case analysis on the conditionals and matches a list membership
    depends on. *)
Ltac in_cases H :=
  repeat match type of H with
         | In _ (if ?c then _ else _) => destruct c eqn:?
         | In _ (match ?x with _ => _ end) => destruct x eqn:?
         | In _ (_ ++ _) => apply in_app_iff in H as [H|H]
         | In _ (_ :: _) => destruct H as [H|H]
         | In _ [] => destruct H
         end.

Section MonoBounds.
Import Mono.

Lemma ray_onBoard fuel b color r c dr dc sq :
  In sq (ray fuel b color r c dr dc) -> onBoard sq.
Proof.
  revert r c. induction fuel as [|fuel IH]; intros r c H; [destruct H|].
  cbn [ray] in H. destruct (isInBounds r c) eqn:Hb; [|destruct H].
  destruct (cell b r c) as [p|].
  - destruct (negb (endsWith p color)); [|destruct H]. destruct H as [<-|[]]. exact Hb.
  - destruct H as [<-|H]; [exact Hb|]. now apply IH in H.
Qed.

Lemma rays_onBoard g row col color directions sq :
  In sq (rays g row col color directions) -> onBoard sq.
Proof.
  unfold rays. rewrite in_flat_map. intros ([dr dc] & _ & H). now apply ray_onBoard in H.
Qed.

Lemma steps_onBoard g row col color offsets sq :
  In sq (steps g row col color offsets) -> onBoard sq.
Proof. destruct sq as [r c]. intros H. now apply steps_offset in H as (_ & _ & _ & _ & H). Qed.

Lemma calculatePawnMoves_onBoard g row col color sq :
  In sq (calculatePawnMoves g row col color) -> onBoard sq.
Proof.
  unfold calculatePawnMoves. cbv zeta. rewrite in_app_iff. intros [H|H].
  - destruct (isInBounds _ col && _) eqn:E in H; [|destruct H].
    apply andb_true_iff in E as [Hb _]. destruct H as [<-|H]; [exact Hb|].
    destruct ((row =? _) && _) eqn:E in H; [|destruct H].
    apply andb_true_iff in E as [Hr _]. apply Z.eqb_eq in Hr.
    destruct H as [<-|[]]. unfold onBoard. cbn [fst snd].
    apply isInBounds_spec in Hb. apply isInBounds_spec. destruct color; lia.
  - apply in_flat_map in H as (colOffset & _ & H).
    destruct (isInBounds _ (col + colOffset)) eqn:Hb in H; [|destruct H].
    in_cases H; subst sq; exact Hb.
Qed.

Lemma calculateKingMoves_onBoard g row col color sq :
  In sq (calculateKingMoves g row col color) -> onBoard sq.
Proof.
  unfold calculateKingMoves. rewrite in_app_iff. intros [H|H].
  { now apply steps_onBoard in H. }
  destruct (canCastle g row col color) eqn:Hc; [|destruct H].
  assert (Hh : 0 <= row < 8 /\ col = 4).
  { unfold canCastle in Hc. destruct color;
      apply andb_true_iff in Hc as [Hc _]; apply andb_true_iff in Hc as [Hr Hcol];
      apply Z.eqb_eq in Hr, Hcol; lia. }
  in_cases H; subst sq; apply isInBounds_spec; cbn [fst snd]; lia.
Qed.

Lemma calculatePossibleMoves_onBoard g row col sq :
  In sq (calculatePossibleMoves g row col) -> onBoard sq.
Proof.
  unfold calculatePossibleMoves. destruct (cell (board g) row col) as [[type color]|];
    [|intros []].
  destruct type; intros H.
  - now apply calculatePawnMoves_onBoard in H.
  - now apply steps_onBoard in H.
  - now apply rays_onBoard in H.
  - now apply rays_onBoard in H.
  - apply in_app_iff in H as [H|H]; now apply rays_onBoard in H.
  - now apply calculateKingMoves_onBoard in H.
Qed.

Lemma Mono_filterLegal_subset row col piece color moves g sq :
  In sq (fst (filterLegal row col piece color moves g)) -> In sq moves.
Proof.
  revert g. induction moves as [|[toRow toCol] rest IH]; intros g H; [exact H|].
  cbn [filterLegal] in H.
  destruct (tryMove row col piece color toRow toCol g) as [ok g1].
  specialize (IH g1). destruct (filterLegal row col piece color rest g1) as [legal g2].
  cbn [fst] in *. destruct ok; [destruct H as [<-|H]|]; [now left|right; auto|right; auto].
Qed.

Lemma Mono_legal_onBoard row col g sq :
  In sq (fst (calculateLegalMoves row col g)) -> onBoard sq.
Proof.
  unfold calculateLegalMoves. destruct (cell (board g) row col) as [piece|]; [|intros []].
  intros H. apply Mono_filterLegal_subset in H. now apply calculatePossibleMoves_onBoard in H.
Qed.

End MonoBounds.
Section LayeredBounds.
Import Layered.

Lemma slide_onBoard fuel self b r c dr dc m :
  In m (slide fuel self b r c dr dc) -> onBoard (destination m).
Proof.
  revert r c. induction fuel as [|fuel IH]; intros r c H; [destruct H|].
  cbn [slide] in H. destruct (isInBounds r c) eqn:Hb; [|destruct H].
  destruct (isEmpty b r c).
  - destruct H as [<-|H]; [exact Hb|]. now apply IH in H.
  - destruct (isOpponentPiece self b r c); [|destruct H]. destruct H as [<-|[]]. exact Hb.
Qed.

Lemma slideAll_onBoard self b row col directions m :
  In m (slideAll self b row col directions) -> onBoard (destination m).
Proof.
  unfold slideAll. rewrite in_flat_map. intros ([dr dc] & _ & H).
  now apply slide_onBoard in H.
Qed.

Lemma stepAll_onBoard self b row col offsets m :
  In m (stepAll self b row col offsets) -> onBoard (destination m).
Proof.
  unfold stepAll. rewrite in_flat_map. intros ([dr dc] & _ & H).
  destruct (isInBounds (row + dr) (col + dc) && _) eqn:E in H; [|destruct H].
  apply andb_true_iff in E as [Hb _]. destruct H as [<-|[]]. exact Hb.
Qed.

Lemma Pawn_onBoard self b row col gameState m :
  In m (Pawn_getPossibleMoves self b row col gameState) -> onBoard (destination m).
Proof.
  unfold Pawn_getPossibleMoves. cbv zeta. rewrite in_app_iff. intros [H|H].
  - destruct (isInBounds _ col && _) eqn:E in H; [|destruct H].
    apply andb_true_iff in E as [Hb _]. destruct H as [<-|H]; [exact Hb|].
    destruct ((row =? _) && _) eqn:E in H; [|destruct H].
    apply andb_true_iff in E as [Hr _]. apply Z.eqb_eq in Hr.
    destruct H as [<-|[]]. unfold onBoard, destination, plain. cbn [fst snd].
    apply isInBounds_spec in Hb. apply isInBounds_spec. destruct (color self); lia.
  - apply in_flat_map in H as (colOffset & _ & H).
    destruct (isInBounds _ (col + colOffset)) eqn:Hb in H; [|destruct H].
    in_cases H; subst m; exact Hb.
Qed.

Lemma King_onBoard self b row col gameState m :
  isInBounds row col = true ->
  In m (King_getPossibleMoves self b row col gameState) -> onBoard (destination m).
Proof.
  intros Hin. apply isInBounds_spec in Hin.
  unfold King_getPossibleMoves. rewrite in_app_iff. intros [H|H].
  { now apply stepAll_onBoard in H. }
  destruct gameState as [gs|]; [|destruct H].
  destruct (negb (hasMoved self) && _) in H; [|destruct H].
  unfold addCastlingMoves, canCastleKingside, canCastleQueenside in H.
  apply in_app_iff in H as [H|H].
  - destruct (kingSide _ && _) eqn:E in H; [|destruct H].
    destruct H as [<-|[]].
    apply andb_true_iff in E as [_ E]. apply andb_true_iff in E as [E _].
    apply andb_true_iff in E as [_ E]. apply isInBounds_spec in E.
    apply isInBounds_spec. cbn [destination fst snd]. lia.
  - destruct (queenSide _ && _) eqn:E in H; [|destruct H].
    destruct H as [<-|[]].
    apply andb_true_iff in E as [_ E]. apply andb_true_iff in E as [E _].
    apply andb_true_iff in E as [_ E]. apply isInBounds_spec in E.
    apply isInBounds_spec. cbn [destination fst snd]. lia.
Qed.

Lemma getPossibleMoves_onBoard self b row col gameState m :
  isInBounds row col = true ->
  In m (getPossibleMoves self b row col gameState) -> onBoard (destination m).
Proof.
  intros Hin. unfold getPossibleMoves. destruct (type self); intros H.
  - now apply Pawn_onBoard in H.
  - now apply stepAll_onBoard in H.
  - now apply slideAll_onBoard in H.
  - now apply slideAll_onBoard in H.
  - now apply slideAll_onBoard in H.
  - now apply King_onBoard in H.
Qed.

Lemma filterLegal_subset row col moves v m :
  In m (fst (filterLegal row col moves v)) -> In m moves.
Proof.
  revert v. induction moves as [|[[toRow toCol] special] rest IH]; intros v H; [exact H|].
  cbn [filterLegal] in H.
  destruct (simulateMove row col toRow toCol special v) as [r v1].
  specialize (IH v1). destruct (filterLegal row col rest v1) as [legal v2]. cbn [fst] in *.
  destruct r as [[|]|]; [destruct H as [<-|H]; [now left|]|..]; right; auto.
Qed.

End LayeredBounds.

(** Boundary: every move in a legal-move set, of either engine, leads to
    a square of the board. *)
Theorem legal_moves_stay_on_the_board :
  (forall (g : Mono.Game) (row col : Z),
      Forall onBoard (fst (Mono.calculateLegalMoves row col g)))
  /\ (forall (v : Layered.Validator) (row col : Z),
         Forall (fun m => onBoard (destination m))
                (fst (Layered.calculateLegalMoves row col v))).
Proof.
  split; intros; apply List.Forall_forall.
  - intros sq H. now apply Mono_legal_onBoard in H.
  - intros m. unfold Layered.calculateLegalMoves.
    destruct (Layered.getPiece (Layered.v_board v) row col) as [piece|] eqn:Hp; [|intros []].
    destruct (negb _); [intros []|]. intros H. apply filterLegal_subset in H.
    apply getPossibleMoves_onBoard in H; [exact H|].
    unfold Layered.getPiece in Hp. now destruct (isInBounds row col).
Qed.

(* ====================================================================== *)
(** * Navigation through the history *)
(* ====================================================================== *)

Section LayeredNavigation.
Import Layered.

Lemma liveBoard_rebindBoard b c gs : liveBoard (set_gameState gs (rebindBoard b c)) = b.
Proof.
  unfold liveBoard, rebindBoard, deref. cbn.
  now rewrite lookup_total_app_r, Nat.sub_diag by lia.
Qed.

(** In a state that satisfies the invariant, [goToMove] with an index in
    range takes the snapshot path: the controller's board becomes a new
    object equal to snapshot [moveIndex], and only the game state changes
    besides. *)
Lemma goToMove_snapshot moveIndex c :
  ctrl_inv c ->
  0 <= moveIndex <= Z.of_nat (length (moveHistory (gameState c))) ->
  exists snapshot gs,
    boardStates (gameState c) !! Z.to_nat moveIndex = Some snapshot
    /\ goToMove moveIndex c = set_gameState gs (rebindBoard snapshot c)
    /\ moveHistory gs = moveHistory (gameState c)
    /\ boardStates gs = boardStates (gameState c)
    /\ currentMoveIndex gs = moveIndex
    /\ currentPlayer gs = (if Z.even moveIndex then white else black)
    /\ (moveIndex < Z.of_nat (length (moveHistory (gameState c))) ->
        gameOver gs = false /\ gameStatus gs = StatusNone).
Proof.
  intros Hinv Hrange. pose proof Hinv as (Hh & Hb & Hv & Hs & Hlen & Hidx).
  destruct (lookup_lt_is_Some_2 (boardStates (gameState c)) (Z.to_nat moveIndex))
    as [snapshot Hsnap]; [lia|].
  assert (Hw : wf_grid snapshot) by (eapply Forall_lookup_1; eauto).
  exists snapshot.
  unfold goToMove.
  replace ((moveIndex <? 0) || _) with false
    by (symmetry; apply orb_false_iff; split; apply Z.ltb_ge; lia).
  replace (moveIndex <=? _) with true by (symmetry; apply Z.leb_le; lia).
  rewrite Hsnap, Board_clone_id.
  set (c1 := rebindBoard snapshot c).
  assert (Hc1 : ctrl_inv c1) by now apply ctrl_inv_rebindBoard.
  set (gs := set_currentPlayer _ (set_currentMoveIndex moveIndex (gameState c1))).
  set (c2 := set_gameState gs c1).
  assert (Hc2 : ctrl_inv c2).
  { destruct Hc1 as (Hh1 & Hb1 & Hv1 & Hs1 & Hi1).
    repeat split; try assumption; cbn; try assumption; lia. }
  rewrite (storeValidator_updateCheckStatus c2).
  set (gs3 := v_gameState (updateCheckStatus (theValidator c2))).
  set (c3 := set_gameState gs3 c2).
  assert (Hc3 : ctrl_inv c3).
  { apply ctrl_inv_set_gameState; [assumption|]. apply (sh_updateCheckStatus (theValidator c2)). }
  change (length (moveHistory (gameState c3))) with (length (moveHistory (gameState c))).
  destruct (moveIndex =? _) eqn:Htip.
  - apply Z.eqb_eq in Htip.
    pose proof (storeValidator_checkGameEnd c3 Hc3) as Hend.
    destruct (checkGameEndConditions (theValidator c3)) as [[over status] v].
    cbn [snd] in Hend. rewrite Hend.
    exists (set_gameStatus status (set_gameOver over gs3)).
    split; [reflexivity|]. split; [reflexivity|].
    repeat split; try reflexivity; lia.
  - exists (set_gameStatus StatusNone (set_gameOver false gs3)).
    split; [reflexivity|]. split; [reflexivity|].
    repeat split; reflexivity.
Qed.

End LayeredNavigation.

(** Navigation restores the stored snapshot.  In every reachable state
    and for every ply [0 <= moveIndex <= len(moves)], after [goToMove] the
    controller's board is snapshot [moveIndex], the viewed ply is
    [moveIndex], White is to move exactly at the even plies, the recorded
    moves and snapshots are untouched, and behind the last move the game
    is not over.  (The index is always within the snapshot list, so the
    replay of [rebuildBoardState] is not used.) *)
Theorem goToMove_shows_the_snapshot (c : Layered.Controller) (moveIndex : Z) :
  reachable c ->
  0 <= moveIndex <= Z.of_nat (length (Layered.moveHistory (Layered.gameState c))) ->
  let c' := Layered.goToMove moveIndex c in
  Layered.boardStates (Layered.gameState c) !! Z.to_nat moveIndex
    = Some (Layered.liveBoard c')
  /\ Layered.moveHistory (Layered.gameState c') = Layered.moveHistory (Layered.gameState c)
  /\ Layered.boardStates (Layered.gameState c') = Layered.boardStates (Layered.gameState c)
  /\ Layered.currentMoveIndex (Layered.gameState c') = moveIndex
  /\ Layered.currentPlayer (Layered.gameState c') = (if Z.even moveIndex then white else black)
  /\ (moveIndex < Z.of_nat (length (Layered.moveHistory (Layered.gameState c))) ->
      Layered.gameOver (Layered.gameState c') = false
      /\ Layered.gameStatus (Layered.gameState c') = StatusNone).
Proof.
  intros Hr Hrange c'. subst c'. apply reachable_ctrl_inv in Hr.
  destruct (goToMove_snapshot moveIndex c Hr Hrange)
    as (snapshot & gs & Hsnap & -> & Hm & Hb & Hi & Hp & Hover).
  rewrite liveBoard_rebindBoard. cbn [Layered.gameState Layered.set_gameState].
  repeat split; try assumption; now apply Hover.
Qed.

Lemma goToMove_back_to_the_start :
  let c := Layered_clicks [(6, 4); (4, 4)] Layered_start in
  let c' := Layered.goToMove 0 c in
  Layered.boardStates (Layered.gameState c) !! Z.to_nat 0 = Some (Layered.liveBoard c')
  /\ Layered.moveHistory (Layered.gameState c') = Layered.moveHistory (Layered.gameState c)
  /\ Layered.boardStates (Layered.gameState c') = Layered.boardStates (Layered.gameState c)
  /\ Layered.currentMoveIndex (Layered.gameState c') = 0
  /\ Layered.currentPlayer (Layered.gameState c') = (if Z.even 0 then white else black)
  /\ (0 < Z.of_nat (length (Layered.moveHistory (Layered.gameState c))) ->
      Layered.gameOver (Layered.gameState c') = false
      /\ Layered.gameStatus (Layered.gameState c') = StatusNone).
Proof.
  apply (goToMove_shows_the_snapshot (Layered_clicks [(6, 4); (4, 4)] Layered_start) 0).
  - apply reachable_clicks, reach_initialize.
  - vm_compute. split; discriminate.
Defined.

(** Idempotence: going to a ply twice shows the same board as going there
    once, in every reachable state and for every index. *)
Theorem goToMove_twice_shows_the_same_board (c : Layered.Controller) (moveIndex : Z) :
  reachable c ->
  Layered.liveBoard (Layered.goToMove moveIndex (Layered.goToMove moveIndex c))
  = Layered.liveBoard (Layered.goToMove moveIndex c).
Proof.
  intros Hr. apply reachable_ctrl_inv in Hr.
  destruct (Z.ltb_spec moveIndex 0) as [Hlo|Hlo];
    [|destruct (Z.ltb_spec (Z.of_nat (length (Layered.moveHistory (Layered.gameState c))))
                           moveIndex) as [Hhi|Hhi]].
  - assert (E : Layered.goToMove moveIndex c = c).
    { unfold Layered.goToMove. now replace (moveIndex <? 0) with true
        by (symmetry; apply Z.ltb_lt; lia). }
    now rewrite !E.
  - assert (E : Layered.goToMove moveIndex c = c).
    { unfold Layered.goToMove.
      replace (_ <? moveIndex) with true by (symmetry; apply Z.ltb_lt; lia).
      now rewrite orb_true_r. }
    now rewrite !E.
  - pose proof (ctrl_inv_goToMove moveIndex c Hr) as Hr'.
    destruct (goToMove_snapshot moveIndex c Hr (conj Hlo Hhi))
      as (snapshot & gs & Hsnap & E & Hm & Hb & _).
    rewrite E in Hr' |- *.
    destruct (goToMove_snapshot moveIndex _ Hr') as (snapshot' & gs' & Hsnap' & E' & _).
    { cbn [Layered.gameState Layered.set_gameState]. rewrite Hm. lia. }
    cbn [Layered.gameState Layered.set_gameState] in Hsnap'.
    rewrite Hb, Hsnap in Hsnap'. injection Hsnap' as <-.
    rewrite E'. now rewrite !liveBoard_rebindBoard.
Qed.

Lemma goToMove_twice_after_e4 :
  Layered.liveBoard (Layered.goToMove 0 (Layered.goToMove 0
                       (Layered_clicks [(6, 4); (4, 4)] Layered_start)))
  = Layered.liveBoard (Layered.goToMove 0 (Layered_clicks [(6, 4); (4, 4)] Layered_start)).
Proof.
  apply (goToMove_twice_shows_the_same_board
           (Layered_clicks [(6, 4); (4, 4)] Layered_start) 0).
  apply reachable_clicks, reach_initialize.
Defined.
Section MonoNavigation.
Import Mono.

Lemma history_replayMove move g :
  moveHistory (replayMove move g) = moveHistory g
  /\ boardStates (replayMove move g) = boardStates g.
Proof.
  unfold replayMove. destruct (m_from move) as [fromRow fromCol].
  destruct (m_to move) as [toRow toCol]. cbv zeta.
  repeat match goal with
         | |- context [match ?x with _ => _ end] => destruct x
         end; split; reflexivity.
Qed.

Lemma history_replayMoves moves g :
  moveHistory (replayMoves moves g) = moveHistory g
  /\ boardStates (replayMoves moves g) = boardStates g.
Proof.
  unfold replayMoves. revert g. induction moves as [|move rest IH]; intros g; [now split|].
  cbn [fold_left]. destruct (IH (replayMove move g)) as [-> ->]. apply history_replayMove.
Qed.

Lemma checkGameEndConditions_frame g :
  exists (over : bool) (status : Status),
    checkGameEndConditions g = set_gameStatus status (if over then set_gameOver true g else g).
Proof.
  unfold checkGameEndConditions, playerHasLegalMoves.
  pose proof (Mono_anyLegal_restores (currentPlayer g) allSquares g) as H.
  destruct (anyLegal (currentPlayer g) allSquares g) as [has g1]. cbn in H. subst g1.
  destruct (negb has); destruct (at_color (isInCheck g) (currentPlayer g)).
  - now exists true, (StatusCheckmate (opponent (currentPlayer g))).
  - now exists true, StatusStalemate.
  - now exists false, (StatusCheck (currentPlayer g)).
  - now exists false, StatusNone.
Qed.

End MonoNavigation.

Lemma Mono_goToMove_spec (g : Mono.Game) (moveIndex : Z) :
  (0 <= moveIndex <= Z.of_nat (length (Mono.moveHistory g)) ->
   let g' := Mono.goToMove moveIndex g in
   Mono.currentMoveIndex g' = moveIndex
   /\ Mono.currentPlayer g' = (if Z.even moveIndex then white else black)
   /\ Mono.moveHistory g' = Mono.moveHistory g
   /\ Mono.boardStates g' = Mono.boardStates g
   /\ (moveIndex < Z.of_nat (length (Mono.moveHistory g)) ->
       Mono.gameOver g' = false /\ Mono.gameStatus g' = StatusNone))
  /\ (moveIndex < 0 \/ Z.of_nat (length (Mono.moveHistory g)) < moveIndex ->
      Mono.goToMove moveIndex g = g).
Proof.
  split.
  - intros Hrange. unfold Mono.goToMove.
    replace ((moveIndex <? 0) || _) with false
      by (symmetry; apply orb_false_iff; split; apply Z.ltb_ge; lia).
    cbv zeta.
    match goal with
    | |- context [Mono.replayMoves ?l ?h] =>
        destruct (history_replayMoves l h) as [Hm Hb]; set (r := Mono.replayMoves l h) in *
    end.
    change (Mono.moveHistory r = Mono.moveHistory g) in Hm.
    change (Mono.boardStates r = Mono.boardStates g) in Hb.
    set (u := Mono.updateCheckFlags _).
    assert (Hu : Mono.currentMoveIndex u = moveIndex
                 /\ Mono.currentPlayer u = (if Z.even moveIndex then white else black)
                 /\ Mono.moveHistory u = Mono.moveHistory g
                 /\ Mono.boardStates u = Mono.boardStates g).
    { subst u. repeat split; try reflexivity; assumption. }
    destruct Hu as (Hi & Hp & Hmu & Hbu). rewrite Hmu.
    destruct (moveIndex =? _) eqn:Htip.
    + apply Z.eqb_eq in Htip.
      destruct (checkGameEndConditions_frame u) as (over & status & ->).
      destruct over; repeat split; try assumption; lia.
    + repeat split; try assumption; reflexivity.
  - intros Hout. unfold Mono.goToMove.
    replace ((moveIndex <? 0) || _) with true; [reflexivity|].
    symmetry. apply orb_true_iff. destruct Hout; [left|right]; apply Z.ltb_lt; lia.
Qed.

(** Navigation in the monolithic engine: for [0 <= moveIndex <= len(moves)],
    [goToMove] sets the viewed ply to [moveIndex], gives the move to White
    exactly at the even plies and leaves the recorded moves and snapshots
    untouched; behind the last move the game is not over and the status
    is cleared.  Outside that range it changes nothing. *)
Theorem Mono_goToMove_sets_the_viewed_ply (g : Mono.Game) (moveIndex : Z) :
  (0 <= moveIndex <= Z.of_nat (length (Mono.moveHistory g)) ->
   let g' := Mono.goToMove moveIndex g in
   Mono.currentMoveIndex g' = moveIndex
   /\ Mono.currentPlayer g' = (if Z.even moveIndex then white else black)
   /\ Mono.moveHistory g' = Mono.moveHistory g
   /\ Mono.boardStates g' = Mono.boardStates g
   /\ (moveIndex < Z.of_nat (length (Mono.moveHistory g)) ->
       Mono.gameOver g' = false /\ Mono.gameStatus g' = StatusNone))
  /\ (moveIndex < 0 \/ Z.of_nat (length (Mono.moveHistory g)) < moveIndex ->
      Mono.goToMove moveIndex g = g).
Proof. exact (Mono_goToMove_spec g moveIndex). Qed.

Lemma Mono_goToMove_back_to_the_start :
  let g := Mono_clicks [(6, 4); (4, 4)] Mono.newGame in
  let g' := Mono.goToMove 0 g in
  Mono.currentMoveIndex g' = 0
  /\ Mono.currentPlayer g' = (if Z.even 0 then white else black)
  /\ Mono.moveHistory g' = Mono.moveHistory g
  /\ Mono.boardStates g' = Mono.boardStates g
  /\ (0 < Z.of_nat (length (Mono.moveHistory g)) ->
      Mono.gameOver g' = false /\ Mono.gameStatus g' = StatusNone).
Proof.
  apply (proj1 (Mono_goToMove_sets_the_viewed_ply
                  (Mono_clicks [(6, 4); (4, 4)] Mono.newGame) 0)).
  vm_compute. split; discriminate.
Defined.

(* ====================================================================== *)
(** * Scenarios *)
(* ====================================================================== *)

(** 1. f3 e5 2. g4 Qh4#: on both engines the game is over, the status is
    checkmate (won by Black), and White's check flag is set. *)
Theorem scenario_fools_mate :
  (let g := Mono_clicks fools_mate Mono.newGame in
   Mono.gameStatus g = StatusCheckmate black
   /\ Mono.gameOver g = true
   /\ Mono.isInCheck g = mkByColor true false)
  /\
  (let c := Layered_clicks fools_mate Layered_start in
   Layered.gameStatus (Layered.gameState c) = StatusCheckmate black
   /\ Layered.gameOver (Layered.gameState c) = true
   /\ Layered.isInCheck (Layered.gameState c) = mkByColor true false).
Proof. cbv zeta. evaluate_all. Qed.

(** White king a1 against Black king a3 and queen: after the queen has
    gone from b4 to b3 it is White's move, the status is stalemate and the
    game is over, on both engines. *)
Theorem scenario_stalemate :
  (let g := Mono.makeMove 4 1 5 1 None Mono_before_stalemate in
   Mono.currentPlayer g = white
   /\ Mono.gameStatus g = StatusStalemate
   /\ Mono.gameOver g = true)
  /\
  (let c := snd (Layered.makeMove 4 1 5 1 None None Layered_before_stalemate) in
   Layered.placement Layered_before_stalemate_board = before_stalemate
   /\ Layered.currentPlayer (Layered.gameState c) = white
   /\ Layered.gameStatus (Layered.gameState c) = StatusStalemate
   /\ Layered.gameOver (Layered.gameState c) = true).
Proof. cbv zeta. evaluate_all. Qed.

(** After 1. e4 e5 2. Nf3 Nc6 3. Bc4 Bc5, with f1 and g1 empty and not
    attacked, the clicks on e1 and g1 castle: king on g1, rook on f1, both
    castling rights of White cleared, the king's square recorded; on both
    engines. *)
Theorem scenario_kingside_castling :
  let first_rank :=
    [Some (rook, white); Some (knight, white); Some (bishop, white);
     Some (queen, white); None; Some (rook, white); Some (king, white); None] in
  (let g := Mono_clicks (italian_opening ++ [(7, 4); (7, 6)]) Mono.newGame in
   Rules.attacked (Mono.board (Mono_clicks italian_opening Mono.newGame)) (7, 5) white = false
   /\ Rules.attacked (Mono.board (Mono_clicks italian_opening Mono.newGame)) (7, 6) white = false
   /\ Mono.board g !! 7%nat = Some first_rank
   /\ at_color (Mono.castlingRights g) white = mkRights false false
   /\ at_color (Mono.kingPositions g) white = (7, 6))
  /\
  (let c := Layered_clicks (italian_opening ++ [(7, 4); (7, 6)]) Layered_start in
   Layered_position c !! 7%nat = Some first_rank
   /\ at_color (Layered.castlingRights (Layered.gameState c)) white = mkRights false false
   /\ at_color (Layered.kingPositions (Layered.gameState c)) white = (7, 6)).
Proof. cbv zeta. evaluate_all. Qed.

(** From the initial position e2-e4 sets the en-passant target to e3;
    the reply d7-d5 replaces it by d6; the knight move Ng1-f3 that follows
    leaves no target.  On both engines. *)
Theorem scenario_en_passant_target :
  (let target squares := Mono.enPassantTarget (Mono_clicks squares Mono.newGame) in
   target [(6, 4); (4, 4)] = Some (5, 4)
   /\ target [(6, 4); (4, 4); (1, 3); (3, 3)] = Some (2, 3)
   /\ target [(6, 4); (4, 4); (1, 3); (3, 3); (7, 6); (5, 5)] = None)
  /\
  (let target squares :=
     Layered.enPassantTarget (Layered.gameState (Layered_clicks squares Layered_start)) in
   target [(6, 4); (4, 4)] = Some (5, 4)
   /\ target [(6, 4); (4, 4); (1, 3); (3, 3)] = Some (2, 3)
   /\ target [(6, 4); (4, 4); (1, 3); (3, 3); (7, 6); (5, 5)] = None).
Proof. cbv zeta. evaluate_all. Qed.

(** Tokens of the movetext, as both decoders take them apart: a final
    check or mate mark is dropped, [=N] gives the promotion piece, a piece
    letter gives the kind (a pawn without one), [x] sets the capture flag,
    and what precedes the last two characters of a piece move is the
    source file and rank.  A token with nothing but a check mark raises,
    and one with a single character is refused. *)
Theorem scenario_tokens :
  San.decode (San.chars "Qh4#")
  = San.Fields (San.mkToken queen false None None "h" "4" None (San.chars "h4"))
  /\ San.decode (San.chars "e8=N+")
     = San.Fields (San.mkToken pawn false None None "e" "8" (Some knight) (San.chars "e8"))
  /\ San.decode (San.chars "Nbd7")
     = San.Fields (San.mkToken knight false (Some "b"%char) None "d" "7" None (San.chars "d7"))
  /\ San.decode (San.chars "R1a3")
     = San.Fields (San.mkToken rook false None (Some "1"%char) "a" "3" None (San.chars "a3"))
  /\ San.decode (San.chars "Nb1xd2")
     = San.Fields (San.mkToken knight true (Some "b"%char) (Some "1"%char) "d" "2" None
                               (San.chars "d2"))
  /\ San.decode (San.chars "+") = San.TypeError
  /\ San.decode (San.chars "a") = San.Invalid.
Proof. evaluate_all. Qed.

(** A pawn capture.  After 1. e4 d5 the capture on d5 is a legal move of
    the pawn on e4.  In the token [exd5] the source file is read but
    stays in front of the destination, so the destination is taken from
    the characters [e] and [d]: there is no such rank, no piece can move
    there, and pgn.js answers [false] and leaves the game as it is. *)
Theorem scenario_pawn_capture_token :
  let g := Mono_clicks [(6, 4); (4, 4); (1, 3); (3, 3)] Mono.newGame in
  let t := San.mkToken pawn true (Some "e"%char) None "e" "d" None (San.chars "ed5") in
  In (3, 3) (fst (Mono.calculateLegalMoves 4 4 g))
  /\ San.decode (San.chars "exd5") = San.Fields t
  /\ San.destRow t = None
  /\ Mono.processAlgebraicNotation "exd5" g = (Returned false, g).
Proof. cbv zeta. evaluate_all. Qed.

(* ====================================================================== *)
(** * The legal moves are the candidates that pass the simulation *)
(* ====================================================================== *)

Lemma Mono_filterLegal_filter row col piece moves g :
  fst (Mono.filterLegal row col piece (snd piece) moves g)
  = List.filter (Mono_safe row col piece g) moves.
Proof.
  induction moves as [|[toRow toCol] rest IH]; [reflexivity|].
  cbn [Mono.filterLegal List.filter]. unfold Mono_safe at 1. cbn [fst snd].
  pose proof (Mono_tryMove_restores row col piece (snd piece) toRow toCol g) as H.
  destruct (Mono.tryMove row col piece (snd piece) toRow toCol g) as [ok g1].
  cbn [fst snd] in *. subst g1.
  destruct (Mono.filterLegal row col piece (snd piece) rest g) as [legal g2].
  cbn [fst] in *. now rewrite IH.
Qed.

Lemma Layered_filterLegal_filter row col v piece gs moves :
  wf_grid (Layered.v_board v) ->
  Layered.getPiece (Layered.v_board v) row col = Some piece ->
  (forall m, In m moves -> In m (Layered.getPossibleMoves piece (Layered.v_board v) row col gs)) ->
  fst (Layered.filterLegal row col moves v) = List.filter (Layered_safe row col v) moves.
Proof.
  intros Hw Hp. induction moves as [|[[toRow toCol] sp] rest IH]; intros Hsub; [reflexivity|].
  cbn [Layered.filterLegal List.filter]. unfold Layered_safe at 1. cbn [fst snd].
  destruct (simulateMove_restores row col toRow toCol sp v piece gs Hw Hp) as [r Hr].
  { apply Hsub. now left. }
  rewrite Hr. cbn [fst].
  specialize (IH (fun m Hm => Hsub m (or_intror Hm))).
  destruct (Layered.filterLegal row col rest v) as [legal v2]. cbn [fst] in *.
  rewrite IH. now destruct r.
Qed.

(** The legality filter of both engines: the legal moves of a square are
    the candidate moves of the piece on it, in the order they are
    generated, that pass the simulation ([Mono_safe], [Layered_safe]);
    an empty square has none, and in the layered engine neither has a
    piece of the player who is not to move.  Every simulation of a
    candidate returns. *)
Theorem legal_moves_are_the_safe_candidates :
  (forall (g : Mono.Game) (row col : Z),
      fst (Mono.calculateLegalMoves row col g)
      = match cell (Mono.board g) row col with
        | Some piece =>
            List.filter (Mono_safe row col piece g) (Mono.calculatePossibleMoves g row col)
        | None => []
        end)
  /\ (forall (v : Layered.Validator) (row col : Z),
         wf_grid (Layered.v_board v) ->
         fst (Layered.calculateLegalMoves row col v)
         = match Layered.getPiece (Layered.v_board v) row col with
           | Some piece =>
               if Color_eqb (Layered.color piece) (Layered.currentPlayer (Layered.v_gameState v))
               then List.filter (Layered_safe row col v)
                      (Layered.getPossibleMoves piece (Layered.v_board v) row col
                         (Some (Layered.v_gameState v)))
               else []
           | None => []
           end).
Proof.
  split.
  - intros g row col. unfold Mono.calculateLegalMoves.
    destruct (cell (Mono.board g) row col) as [piece|]; [|reflexivity].
    apply Mono_filterLegal_filter.
  - intros v row col Hw. unfold Layered.calculateLegalMoves.
    destruct (Layered.getPiece (Layered.v_board v) row col) as [piece|] eqn:Hp; [|reflexivity].
    destruct (Color_eqb _ _); [|reflexivity]. cbn [negb].
    eapply Layered_filterLegal_filter; eauto.
Qed.

Lemma legal_moves_at_the_start :
  fst (Mono.calculateLegalMoves 6 4 Mono.newGame)
  = match cell (Mono.board Mono.newGame) 6 4 with
    | Some piece =>
        List.filter (Mono_safe 6 4 piece Mono.newGame)
                    (Mono.calculatePossibleMoves Mono.newGame 6 4)
    | None => []
    end
  /\ fst (Layered.calculateLegalMoves 6 4 (Layered.theValidator Layered_start))
     = match Layered.getPiece (Layered.v_board (Layered.theValidator Layered_start)) 6 4 with
       | Some piece =>
           if Color_eqb (Layered.color piece)
                (Layered.currentPlayer (Layered.v_gameState (Layered.theValidator Layered_start)))
           then List.filter (Layered_safe 6 4 (Layered.theValidator Layered_start))
                  (Layered.getPossibleMoves piece
                     (Layered.v_board (Layered.theValidator Layered_start)) 6 4
                     (Some (Layered.v_gameState (Layered.theValidator Layered_start))))
           else []
       | None => []
       end.
Proof.
  split.
  - apply (proj1 legal_moves_are_the_safe_candidates Mono.newGame 6 4).
  - apply (proj2 legal_moves_are_the_safe_candidates (Layered.theValidator Layered_start) 6 4).
    vm_compute. split; [reflexivity|]. repeat constructor.
Defined.

(* ====================================================================== *)
(** * Further invariants of the two engines *)
(* ====================================================================== *)

(** Every board the layered engine can show, and every snapshot it keeps,
    is an 8x8 grid. *)
Theorem reachable_boards_are_8x8 (c : Layered.Controller) :
  reachable c ->
  wf_grid (Layered.liveBoard c)
  /\ Forall wf_grid (Layered.boardStates (Layered.gameState c)).
Proof.
  intros Hr. apply reachable_ctrl_inv in Hr. split.
  - now apply ctrl_inv_liveBoard.
  - now destruct Hr as (_ & _ & _ & Hs & _).
Qed.

Lemma boards_are_8x8_after_e4 :
  wf_grid (Layered.liveBoard (Layered_clicks [(6, 4); (4, 4)] Layered_start))
  /\ Forall wf_grid
       (Layered.boardStates
          (Layered.gameState (Layered_clicks [(6, 4); (4, 4)] Layered_start))).
Proof.
  apply (reachable_boards_are_8x8 (Layered_clicks [(6, 4); (4, 4)] Layered_start)).
  apply reachable_clicks, reach_initialize.
Defined.

(** Once the game is over, or while a promotion choice is pending, a
    click on a square changes nothing, in either engine. *)
Theorem clicks_are_ignored_when_the_game_is_over :
  (forall (c : Layered.Controller) (row col : Z),
      Layered.gameOver (Layered.gameState c) = true
      \/ Layered.promotionPending (Layered.gameState c) = true ->
      Layered.handleSquareClick row col c = c)
  /\ (forall (g : Mono.Game) (row col : Z),
         Mono.gameOver g = true \/ Mono.promotionPending g = true ->
         Mono.onSquareClick row col g = g).
Proof.
  split.
  - intros c row col H. unfold Layered.handleSquareClick.
    destruct H as [-> | ->]; [reflexivity|now rewrite orb_true_r].
  - intros g row col H. unfold Mono.onSquareClick.
    destruct H as [-> | ->]; [reflexivity|now rewrite orb_true_r].
Qed.

Lemma click_after_fools_mate :
  Layered.handleSquareClick 6 0 (Layered_clicks fools_mate Layered_start)
  = Layered_clicks fools_mate Layered_start
  /\ Mono.onSquareClick 6 0 (Mono_clicks fools_mate Mono.newGame)
     = Mono_clicks fools_mate Mono.newGame.
Proof.
  split.
  - apply (proj1 clicks_are_ignored_when_the_game_is_over
                 (Layered_clicks fools_mate Layered_start) 6 0).
    left. vm_compute. reflexivity.
  - apply (proj2 clicks_are_ignored_when_the_game_is_over
                 (Mono_clicks fools_mate Mono.newGame) 6 0).
    left. vm_compute. reflexivity.
Defined.

Lemma nr_refl r : neverRegranted r r.
Proof. intros c side H. exact H. Qed.

Lemma nr_set_color r r' c' side' :
  neverRegranted r r' ->
  neverRegranted r
    (set_color r' c'
       match side' with
       | kingside => mkRights false (queenSide (at_color r' c'))
       | queenside => mkRights (kingSide (at_color r' c')) false
       end).
Proof.
  intros H c side Hc. specialize (H c side Hc). rewrite at_set_color.
  destruct (Color_eqb c' c) eqn:E; [|exact H].
  apply Color_eqb_eq in E. subst c'. destruct side, side'; cbn in *; congruence.
Qed.

Section MonoNeverRegranted.
Import Mono.

Lemma Mono_nr_revoke r c side g :
  neverRegranted r (castlingRights g) -> neverRegranted r (castlingRights (revoke c side g)).
Proof. intros H. unfold revoke. cbv zeta. now apply nr_set_color. Qed.

Lemma Mono_nr_updateCastlingRights piece fromRow fromCol toRow toCol captured g :
  neverRegranted (castlingRights g)
    (castlingRights (updateCastlingRights piece fromRow fromCol toRow toCol captured g)).
Proof.
  unfold updateCastlingRights. cbv zeta.
  repeat match goal with
         | |- context [if ?c then _ else _] => destruct c
         | |- context [match ?x with _ => _ end] => destruct x
         end;
    repeat first [ apply nr_refl
                 | apply Mono_nr_revoke
                 | progress change (castlingRights (set_kingPositions ?k ?h))
                     with (castlingRights h) ].
Qed.

Lemma castlingRights_pawnSpecialMoves piece fromRow fromCol toRow toCol captured promo g :
  castlingRights (pawnSpecialMoves piece fromRow fromCol toRow toCol captured promo g)
  = castlingRights g.
Proof.
  unfold pawnSpecialMoves. cbv zeta.
  repeat match goal with
         | |- context [if ?c then _ else _] => destruct c
         | |- context [match ?x with _ => _ end] => destruct x
         end; reflexivity.
Qed.

Lemma castlingRights_castleRook piece fromRow fromCol toCol g :
  castlingRights (castleRook piece fromRow fromCol toCol g) = castlingRights g.
Proof. unfold castleRook. now destruct (castlingOf piece fromCol toCol). Qed.

End MonoNeverRegranted.

Section LayeredNeverRegranted.
Import Layered.

Lemma Layered_nr_revoke r c side s :
  neverRegranted r (castlingRights s) -> neverRegranted r (castlingRights (revoke c side s)).
Proof. intros H. unfold revoke. cbv zeta. now apply nr_set_color. Qed.

Lemma Layered_nr_updateCastlingRights fromRow fromCol toRow toCol piece b s :
  neverRegranted (castlingRights s)
    (castlingRights (updateCastlingRights fromRow fromCol toRow toCol piece b s)).
Proof.
  unfold updateCastlingRights. cbv zeta.
  repeat match goal with
         | |- context [if ?c then _ else _] => destruct c
         | |- context [getPiece ?x ?y ?z] => destruct (getPiece x y z)
         end;
    repeat first [apply nr_refl | apply Layered_nr_revoke].
Qed.

Lemma castlingRights_playOnBoard b gs piece fr fc tr tc sp promo :
  let '(_, gs', _, _, _, _) := playOnBoard b gs piece fr fc tr tc sp promo in
  castlingRights gs' = castlingRights gs.
Proof.
  unfold playOnBoard.
  destruct (isCastle sp); [reflexivity|].
  destruct (Kind_eqb (type piece) pawn); [|reflexivity].
  destruct (negb (fc =? tc) && isEmpty b tr tc).
  - destruct (getPiece b _ tc); destruct promo; cbv zeta;
      try destruct (Z.abs (fr - tr) =? 2); reflexivity.
  - destruct promo; cbv zeta; try destruct (Z.abs (fr - tr) =? 2); reflexivity.
Qed.

Lemma castlingRights_addMove move b s :
  castlingRights (addMove move b s) = castlingRights s.
Proof.
  unfold addMove. destruct (currentMoveIndex s <? _); reflexivity.
Qed.

Lemma castlingRights_updateResult s : castlingRights (updateResult s) = castlingRights s.
Proof. unfold updateResult. destruct (gameStatus s); reflexivity. Qed.

Lemma Layered_nr_makeMove fr fc tr tc sp promo c :
  ctrl_inv c ->
  neverRegranted (castlingRights (gameState c))
    (castlingRights (gameState (snd (makeMove fr fc tr tc sp promo c)))).
Proof.
  intros Hinv. unfold makeMove.
  destruct (match getPiece (liveBoard c) fr fc, selectedPiece c with
            | None, Some sel => sel
            | _, _ => (fr, fc)
            end) as [fromRow fromCol].
  destruct (getPiece (liveBoard c) fromRow fromCol) as [piece|]; [|apply nr_refl].
  pose proof (playOnBoard_spec (liveBoard c) (set_enPassantTarget None (gameState c))
                piece fromRow fromCol tr tc sp promo (ctrl_inv_liveBoard c Hinv)) as Hplay.
  pose proof (castlingRights_playOnBoard (liveBoard c) (set_enPassantTarget None (gameState c))
                piece fromRow fromCol tr tc sp promo) as Hrights.
  destruct (playOnBoard _ _ piece fromRow fromCol tr tc sp promo)
    as [[[[[b gs] capturedPiece] enPassantCapture] promotedPiece] castling].
  destruct Hplay as [Hwb Hsh].
  set (gs1 := match capturedPiece, enPassantCapture with
              | Some p, None => pushCaptured (color piece) p gs
              | _, _ => gs
              end).
  assert (H1 : same_history (gameState c) gs1).
  { eapply same_history_trans; [apply sh_enPassantTarget|].
    eapply same_history_trans; [exact Hsh|].
    subst gs1. destruct capturedPiece, enPassantCapture;
      try apply same_history_refl. apply sh_pushCaptured. }
  assert (R1 : castlingRights gs1 = castlingRights (gameState c)).
  { subst gs1. destruct capturedPiece, enPassantCapture; exact Hrights. }
  set (gs2 := updateCastlingRights fromRow fromCol tr tc piece b gs1).
  set (gs3 := if Kind_eqb (type piece) king then _ else gs2).
  assert (H3 : same_history (gameState c) gs3).
  { eapply same_history_trans; [exact H1|].
    eapply same_history_trans; [apply sh_updateCastlingRights|].
    subst gs3. apply sh_if; [apply sh_kingPositions|apply same_history_refl]. }
  assert (R3 : neverRegranted (castlingRights (gameState c)) (castlingRights gs3)).
  { rewrite <- R1. replace (castlingRights gs3) with (castlingRights gs2)
      by (subst gs3; now destruct (Kind_eqb (type piece) king)).
    apply Layered_nr_updateCastlingRights. }
  set (move := mkMove _ _ _ _ _ _ _ _ _ _).
  pose proof Hinv as (Hh & Hb & Hv & Hs & Hi).
  pose proof (same_history_inv _ _ H3 Hi) as Hi3.
  pose proof (addMove_spec move (Board_clone b) gs3 Hi3) as (Em & Eb & Ec & Hi4).
  pose proof (castlingRights_addMove move (Board_clone b) gs3) as R4.
  set (gs4 := addMove move (Board_clone b) gs3) in *.
  set (c1 := set_gameState (set_currentPlayer (opponent (color piece)) gs4) (writeBoard b c)).
  assert (Hc1 : ctrl_inv c1).
  { assert (Hb4 : Forall wf_grid (boardStates gs4)).
    { rewrite Eb. apply wf_boardStates_push; [|now apply wf_Board_clone].
      destruct H3 as (_ & -> & _). exact Hs. }
    apply ctrl_inv_new_gameState.
    - now apply ctrl_inv_writeBoard.
    - exact Hb4.
    - exact (same_history_inv _ _ (sh_currentPlayer _ _) Hi4). }
  rewrite (storeValidator_updateCheckStatus c1).
  set (c2 := set_gameState _ c1).
  assert (Hc2 : ctrl_inv c2).
  { subst c2. rewrite <- storeValidator_updateCheckStatus.
    now apply ctrl_inv_updateCheckStatus. }
  pose proof (storeValidator_checkGameEnd c2 Hc2) as Hend.
  destruct (checkGameEndConditions (theValidator c2)) as [[over status] v].
  cbn [snd] in Hend |- *. rewrite Hend.
  cbn [gameState set_gameState]. rewrite castlingRights_updateResult.
  change (neverRegranted (castlingRights (gameState c)) (castlingRights gs4)).
  now rewrite R4.
Qed.

End LayeredNeverRegranted.

(** Castling rights are never granted again by a move: in both engines a
    right that is revoked before [makeMove] is revoked after it. *)
Theorem moves_never_regrant_castling_rights :
  (forall (g : Mono.Game) (fromRow fromCol toRow toCol : Z) (promotionPiece : option Kind),
      neverRegranted (Mono.castlingRights g)
        (Mono.castlingRights (Mono.makeMove fromRow fromCol toRow toCol promotionPiece g)))
  /\ (forall (c : Layered.Controller) (fromRow fromCol toRow toCol : Z)
             (specialMove : option Layered.SpecialMove) (promotionPiece : option Kind),
         reachable c ->
         neverRegranted (Layered.castlingRights (Layered.gameState c))
           (Layered.castlingRights
              (Layered.gameState
                 (snd (Layered.makeMove fromRow fromCol toRow toCol specialMove
                                        promotionPiece c))))).
Proof.
  split.
  - intros g fromRow fromCol toRow toCol promotionPiece. unfold Mono.makeMove.
    destruct (cell (Mono.board g) fromRow fromCol) as [piece|]; [|apply nr_refl].
    cbv zeta.
    rewrite castlingRights_finishMove, castlingRights_movePiece, castlingRights_recordMove.
    match goal with
    | |- neverRegranted _ (Mono.castlingRights (Mono.updateCastlingRights _ _ _ _ _ _ ?h)) =>
        replace (Mono.castlingRights g) with (Mono.castlingRights h)
          by now rewrite castlingRights_castleRook, castlingRights_pawnSpecialMoves
    end.
    apply Mono_nr_updateCastlingRights.
  - intros c fromRow fromCol toRow toCol specialMove promotionPiece Hr.
    apply Layered_nr_makeMove. now apply reachable_ctrl_inv.
Qed.

Lemma rights_after_the_king_has_moved :
  neverRegranted
    (Mono.castlingRights (Mono_clicks (italian_opening ++ [(7, 4); (7, 6)]) Mono.newGame))
    (Mono.castlingRights
       (Mono.makeMove 1 0 2 0 None
          (Mono_clicks (italian_opening ++ [(7, 4); (7, 6)]) Mono.newGame)))
  /\ neverRegranted
       (Layered.castlingRights
          (Layered.gameState (Layered_clicks (italian_opening ++ [(7, 4); (7, 6)]) Layered_start)))
       (Layered.castlingRights
          (Layered.gameState
             (snd (Layered.makeMove 1 0 2 0 None None
                     (Layered_clicks (italian_opening ++ [(7, 4); (7, 6)]) Layered_start))))).
Proof.
  split.
  - apply (proj1 moves_never_regrant_castling_rights).
  - apply (proj2 moves_never_regrant_castling_rights).
    apply reachable_clicks, reach_initialize.
Defined.

(* ====================================================================== *)
(** * Writing and reading the notation of a move *)
(* ====================================================================== *)

Lemma decodesTo_b_true s k cap src row col promo :
  decodesTo_b s k cap src row col promo = true -> decodesTo s k cap src row col promo.
Proof.
  unfold decodesTo_b, decodesTo.
  destruct (San.decode (San.chars s)) as [t| |]; try discriminate.
  intros H. exists t. split; [reflexivity|].
  repeat (apply andb_true_iff in H as [H ?]).
  apply Kind_eqb_eq in H.
  match goal with H : Bool.eqb _ _ = true |- _ => apply Bool.eqb_prop in H end.
  destruct (San.sourceFile t), src; try discriminate.
  2: destruct (San.sourceRank t); try discriminate;
     destruct (San.destRow t), row; try discriminate;
     destruct (San.destCol t), col; try discriminate;
     destruct (San.promotionPiece t), promo; try discriminate;
     repeat match goal with
            | H : Kind_eqb _ _ = true |- _ => apply Kind_eqb_eq in H
            | H : (_ =? _) = true |- _ => apply Z.eqb_eq in H
            end; subst; repeat split; reflexivity || assumption.
  destruct (San.sourceRank t); try discriminate;
     destruct (San.destRow t), row; try discriminate;
     destruct (San.destCol t), col; try discriminate;
     destruct (San.promotionPiece t), promo; try discriminate;
     repeat match goal with
            | H : Kind_eqb _ _ = true |- _ => apply Kind_eqb_eq in H
            | H : (_ =? _) = true |- _ => apply Z.eqb_eq in H
            | H : Ascii.eqb _ _ = true |- _ => apply Ascii.eqb_eq in H
            end; subst; repeat split; reflexivity || assumption.
Qed.

Lemma in_range8 z : 0 <= z < 8 -> In z range8.
Proof.
  intros H. unfold range8.
  assert (E : z = 0 \/ z = 1 \/ z = 2 \/ z = 3 \/ z = 4 \/ z = 5 \/ z = 6 \/ z = 7) by lia.
  cbn. intuition.
Qed.

Lemma in_allKinds k : In k allKinds.
Proof. destruct k; cbn; intuition. Qed.

Lemma in_allPromotions p : In p allPromotions.
Proof. destruct p as [[]|]; cbn; intuition. Qed.

Lemma in_allMarks a b : In (a, b) allMarks.
Proof. destruct a, b; cbn; intuition. Qed.

Section LayeredNotation.
Import NotationView.

(** Only the kind of the piece, and without castling nothing of the
    special move, enters the text. *)
Lemma generateNotation_plain piece from to isCapture specialMove promo isCheck isCheckmate :
  Layered.isCastle specialMove = false ->
  generateNotation piece from to isCapture specialMove promo isCheck isCheckmate
  = generateNotation (Layered.createPiece (Layered.type piece) white) from to isCapture
                     None promo isCheck isCheckmate.
Proof.
  intros H. unfold generateNotation. rewrite H. destruct from, to. reflexivity.
Qed.

Lemma generateNotation_from k fromRow fromCol to isCapture promo isCheck isCheckmate :
  (k = pawn -> isCapture = false) ->
  generateNotation (Layered.createPiece k white) (fromRow, fromCol) to isCapture None promo
                   isCheck isCheckmate
  = generateNotation (Layered.createPiece k white) (0, 0) to isCapture None promo
                     isCheck isCheckmate.
Proof.
  intros H. destruct to as [toRow toCol]. destruct isCapture; [|reflexivity].
  destruct k; try reflexivity. now discriminate H.
Qed.

Lemma plain_moves_checked :
  forallb (fun '(k, toRow, toCol, isCapture, promo, (isCheck, isCheckmate)) =>
             (Kind_eqb k pawn && isCapture)
             || decodesTo_b
                  (generateNotation (Layered.createPiece k white) (0, 0) (toRow, toCol)
                                    isCapture None promo isCheck isCheckmate)
                  k isCapture None (Some toRow) (Some toCol) (option_map readPromotion promo))
          (list_prod (list_prod (list_prod (list_prod (list_prod allKinds range8) range8)
                                           [true; false]) allPromotions) allMarks)
  = true.
Proof. vm_compute. reflexivity. Qed.

Lemma pawn_captures_checked :
  forallb (fun '(fromCol, toRow, toCol, promo, (isCheck, isCheckmate)) =>
             decodesTo_b
               (generateNotation (Layered.createPiece pawn white) (0, fromCol) (toRow, toCol)
                                 true None promo isCheck isCheckmate)
               pawn true (Some (fileChar fromCol)) None (Some fromCol)
               (option_map readPromotion promo))
          (list_prod (list_prod (list_prod (list_prod range8 range8) range8)
                                allPromotions) allMarks)
  = true.
Proof. vm_compute. reflexivity. Qed.

End LayeredNotation.

Lemma generateNotation_decodes
    (piece : Layered.Piece) (from to : Square) (isCapture : bool)
    (specialMove : option Layered.SpecialMove) (promotionPiece : option Kind)
    (isCheck isCheckmate : bool) :
  isInBounds (fst to) (snd to) = true ->
  Layered.isCastle specialMove = false ->
  (Layered.type piece = pawn -> isCapture = false) ->
  decodesTo
    (NotationView.generateNotation piece from to isCapture specialMove promotionPiece
                                   isCheck isCheckmate)
    (Layered.type piece) isCapture None (Some (fst to)) (Some (snd to))
    (option_map readPromotion promotionPiece).
Proof.
  intros Hb Hc Hp. destruct to as [toRow toCol], from as [fromRow fromCol].
  cbn [fst snd] in *. apply isInBounds_spec in Hb as [Hr Hcol].
  rewrite generateNotation_plain by exact Hc.
  rewrite generateNotation_from by exact Hp.
  apply decodesTo_b_true.
  pose proof plain_moves_checked as A. rewrite forallb_forall in A.
  specialize (A (Layered.type piece, toRow, toCol, isCapture, promotionPiece,
                 (isCheck, isCheckmate))).
  cbv beta iota in A.
  assert (Hin : In (Layered.type piece, toRow, toCol, isCapture, promotionPiece,
                    (isCheck, isCheckmate))
                   (list_prod (list_prod (list_prod (list_prod (list_prod allKinds range8) range8)
                                                    [true; false]) allPromotions) allMarks)).
  { repeat apply in_prod; auto using in_range8, in_allKinds, in_allPromotions, in_allMarks.
    destruct isCapture; cbn; intuition. }
  apply A in Hin. apply orb_true_iff in Hin as [Hin|Hin]; [|exact Hin].
  apply andb_true_iff in Hin as [Hk Hcap]. apply Kind_eqb_eq in Hk.
  rewrite (Hp Hk) in Hcap. discriminate.
Qed.

(** Round trip of the notation of the layered engine.  The text
    [generateNotation] writes for a move that is no castling and no pawn
    capture, to a square of the board, is read back by the decoder of
    both PGN loaders with the kind of the piece, the capture flag and the
    destination; check and mate marks are dropped; of a promotion piece
    only rook, bishop and knight are read back, anything else as a
    queen. *)
Theorem generateNotation_is_read_back
    (piece : Layered.Piece) (from to : Square) (isCapture : bool)
    (specialMove : option Layered.SpecialMove) (promotionPiece : option Kind)
    (isCheck isCheckmate : bool) :
  isInBounds (fst to) (snd to) = true ->
  Layered.isCastle specialMove = false ->
  (Layered.type piece = pawn -> isCapture = false) ->
  decodesTo
    (NotationView.generateNotation piece from to isCapture specialMove promotionPiece
                                   isCheck isCheckmate)
    (Layered.type piece) isCapture None (Some (fst to)) (Some (snd to))
    (option_map readPromotion promotionPiece).
Proof. apply generateNotation_decodes. Qed.

Lemma generateNotation_of_a_knight_move :
  decodesTo
    (NotationView.generateNotation (Layered.createPiece knight white) (7, 6) (5, 5) false None
                                   None true false)
    knight false None (Some 5) (Some 5) None.
Proof.
  apply (generateNotation_is_read_back (Layered.createPiece knight white) (7, 6) (5, 5)
           false None None true false); [reflexivity|reflexivity|discriminate].
Defined.

Lemma pawn_capture_decodes
    (piece : Layered.Piece) (fromRow fromCol : Z) (to : Square)
    (specialMove : option Layered.SpecialMove) (promotionPiece : option Kind)
    (isCheck isCheckmate : bool) :
  isInBounds (fst to) (snd to) = true ->
  0 <= fromCol < 8 ->
  Layered.isCastle specialMove = false ->
  Layered.type piece = pawn ->
  decodesTo
    (NotationView.generateNotation piece (fromRow, fromCol) to true specialMove
                                   promotionPiece isCheck isCheckmate)
    pawn true (Some (fileChar fromCol)) None (Some fromCol)
    (option_map readPromotion promotionPiece).
Proof.
  intros Hb Hf Hc Hp. destruct to as [toRow toCol].
  cbn [fst snd] in *. apply isInBounds_spec in Hb as [Hr Hcol].
  rewrite generateNotation_plain by exact Hc. rewrite Hp.
  change (NotationView.generateNotation (Layered.createPiece pawn white) (fromRow, fromCol))
    with (NotationView.generateNotation (Layered.createPiece pawn white) (0, fromCol)).
  apply decodesTo_b_true.
  pose proof pawn_captures_checked as A. rewrite forallb_forall in A.
  apply (A (fromCol, toRow, toCol, promotionPiece, (isCheck, isCheckmate))).
  repeat apply in_prod; auto using in_range8, in_allPromotions, in_allMarks.
Qed.

(** The notation of a pawn capture is not read back.  For a pawn that
    captures from a file of the board onto a square of the board, the
    decoder takes the source file for the destination file and the
    destination file for the rank: the destination row is undefined and
    the destination column is the column the pawn came from. *)
Theorem pawn_capture_notation_is_misread
    (piece : Layered.Piece) (fromRow fromCol : Z) (to : Square)
    (specialMove : option Layered.SpecialMove) (promotionPiece : option Kind)
    (isCheck isCheckmate : bool) :
  isInBounds (fst to) (snd to) = true ->
  0 <= fromCol < 8 ->
  Layered.isCastle specialMove = false ->
  Layered.type piece = pawn ->
  decodesTo
    (NotationView.generateNotation piece (fromRow, fromCol) to true specialMove
                                   promotionPiece isCheck isCheckmate)
    pawn true (Some (fileChar fromCol)) None (Some fromCol)
    (option_map readPromotion promotionPiece).
Proof. apply pawn_capture_decodes. Qed.

Lemma notation_of_exd5 :
  decodesTo
    (NotationView.generateNotation (Layered.createPiece pawn white) (4, 4) (3, 3) true None
                                   None false false)
    pawn true (Some (fileChar 4)) None (Some 4) None.
Proof.
  apply (pawn_capture_notation_is_misread (Layered.createPiece pawn white) 4 4 (3, 3)
           None None false false); [reflexivity|lia|reflexivity|reflexivity].
Defined.

Section MonoNotation.
Import ChessGame.

(** The text of the monolithic engine, in terms of [generateNotation]:
    outside castling the two are built by the same statements. *)
Lemma notation_as_generateNotation fromCol toRow toCol piece capturedPiece specialMove g :
  (forall side, specialMove <> Mono.Castling side) ->
  notation fromCol toRow toCol piece capturedPiece specialMove g
  = NotationView.generateNotation (Layered.createPiece (fst piece) white) (0, fromCol)
      (toRow, toCol)
      (is_Some_b capturedPiece
       || match specialMove with Mono.EnPassant => true | _ => false end)
      None
      (match specialMove with Mono.Promotion => Some (fst piece) | _ => None end)
      (of_white (Mono.isInCheck g) || of_black (Mono.isInCheck g))
      (match Mono.gameStatus g with StatusCheckmate _ => true | _ => false end).
Proof.
  intros Hc. unfold notation, NotationView.generateNotation.
  cbn [Layered.isCastle Layered.type Layered.createPiece].
  destruct specialMove as [| | |side]; [| | |now elim (Hc side)];
    destruct (Mono.gameStatus g); reflexivity.
Qed.

Lemma findAndMove_without_row t color squares g :
  San.destRow t = None -> Mono.findAndMove t color squares g = (false, g).
Proof.
  intros Hd. induction squares as [|[row col] rest IH]; [reflexivity|].
  cbn [Mono.findAndMove]. destruct (cell (Mono.board g) row col) as [piece|]; [|exact IH].
  destruct (Mono.endsWith piece color && _ && _); [|exact IH].
  pose proof (Mono_calculateLegalMoves_restores row col g) as Hr.
  destruct (Mono.calculateLegalMoves row col g) as [legal g1]. cbn [snd] in Hr. subst g1.
  replace (Mono.canMoveTo legal (San.destRow t) (San.destCol t)) with false; [exact IH|].
  rewrite Hd. unfold Mono.canMoveTo. symmetry.
  induction legal as [|[r c] l IHl]; [reflexivity|]. cbn. exact IHl.
Qed.

Lemma pawn_captures_are_no_castling :
  forallb (fun '(fromCol, toRow, toCol, promo, (isCheck, isCheckmate)) =>
             let s := NotationView.generateNotation (Layered.createPiece pawn white)
                        (0, fromCol) (toRow, toCol) true None promo isCheck isCheckmate in
             negb (String.eqb s "" || String.eqb s "O-O" || String.eqb s "O-O-O"))
          (list_prod (list_prod (list_prod (list_prod range8 range8) range8)
                                allPromotions) allMarks)
  = true.
Proof. vm_compute. reflexivity. Qed.

End MonoNotation.

(** Round trip of the notation of the monolithic engine.  The text
    [addMoveToHistory] writes for a move that is no castling and no pawn
    capture, to a square of the board, is read back with the kind of the
    piece, the capture flag and the destination.  A promotion is written
    with the letter of the piece that moved (P, for the pawn), so what is
    read back is [readPromotion] of that kind: a queen, whatever piece was
    chosen. *)
Theorem Mono_notation_is_read_back
    (fromCol toRow toCol : Z) (piece : Mono.Piece) (capturedPiece : option Mono.Piece)
    (specialMove : Mono.SpecialMove) (g : Mono.Game) :
  let isCapture :=
    is_Some_b capturedPiece
    || match specialMove with Mono.EnPassant => true | _ => false end in
  isInBounds toRow toCol = true ->
  (forall side, specialMove <> Mono.Castling side) ->
  (fst piece = pawn -> isCapture = false) ->
  decodesTo (ChessGame.notation fromCol toRow toCol piece capturedPiece specialMove g)
            (fst piece) isCapture None (Some toRow) (Some toCol)
            (match specialMove with
             | Mono.Promotion => Some (readPromotion (fst piece))
             | _ => None
             end).
Proof.
  intros isCapture Hb Hc Hp. rewrite notation_as_generateNotation by exact Hc.
  pose proof (generateNotation_decodes (Layered.createPiece (fst piece) white) (0, fromCol)
                (toRow, toCol) isCapture None
                (match specialMove with Mono.Promotion => Some (fst piece) | _ => None end)
                (of_white (Mono.isInCheck g) || of_black (Mono.isInCheck g))
                (match Mono.gameStatus g with StatusCheckmate _ => true | _ => false end)
                Hb eq_refl Hp) as H.
  cbn [Layered.type Layered.createPiece fst snd] in H.
  now destruct specialMove.
Qed.

(** The pawn that promotes on e8 to a knight, in a position without
    check: the text is read back as a promotion to a queen. *)
Lemma Mono_notation_of_a_promotion :
  decodesTo (ChessGame.notation 4 0 4 (pawn, white) None Mono.Promotion Mono.newGame)
            pawn false None (Some 0) (Some 4) (Some queen).
Proof.
  apply (Mono_notation_is_read_back 4 0 4 (pawn, white) None Mono.Promotion Mono.newGame);
    [reflexivity|discriminate|reflexivity].
Defined.

(** What the monolithic engine writes for a pawn capture, its own loader
    refuses: for every pawn capture (ordinary or en passant) from a file
    of the board to a square of the board, whatever the state the text is
    written in, [processAlgebraicNotation] finds no piece for the text in
    any position, answers [false] and leaves the game as it is. *)
Theorem Mono_pawn_capture_is_not_loaded
    (fromCol toRow toCol : Z) (color : Color) (capturedPiece : option Mono.Piece)
    (specialMove : Mono.SpecialMove) (written : Mono.Game) (g : Mono.Game) :
  isInBounds toRow toCol = true ->
  0 <= fromCol < 8 ->
  (forall side, specialMove <> Mono.Castling side) ->
  is_Some_b capturedPiece = true \/ specialMove = Mono.EnPassant ->
  Mono.processAlgebraicNotation
    (ChessGame.notation fromCol toRow toCol (pawn, color) capturedPiece specialMove written) g
  = (Returned false, g).
Proof.
  intros Hb Hf Hc Hcap. rewrite notation_as_generateNotation by exact Hc.
  cbn [fst].
  replace (is_Some_b capturedPiece || _) with true
    by (destruct Hcap as [-> | ->]; [reflexivity|now rewrite orb_true_r]).
  set (promo := match specialMove with Mono.Promotion => Some pawn | _ => None end).
  set (isCheck := of_white _ || of_black _).
  set (isMate := match Mono.gameStatus written with StatusCheckmate _ => true | _ => false end).
  apply isInBounds_spec in Hb as [Hr Hcol].
  assert (Hin : In (fromCol, toRow, toCol, promo, (isCheck, isMate))
                   (list_prod (list_prod (list_prod (list_prod range8 range8) range8)
                                         allPromotions) allMarks)).
  { repeat apply in_prod; auto using in_range8, in_allPromotions, in_allMarks. }
  pose proof pawn_captures_checked as A. rewrite forallb_forall in A.
  pose proof pawn_captures_are_no_castling as B. rewrite forallb_forall in B.
  specialize (A _ Hin). specialize (B _ Hin). cbv beta iota zeta in A, B.
  apply decodesTo_b_true in A as (t & Hdec & _ & _ & _ & _ & Hrow & _).
  apply negb_true_iff in B. apply orb_false_iff in B as [B B3].
  apply orb_false_iff in B as [B1 B2].
  unfold Mono.processAlgebraicNotation. rewrite B1, B2, B3, Hdec.
  now rewrite findAndMove_without_row.
Qed.

(** 1. e4 d5 2. exd5: the text written for the capture, offered to the
    loader in the position in which the capture was played. *)
Lemma Mono_exd5_is_not_loaded :
  let g := Mono_clicks [(6, 4); (4, 4); (1, 3); (3, 3)] Mono.newGame in
  Mono.processAlgebraicNotation
    (ChessGame.notation 4 3 3 (pawn, white) (Some (pawn, black)) Mono.NoSpecial
                        (Mono.makeMove 4 4 3 3 None g)) g
  = (Returned false, g).
Proof.
  apply (Mono_pawn_capture_is_not_loaded 4 3 3 white (Some (pawn, black)) Mono.NoSpecial);
    [reflexivity|lia|discriminate|left; reflexivity].
Defined.

Section LayeredMarks.
Import Layered.

Lemma flags_playOnBoard b gs piece fr fc tr tc sp promo :
  let '(_, gs', _, _, _, _) := playOnBoard b gs piece fr fc tr tc sp promo in
  isInCheck gs' = isInCheck gs /\ currentPlayer gs' = currentPlayer gs
  /\ gameOver gs' = gameOver gs.
Proof.
  unfold playOnBoard.
  destruct (isCastle sp); [now repeat split|].
  destruct (Kind_eqb (type piece) pawn); [|now repeat split].
  destruct (negb (fc =? tc) && isEmpty b tr tc).
  - destruct (getPiece b _ tc); destruct promo; cbv zeta;
      try destruct (Z.abs (fr - tr) =? 2); now repeat split.
  - destruct promo; cbv zeta; try destruct (Z.abs (fr - tr) =? 2); now repeat split.
Qed.

End LayeredMarks.

(** The check and mate marks of the layered engine describe the position
    before the move.  The notation [makeMove] stores is generated before
    the player is switched and the check flags are recomputed: its marks
    are the check flag that the opponent of the player to move had before
    the move, and that flag together with the old [gameOver].  When that
    flag is off the text carries no mark, whatever the move does. *)
Theorem layered_notation_marks_are_stale
    (fromRow fromCol toRow toCol : Z) (specialMove : option Layered.SpecialMove)
    (promotionPiece : option Kind) (c : Layered.Controller) (s : string) :
  NotationView.notationOfMove fromRow fromCol toRow toCol specialMove promotionPiece c
  = Some s ->
  let gs := Layered.gameState c in
  let wasInCheck := at_color (Layered.isInCheck gs) (opponent (Layered.currentPlayer gs)) in
  exists piece from isCapture,
    s = NotationView.generateNotation piece from (toRow, toCol) isCapture specialMove
          promotionPiece wasInCheck (Layered.gameOver gs && wasInCheck)
    /\ (wasInCheck = false ->
        s = NotationView.generateNotation piece from (toRow, toCol) isCapture specialMove
              promotionPiece false false).
Proof.
  unfold NotationView.notationOfMove. intros H. cbv zeta.
  destruct (match Layered.getPiece (Layered.liveBoard c) fromRow fromCol,
                  Layered.selectedPiece c with
            | None, Some sel => sel
            | _, _ => (fromRow, fromCol)
            end) as [fr fc].
  destruct (Layered.getPiece (Layered.liveBoard c) fr fc) as [piece|]; [|discriminate].
  pose proof (flags_playOnBoard (Layered.liveBoard c)
                (Layered.set_enPassantTarget None (Layered.gameState c))
                piece fr fc toRow toCol specialMove promotionPiece) as F.
  destruct (Layered.playOnBoard _ _ piece fr fc toRow toCol specialMove promotionPiece)
    as [[[[[b gs'] capturedPiece] enPassantCapture] promotedPiece] castling].
  destruct F as (F1 & F2 & F3). injection H as <-.
  change (Layered.isInCheck gs' = Layered.isInCheck (Layered.gameState c)) in F1.
  change (Layered.currentPlayer gs' = Layered.currentPlayer (Layered.gameState c)) in F2.
  change (Layered.gameOver gs' = Layered.gameOver (Layered.gameState c)) in F3.
  unfold Layered.getOpponentColor. rewrite F1, F2, F3.
  exists piece, (fr, fc), (is_Some_b capturedPiece). split; [reflexivity|].
  intros ->. now rewrite andb_false_r.
Qed.

(** 1. f3 e5 2. g4 Qh4: the move mates, and its notation is [Qh4]. *)
Lemma notation_of_the_mating_move :
  let c := Layered_clicks [(6, 5); (5, 5); (1, 4); (3, 4); (6, 6); (4, 6)] Layered_start in
  Layered.gameStatus (Layered.gameState (snd (Layered.makeMove 0 3 4 7 None None c)))
  = StatusCheckmate black
  /\ NotationView.notationOfMove 0 3 4 7 None None c = Some "Qh4"%string
  /\ exists piece from isCapture,
       "Qh4"%string
       = NotationView.generateNotation piece from (4, 7) isCapture None None
           (at_color (Layered.isInCheck (Layered.gameState c))
                     (opponent (Layered.currentPlayer (Layered.gameState c))))
           (Layered.gameOver (Layered.gameState c)
            && at_color (Layered.isInCheck (Layered.gameState c))
                        (opponent (Layered.currentPlayer (Layered.gameState c))))
       /\ (at_color (Layered.isInCheck (Layered.gameState c))
                    (opponent (Layered.currentPlayer (Layered.gameState c))) = false ->
           "Qh4"%string
           = NotationView.generateNotation piece from (4, 7) isCapture None None false false).
Proof.
  cbv zeta. split; [vm_compute; reflexivity|]. split; [vm_compute; reflexivity|].
  apply (layered_notation_marks_are_stale 0 3 4 7 None None
           (Layered_clicks [(6, 5); (5, 5); (1, 4); (3, 4); (6, 6); (4, 6)] Layered_start)).
  vm_compute. reflexivity.
Defined.

(* ====================================================================== *)
(** * The history of the monolithic engine *)
(* ====================================================================== *)

Section MonoHistory.
Import Mono.

Lemma finishMove_fields o g :
  moveHistory (finishMove o g) = moveHistory g
  /\ board (finishMove o g) = board g
  /\ boardStates (finishMove o g) = boardStates g ++ [board g]
  /\ currentMoveIndex (finishMove o g) = Z.of_nat (length (moveHistory g))
  /\ currentPlayer (finishMove o g) = o.
Proof.
  unfold finishMove. cbv zeta.
  destruct (checkGameEndConditions_frame (updateCheckFlags (set_currentPlayer o g)))
    as (over & status & ->).
  rewrite deepCopyBoard_id. destruct over; repeat split; reflexivity.
Qed.

Lemma same_log_trans g1 g2 g3 : same_log g1 g2 -> same_log g2 g3 -> same_log g1 g3.
Proof. intros [A B] [C D]. split; congruence. Qed.

Ltac cases_of_goal :=
  repeat match goal with
         | |- context [if ?c then _ else _] => destruct c
         | |- context [match ?x with _ => _ end] => destruct x
         end.

Lemma log_pawnSpecialMoves piece fromRow fromCol toRow toCol captured promo g :
  same_log g (pawnSpecialMoves piece fromRow fromCol toRow toCol captured promo g).
Proof. unfold pawnSpecialMoves. cbv zeta. cases_of_goal; split; reflexivity. Qed.

Lemma log_castleRook piece fromRow fromCol toCol g :
  same_log g (castleRook piece fromRow fromCol toCol g).
Proof. unfold castleRook. cases_of_goal; split; reflexivity. Qed.

Lemma log_updateCastlingRights piece fromRow fromCol toRow toCol captured g :
  same_log g (updateCastlingRights piece fromRow fromCol toRow toCol captured g).
Proof. unfold updateCastlingRights. cbv zeta. cases_of_goal; split; reflexivity. Qed.


Lemma Mono_makeMove_effect fromRow fromCol toRow toCol promo g piece :
  cell (board g) fromRow fromCol = Some piece ->
  exists move,
    moveHistory (makeMove fromRow fromCol toRow toCol promo g) = moveHistory g ++ [move]
    /\ m_from move = (fromRow, fromCol) /\ m_to move = (toRow, toCol)
    /\ m_piece move = piece /\ m_player move = snd piece
    /\ m_capturedPiece move = cell (board g) toRow toCol
    /\ m_enPassantTarget move = enPassantTarget g
    /\ boardStates (makeMove fromRow fromCol toRow toCol promo g)
       = boardStates g ++ [board (makeMove fromRow fromCol toRow toCol promo g)]
    /\ currentMoveIndex (makeMove fromRow fromCol toRow toCol promo g)
       = Z.of_nat (length (moveHistory (makeMove fromRow fromCol toRow toCol promo g)))
    /\ currentPlayer (makeMove fromRow fromCol toRow toCol promo g) = opponent (snd piece).
Proof.
  intros Hp. unfold makeMove. rewrite Hp. cbv zeta.
  set (captured := cell (board g) toRow toCol).
  set (h := updateCastlingRights piece fromRow fromCol toRow toCol captured _).
  assert (Hh : same_log g h).
  { subst h. eapply same_log_trans; [|apply log_updateCastlingRights].
    eapply same_log_trans; [|apply log_castleRook].
    eapply same_log_trans; [|apply log_pawnSpecialMoves]. now split. }
  destruct Hh as [Hm Hb]. clearbody h.
  set (r := recordMove piece fromRow fromCol toRow toCol captured promo (enPassantTarget g) h).
  set (move := mkMove (fromRow, fromCol) (toRow, toCol) piece captured (snd piece)
                 (enPassantCaptureOf piece fromCol toRow toCol captured)
                 (promotedPieceOf piece toRow promo) (castlingOf piece fromCol toCol)
                 (enPassantTarget g) (castlingRights h)
                 (specialMoveOf piece fromCol toRow toCol captured promo)).
  assert (Hr : moveHistory r = moveHistory g ++ [move] /\ boardStates r = boardStates g).
  { subst r. unfold recordMove. cbv zeta. fold move.
    destruct captured; [destruct (enPassantCaptureOf _ _ _ _ _)|];
      (split; [cbn [moveHistory set_moveHistory pushCaptured set_capturedPieces];
               now rewrite Hm|exact Hb]). }
  destruct Hr as [Hrm Hrb]. clearbody r.
  set (m := movePiece piece fromRow fromCol toRow toCol promo r).
  assert (Hmv : moveHistory m = moveHistory g ++ [move] /\ boardStates m = boardStates g).
  { subst m. unfold movePiece. destruct (promotedPieceOf piece toRow promo);
      (split; [exact Hrm|exact Hrb]). }
  destruct Hmv as [Hmm Hmb]. clearbody m.
  destruct (finishMove_fields (opponent (snd piece)) m) as (F1 & F2 & F3 & F4 & F5).
  exists move. rewrite F1, F2, F3, F4, F5, Hmm, Hmb. repeat split; reflexivity.
Qed.

Lemma Mono_inv_makeMove fromRow fromCol toRow toCol promo g :
  Mono_history_inv g ->
  Mono_history_inv (makeMove fromRow fromCol toRow toCol promo g).
Proof.
  intros [Hlen Hidx]. destruct (cell (board g) fromRow fromCol) as [piece|] eqn:Hp.
  - destruct (Mono_makeMove_effect fromRow fromCol toRow toCol promo g piece Hp)
      as (move & Hm & _ & _ & _ & _ & _ & _ & Hb & Hi & _).
    unfold Mono_history_inv. rewrite Hb, Hi, Hm, !length_app. cbn [length]. lia.
  - unfold makeMove. rewrite Hp. now split.
Qed.

Lemma Mono_inv_truncate g :
  Mono_history_inv g -> Mono_history_inv (truncateMoveHistory g).
Proof.
  intros [Hlen Hidx]. unfold truncateMoveHistory, Mono_history_inv. cbv zeta.
  cbn [moveHistory boardStates currentMoveIndex set_moveHistory set_boardStates].
  rewrite !length_take. lia.
Qed.

Lemma Mono_inv_truncate_if g :
  Mono_history_inv g ->
  Mono_history_inv (if currentMoveIndex g <? Z.of_nat (length (moveHistory g))
                    then truncateMoveHistory g else g).
Proof. intros H. destruct (_ <? _); [now apply Mono_inv_truncate|exact H]. Qed.

Lemma Mono_inv_selection g sel moves :
  Mono_history_inv g -> Mono_history_inv (set_possibleMoves moves (set_selectedPiece sel g)).
Proof. intros H. exact H. Qed.

Lemma Mono_selectPiece_frame row col g :
  exists moves, selectPiece row col g = set_possibleMoves moves (set_selectedPiece (Some (row, col)) g).
Proof.
  unfold selectPiece. cbv zeta.
  pose proof (Mono_calculateLegalMoves_restores row col (set_selectedPiece (Some (row, col)) g))
    as H.
  destruct (calculateLegalMoves row col _) as [moves g1]. cbn [snd] in H. subst g1.
  now exists moves.
Qed.

Lemma Mono_inv_selectPiece row col g :
  Mono_history_inv g -> Mono_history_inv (selectPiece row col g).
Proof. intros H. destruct (Mono_selectPiece_frame row col g) as [moves ->]. exact H. Qed.

Lemma Mono_inv_handleSquareClick row col g :
  Mono_history_inv g -> Mono_history_inv (handleSquareClick row col g).
Proof.
  intros H. unfold handleSquareClick.
  destruct (selectedPiece g) as [[selectedRow selectedCol]|].
  - match goal with |- context [existsb ?f (possibleMoves g)] =>
      destruct (existsb f (possibleMoves g)) end.
    + destruct (cell (board g) selectedRow selectedCol) as [piece|]; [|exact H].
      cbv zeta. apply Mono_inv_selection. destruct (_ && _); [exact H|].
      now apply Mono_inv_makeMove, Mono_inv_truncate_if.
    + destruct (cell (board g) row col) as [p|]; [|exact H].
      destruct (endsWith p (currentPlayer g)); [now apply Mono_inv_selectPiece|exact H].
  - destruct (cell (board g) row col) as [p|]; [|exact H].
    destruct (endsWith p (currentPlayer g)); [now apply Mono_inv_selectPiece|exact H].
Qed.

Lemma Mono_inv_goToMove moveIndex g :
  Mono_history_inv g -> Mono_history_inv (goToMove moveIndex g).
Proof.
  intros [Hlen Hidx].
  destruct (Mono_goToMove_spec g moveIndex) as [Hin Hout].
  destruct (Z.ltb_spec moveIndex 0) as [Hlo|Hlo];
    [rewrite Hout by lia; now split|].
  destruct (Z.ltb_spec (Z.of_nat (length (moveHistory g))) moveIndex) as [Hhi|Hhi];
    [rewrite Hout by lia; now split|].
  destruct (Hin (conj Hlo Hhi)) as (Hi & _ & Hm & Hb & _).
  unfold Mono_history_inv. rewrite Hi, Hm, Hb. lia.
Qed.

Lemma Mono_inv_completePromotion pieceType g :
  Mono_history_inv g -> Mono_history_inv (completePromotion pieceType g).
Proof.
  intros H. unfold completePromotion.
  destruct (promotionMove g) as [[[fromRow fromCol] [toRow toCol]]|]; [|exact H].
  cbv zeta. pose proof (Mono_inv_truncate_if g H) as Ht.
  set (t := if _ <? _ then _ else _) in *. clearbody t.
  destruct (cell (board t) fromRow fromCol); [|exact Ht].
  exact (Mono_inv_makeMove fromRow fromCol toRow toCol (Some pieceType) t Ht).
Qed.

Lemma Mono_inv_token moveNotation g :
  Mono_history_inv g -> Mono_history_inv (snd (processAlgebraicNotation moveNotation g)).
Proof.
  intros H. unfold processAlgebraicNotation.
  destruct (String.eqb moveNotation ""); [exact H|].
  assert (Hc : forall k, Mono_history_inv (snd (processCastlingMove k g))).
  { intros k. unfold processCastlingMove. cbv zeta.
    destruct (cell (board g) _ 4) as [p|]; [|exact H].
    destruct (startsWith p king); [|exact H]. now apply Mono_inv_makeMove. }
  destruct (String.eqb moveNotation "O-O").
  { specialize (Hc true). now destruct (processCastlingMove true g). }
  destruct (String.eqb moveNotation "O-O-O").
  { specialize (Hc false). now destruct (processCastlingMove false g). }
  destruct (San.decode (San.chars moveNotation)) as [t| |]; try exact H.
  rewrite Mono_findAndMove_first.
  destruct (find _ allSquares) as [[row col]|]; [|exact H]. cbn [snd].
  destruct (San.destRow t), (San.destCol t); try exact H. now apply Mono_inv_makeMove.
Qed.

End MonoHistory.

Section MonoEnPassant.
Import Mono.

Ltac cases_of_goal :=
  repeat match goal with
         | |- context [if ?c then _ else _] => destruct c
         | |- context [match ?x with _ => _ end] => destruct x
         end.

Lemma ep_finishMove o g : enPassantTarget (finishMove o g) = enPassantTarget g.
Proof.
  unfold finishMove. cbv zeta.
  destruct (checkGameEndConditions_frame (updateCheckFlags (set_currentPlayer o g)))
    as (over & status & ->).
  destruct over; reflexivity.
Qed.

Lemma ep_movePiece piece fromRow fromCol toRow toCol promo g :
  enPassantTarget (movePiece piece fromRow fromCol toRow toCol promo g) = enPassantTarget g.
Proof. unfold movePiece. now destruct (promotedPieceOf piece toRow promo). Qed.

Lemma ep_recordMove piece fromRow fromCol toRow toCol captured promo old g :
  enPassantTarget (recordMove piece fromRow fromCol toRow toCol captured promo old g)
  = enPassantTarget g.
Proof.
  unfold recordMove. cbv zeta. destruct captured; [|reflexivity].
  now destruct (enPassantCaptureOf piece fromCol toRow toCol (Some p)).
Qed.

Lemma ep_updateCastlingRights piece fromRow fromCol toRow toCol captured g :
  enPassantTarget (updateCastlingRights piece fromRow fromCol toRow toCol captured g)
  = enPassantTarget g.
Proof. unfold updateCastlingRights. cbv zeta. cases_of_goal; reflexivity. Qed.

Lemma ep_castleRook piece fromRow fromCol toCol g :
  enPassantTarget (castleRook piece fromRow fromCol toCol g) = enPassantTarget g.
Proof. unfold castleRook. cases_of_goal; reflexivity. Qed.

Lemma ep_pawnSpecialMoves piece fromRow fromCol toRow toCol captured promo g :
  enPassantTarget (pawnSpecialMoves piece fromRow fromCol toRow toCol captured promo
                     (set_enPassantTarget None g))
  = if startsWith piece pawn && (Z.abs (fromRow - toRow) =? 2)
    then Some (enPassantRowOf (snd piece) toRow, toCol) else None.
Proof.
  unfold pawnSpecialMoves. cbv zeta.
  destruct (startsWith piece pawn); [|reflexivity]. cbn [andb].
  destruct (Z.abs (fromRow - toRow) =? 2); cases_of_goal; reflexivity.
Qed.

Lemma Mono_makeMove_enPassantTarget fromRow fromCol toRow toCol promo g piece :
  cell (board g) fromRow fromCol = Some piece ->
  enPassantTarget (makeMove fromRow fromCol toRow toCol promo g)
  = if startsWith piece pawn && (Z.abs (fromRow - toRow) =? 2)
    then Some (enPassantRowOf (snd piece) toRow, toCol) else None.
Proof.
  intros Hp. unfold makeMove. rewrite Hp. cbv zeta.
  rewrite ep_finishMove, ep_movePiece, ep_recordMove, ep_updateCastlingRights, ep_castleRook.
  apply ep_pawnSpecialMoves.
Qed.

End MonoEnPassant.



(** What [makeMove] of the monolithic engine records.  Whenever the
    source square holds a piece and the move stays on the board (the
    destination is a square of the board, and so is the square of the pawn
    taken by an en-passant capture; the move is not examined otherwise),
    exactly one record is appended, with the squares and the piece as
    given, the piece that stood on the destination and the en-passant
    target from before the move; one snapshot is appended, the board the
    move leaves; the viewed ply becomes the last one; and the player to
    move is the opponent of the piece that moved, whoever was to move
    before. *)
Theorem Mono_makeMove_records_the_move
    (fromRow fromCol toRow toCol : Z) (promotionPiece : option Kind) (g : Mono.Game)
    (piece : Mono.Piece) :
  cell (Mono.board g) fromRow fromCol = Some piece ->
  Mono_onBoard g piece fromCol toRow toCol = true ->
  let g' := Mono.makeMove fromRow fromCol toRow toCol promotionPiece g in
  exists move,
    Mono.moveHistory g' = Mono.moveHistory g ++ [move]
    /\ Mono.m_from move = (fromRow, fromCol) /\ Mono.m_to move = (toRow, toCol)
    /\ Mono.m_piece move = piece /\ Mono.m_player move = snd piece
    /\ Mono.m_capturedPiece move = cell (Mono.board g) toRow toCol
    /\ Mono.m_enPassantTarget move = Mono.enPassantTarget g
    /\ Mono.boardStates g' = Mono.boardStates g ++ [Mono.board g']
    /\ Mono.currentMoveIndex g' = Z.of_nat (length (Mono.moveHistory g'))
    /\ Mono.currentPlayer g' = opponent (snd piece).
Proof. intros Hp _ g'. now apply Mono_makeMove_effect. Qed.

(** A black pawn is moved although White is to move. *)
Lemma Mono_makeMove_out_of_turn :
  let g' := Mono.makeMove 1 4 3 4 None Mono.newGame in
  exists move,
    Mono.moveHistory g' = Mono.moveHistory Mono.newGame ++ [move]
    /\ Mono.m_from move = (1, 4) /\ Mono.m_to move = (3, 4)
    /\ Mono.m_piece move = (pawn, black) /\ Mono.m_player move = snd (pawn, black)
    /\ Mono.m_capturedPiece move = cell (Mono.board Mono.newGame) 3 4
    /\ Mono.m_enPassantTarget move = Mono.enPassantTarget Mono.newGame
    /\ Mono.boardStates g' = Mono.boardStates Mono.newGame ++ [Mono.board g']
    /\ Mono.currentMoveIndex g' = Z.of_nat (length (Mono.moveHistory g'))
    /\ Mono.currentPlayer g' = opponent (snd (pawn, black)).
Proof.
  apply (Mono_makeMove_records_the_move 1 4 3 4 None Mono.newGame (pawn, black)).
  - reflexivity.
  - reflexivity.
Defined.

(* ====================================================================== *)
(** * What a move of the layered engine leaves *)
(* ====================================================================== *)

Section LayeredMakeMove.
Import Layered.

Lemma addMove_frame move b s :
  currentPlayer (addMove move b s) = currentPlayer s
  /\ enPassantTarget (addMove move b s) = enPassantTarget s
  /\ kingPositions (addMove move b s) = kingPositions s
  /\ castlingRights (addMove move b s) = castlingRights s
  /\ capturedPieces (addMove move b s) = capturedPieces s
  /\ promotionPending (addMove move b s) = promotionPending s
  /\ promotionMove (addMove move b s) = promotionMove s.
Proof. unfold addMove. destruct (currentMoveIndex s <? _); repeat split; reflexivity. Qed.

Lemma updateCastlingRights_frame fr fc tr tc piece b s :
  enPassantTarget (updateCastlingRights fr fc tr tc piece b s) = enPassantTarget s
  /\ kingPositions (updateCastlingRights fr fc tr tc piece b s) = kingPositions s
  /\ capturedPieces (updateCastlingRights fr fc tr tc piece b s) = capturedPieces s
  /\ promotionPending (updateCastlingRights fr fc tr tc piece b s) = promotionPending s
  /\ promotionMove (updateCastlingRights fr fc tr tc piece b s) = promotionMove s.
Proof.
  unfold updateCastlingRights.
  repeat match goal with
         | |- context [if ?c then _ else _] => destruct c
         | |- context [getPiece ?x ?y ?z] => destruct (getPiece x y z)
         end; repeat split; reflexivity.
Qed.

Lemma playOnBoard_frame b gs piece fr fc tr tc sp promo :
  let '(_, gs', _, _, _, _) := playOnBoard b gs piece fr fc tr tc sp promo in
  kingPositions gs' = kingPositions gs
  /\ promotionPending gs' = promotionPending gs
  /\ promotionMove gs' = promotionMove gs.
Proof.
  unfold playOnBoard.
  destruct (isCastle sp); [now repeat split|].
  destruct (Kind_eqb (type piece) pawn); [|now repeat split].
  destruct (negb (fc =? tc) && isEmpty b tr tc).
  - destruct (getPiece b _ tc); destruct promo; cbv zeta;
      try destruct (Z.abs (fr - tr) =? 2); now repeat split.
  - destruct promo; cbv zeta; try destruct (Z.abs (fr - tr) =? 2); now repeat split.
Qed.

Lemma checkGameEndConditions_verdict v :
  let cur := currentPlayer (v_gameState v) in
  fst (checkGameEndConditions v) = (true, StatusCheckmate (opponent cur))
  \/ fst (checkGameEndConditions v) = (true, StatusStalemate)
  \/ fst (checkGameEndConditions v) = (false, StatusCheck cur)
  \/ fst (checkGameEndConditions v) = (false, StatusNone).
Proof.
  unfold checkGameEndConditions. cbv zeta.
  destruct (playerHasLegalMoves _ v) as [has v1].
  destruct (negb has); destruct (at_color _ _); cbn [fst]; auto.
Qed.


(** What [makeMove] leaves, when the source square holds a piece and the
    controller satisfies its invariant. *)
Lemma makeMove_shape fr fc tr tc sp promo c piece :
  ctrl_inv c ->
  getPiece (liveBoard c) fr fc = Some piece ->
  let '(b, gs1, capturedPiece, enPassantCapture, promotedPiece, castling) :=
    playOnBoard (liveBoard c) (set_enPassantTarget None (gameState c)) piece fr fc tr tc
                sp promo in
  exists move gs',
    makeMove fr fc tr tc sp promo c = (true, set_gameState gs' (writeBoard b c))
    /\ wf_grid b
    /\ currentPlayer gs' = opponent (color piece)
    /\ enPassantTarget gs' = enPassantTarget gs1
    /\ moveHistory gs'
       = take (Z.to_nat (currentMoveIndex (gameState c))) (moveHistory (gameState c)) ++ [move]
    /\ boardStates gs'
       = take (S (Z.to_nat (currentMoveIndex (gameState c)))) (boardStates (gameState c)) ++ [b]
    /\ currentMoveIndex gs' = Z.of_nat (length (moveHistory gs'))
    /\ (m_from move = (fr, fc) /\ m_to move = (tr, tc) /\ m_player move = color piece
        /\ m_capturedPiece move = capturedPiece
        /\ m_enPassantCapture move = enPassantCapture
        /\ m_promotedPiece move = promotedPiece /\ m_castling move = castling
        /\ m_enPassantTarget move = enPassantTarget (gameState c))
    /\ kingPositions gs'
       = (if Kind_eqb (type piece) king
          then set_color (kingPositions (gameState c)) (color piece) (tr, tc)
          else kingPositions (gameState c))
    /\ ((gameOver gs', gameStatus gs') = (true, StatusCheckmate (color piece))
        \/ (gameOver gs', gameStatus gs') = (true, StatusStalemate)
        \/ (gameOver gs', gameStatus gs') = (false, StatusCheck (opponent (color piece)))
        \/ (gameOver gs', gameStatus gs') = (false, StatusNone))
    /\ result gs' = PGNService.getPGNResult (gameStatus gs') (currentPlayer gs')
    /\ promotionPending gs' = promotionPending (gameState c)
    /\ promotionMove gs' = promotionMove (gameState c).
Proof.
  intros Hinv Hp.
  pose proof (playOnBoard_spec (liveBoard c) (set_enPassantTarget None (gameState c))
                piece fr fc tr tc sp promo (ctrl_inv_liveBoard c Hinv)) as Hplay.
  pose proof (playOnBoard_frame (liveBoard c) (set_enPassantTarget None (gameState c))
                piece fr fc tr tc sp promo) as Hframe.
  unfold makeMove. rewrite Hp, Hp.
  destruct (playOnBoard _ _ piece fr fc tr tc sp promo)
    as [[[[[b gs] capturedPiece] enPassantCapture] promotedPiece] castling].
  destruct Hplay as [Hwb Hsh]. destruct Hframe as (Fk & Fpp & Fpm).
  change (kingPositions gs = kingPositions (gameState c)) in Fk.
  change (promotionPending gs = promotionPending (gameState c)) in Fpp.
  change (promotionMove gs = promotionMove (gameState c)) in Fpm.
  set (gs1 := match capturedPiece, enPassantCapture with
              | Some p, None => pushCaptured (color piece) p gs
              | _, _ => gs
              end).
  assert (H1 : same_history (gameState c) gs1).
  { eapply same_history_trans; [apply sh_enPassantTarget|].
    eapply same_history_trans; [exact Hsh|].
    subst gs1. destruct capturedPiece, enPassantCapture;
      try apply same_history_refl. apply sh_pushCaptured. }
  assert (E1 : enPassantTarget gs1 = enPassantTarget gs /\ kingPositions gs1 = kingPositions gs
               /\ promotionPending gs1 = promotionPending gs
               /\ promotionMove gs1 = promotionMove gs).
  { subst gs1. destruct capturedPiece, enPassantCapture; repeat split; reflexivity. }
  clearbody gs1. destruct E1 as (E1 & K1 & P1 & Q1).
  pose proof (updateCastlingRights_frame fr fc tr tc piece b gs1) as (E2 & K2 & _ & P2 & Q2).
  pose proof (sh_updateCastlingRights fr fc tr tc piece b gs1) as H2.
  set (gs2 := updateCastlingRights fr fc tr tc piece b gs1) in *. clearbody gs2.
  set (gs3 := if Kind_eqb (type piece) king then _ else gs2).
  assert (H3 : same_history (gameState c) gs3).
  { eapply same_history_trans; [exact H1|]. eapply same_history_trans; [exact H2|].
    subst gs3. apply sh_if; [apply sh_kingPositions|apply same_history_refl]. }
  assert (E3 : enPassantTarget gs3 = enPassantTarget gs
               /\ kingPositions gs3
                  = (if Kind_eqb (type piece) king
                     then set_color (kingPositions (gameState c)) (color piece) (tr, tc)
                     else kingPositions (gameState c))
               /\ promotionPending gs3 = promotionPending (gameState c)
               /\ promotionMove gs3 = promotionMove (gameState c)).
  { subst gs3. destruct (Kind_eqb (type piece) king);
      cbn [enPassantTarget kingPositions promotionPending promotionMove set_kingPositions];
      repeat split; congruence. }
  clearbody gs3. destruct E3 as (E3 & K3 & P3 & Q3).
  set (move := mkMove _ _ _ _ _ _ _ _ _ _).
  pose proof Hinv as (Hh & Hb & Hv & Hs & Hi).
  pose proof (same_history_inv _ _ H3 Hi) as Hi3.
  pose proof (addMove_spec move (Board_clone b) gs3 Hi3) as (Em & Eb & Ec & Hi4).
  pose proof (addMove_frame move (Board_clone b) gs3) as (A1 & A2 & A3 & _ & _ & A6 & A7).
  set (gs4 := addMove move (Board_clone b) gs3) in *.
  set (c1 := set_gameState (set_currentPlayer (opponent (color piece)) gs4) (writeBoard b c)).
  assert (Hc1 : ctrl_inv c1).
  { assert (Hb4 : Forall wf_grid (boardStates gs4)).
    { rewrite Eb. apply wf_boardStates_push; [|now apply wf_Board_clone].
      destruct H3 as (_ & -> & _). exact Hs. }
    apply ctrl_inv_new_gameState.
    - now apply ctrl_inv_writeBoard.
    - exact Hb4.
    - exact (same_history_inv _ _ (sh_currentPlayer _ _) Hi4). }
  rewrite (storeValidator_updateCheckStatus c1).
  set (gs5 := v_gameState (updateCheckStatus (theValidator c1))).
  set (c2 := set_gameState gs5 c1).
  assert (Hc2 : ctrl_inv c2).
  { subst c2 gs5. rewrite <- storeValidator_updateCheckStatus.
    now apply ctrl_inv_updateCheckStatus. }
  pose proof (storeValidator_checkGameEnd c2 Hc2) as Hend.
  pose proof (checkGameEndConditions_verdict (theValidator c2)) as Hverdict.
  destruct (checkGameEndConditions (theValidator c2)) as [[over status] v].
  cbn [snd fst] in Hend, Hverdict. rewrite Hend.
  exists move, (updateResult (set_gameStatus status (set_gameOver over gs5))).
  destruct H3 as (Hm3 & Hb3 & Hc3).
  assert (Hcur : currentPlayer gs5 = opponent (color piece)) by reflexivity.
  change (currentPlayer (v_gameState (theValidator c2))) with (currentPlayer gs5) in Hverdict.
  rewrite Hcur in Hverdict.
  replace (opponent (opponent (color piece))) with (color piece) in Hverdict
    by now destruct (color piece).
  split; [reflexivity|]. split; [exact Hwb|].
  destruct Hverdict as [V|[V|[V|V]]]; injection V as -> ->;
    repeat match goal with
           | |- context [?f (updateResult ?x)] =>
               progress change (f (updateResult x)) with (f gs4)
           end;
    (split; [exact Hcur|]);
    (split; [congruence|]);
    (split; [rewrite Em, Hm3, Hc3; reflexivity|]);
    (split; [rewrite Eb, Hb3, Hc3, Board_clone_id; reflexivity|]);
    (split; [exact Ec|]);
    (split; [repeat split; reflexivity|]);
    (split; [congruence|]);
    (split; [auto|]);
    (split; [cbn; rewrite ?Hcur; now destruct (color piece)|]);
    (split; congruence).
Qed.

End LayeredMakeMove.
Section LayeredMoveFacts.
Import Layered.

Lemma playOnBoard_enPassantTarget b gs piece fr fc tr tc sp promo :
  let '(_, gs', _, _, _, _) :=
    playOnBoard b (set_enPassantTarget None gs) piece fr fc tr tc sp promo in
  enPassantTarget gs'
  = if isCastle sp || is_Some_b promo then None
    else doubleStepTarget (type piece) (color piece) fr tr tc.
Proof.
  unfold playOnBoard, doubleStepTarget.
  destruct (isCastle sp); [reflexivity|]. cbn [orb].
  destruct (Kind_eqb (type piece) pawn); [|now destruct promo]. cbn [andb].
  destruct (negb (fc =? tc) && isEmpty b tr tc).
  - destruct (getPiece b _ tc); destruct promo; cbv zeta; try reflexivity;
      destruct (Z.abs (fr - tr) =? 2); reflexivity.
  - destruct promo; cbv zeta; try reflexivity;
      destruct (Z.abs (fr - tr) =? 2); reflexivity.
Qed.

Lemma liveBoard_writeBoard b c gs :
  ctrl_inv c -> liveBoard (set_gameState gs (writeBoard b c)) = b.
Proof.
  intros (_ & Hb & _). unfold liveBoard, writeBoard. cbn. now apply deref_insert.
Qed.

End LayeredMoveFacts.

(** The en-passant target after a move.  In the monolithic engine, for
    a move that stays on the board (the destination is a square of the
    board, and so is the square of the pawn taken by an en-passant
    capture), it is the square passed over when the piece that moved is a
    pawn that advanced two rows, and none otherwise.  In the layered
    engine it is the same, for every destination, except that a call of
    [makeMove] with a castling mark or with a promotion piece leaves
    none. *)
Theorem en_passant_target_after_a_move :
  (forall (g : Mono.Game) (fromRow fromCol toRow toCol : Z) (promotionPiece : option Kind)
          (piece : Mono.Piece),
      cell (Mono.board g) fromRow fromCol = Some piece ->
      Mono_onBoard g piece fromCol toRow toCol = true ->
      Mono.enPassantTarget (Mono.makeMove fromRow fromCol toRow toCol promotionPiece g)
      = doubleStepTarget (fst piece) (snd piece) fromRow toRow toCol)
  /\ (forall (c : Layered.Controller) (fromRow fromCol toRow toCol : Z)
             (specialMove : option Layered.SpecialMove) (promotionPiece : option Kind)
             (piece : Layered.Piece),
         reachable c ->
         Layered.getPiece (Layered.liveBoard c) fromRow fromCol = Some piece ->
         Layered.enPassantTarget
           (Layered.gameState
              (snd (Layered.makeMove fromRow fromCol toRow toCol specialMove
                                     promotionPiece c)))
         = if Layered.isCastle specialMove || is_Some_b promotionPiece then None
           else doubleStepTarget (Layered.type piece) (Layered.color piece)
                                 fromRow toRow toCol).
Proof.
  split.
  - intros g fromRow fromCol toRow toCol promo piece Hp _.
    rewrite (Mono_makeMove_enPassantTarget _ _ _ _ _ _ piece Hp).
    unfold doubleStepTarget, Mono.startsWith, Mono.enPassantRowOf. reflexivity.
  - intros c fromRow fromCol toRow toCol sp promo piece Hr Hp.
    apply reachable_ctrl_inv in Hr.
    pose proof (makeMove_shape fromRow fromCol toRow toCol sp promo c piece Hr Hp) as H.
    pose proof (playOnBoard_enPassantTarget (Layered.liveBoard c) (Layered.gameState c) piece
                  fromRow fromCol toRow toCol sp promo) as He.
    destruct (Layered.playOnBoard _ _ piece fromRow fromCol toRow toCol sp promo)
      as [[[[[b gs1] cap] epc] promoted] castling].
    destruct H as (move & gs' & -> & _ & _ & E & _). cbn [snd Layered.gameState
      Layered.set_gameState]. now rewrite E.
Qed.

Lemma en_passant_target_after_e4 :
  Mono.enPassantTarget (Mono.makeMove 6 4 4 4 None Mono.newGame)
  = doubleStepTarget pawn white 6 4 4
  /\ Layered.enPassantTarget
       (Layered.gameState (snd (Layered.makeMove 6 4 4 4 None None Layered_start)))
     = doubleStepTarget pawn white 6 4 4.
Proof.
  split.
  - apply (proj1 en_passant_target_after_a_move Mono.newGame 6 4 4 4 None (pawn, white)).
    + reflexivity.
    + reflexivity.
  - apply (proj2 en_passant_target_after_a_move Layered_start 6 4 4 4 None None
                 (Layered.createPiece pawn white)).
    + apply reach_initialize.
    + reflexivity.
Defined.



(** The end of the game after a move of the layered engine.  In a
    reachable state, after [makeMove] has moved a piece, [gameOver],
    [gameStatus] and [result] agree: checkmate is always won by the
    colour of the piece that moved, with the result of that colour;
    stalemate is a draw; otherwise the game is not over and in progress,
    and a check is a check of the opponent of the piece that moved.  The
    result is the token [getPGNResult] writes into the export. *)
Theorem makeMove_verdict_and_result
    (c : Layered.Controller) (fromRow fromCol toRow toCol : Z)
    (specialMove : option Layered.SpecialMove) (promotionPiece : option Kind)
    (piece : Layered.Piece) :
  reachable c ->
  Layered.getPiece (Layered.liveBoard c) fromRow fromCol = Some piece ->
  let gs' :=
    Layered.gameState
      (snd (Layered.makeMove fromRow fromCol toRow toCol specialMove promotionPiece c)) in
  let mover := Layered.color piece in
  ((Layered.gameOver gs', Layered.gameStatus gs', Layered.result gs')
   = (true, StatusCheckmate mover,
      match mover with white => Layered.WHITE_WIN | black => Layered.BLACK_WIN end)
   \/ (Layered.gameOver gs', Layered.gameStatus gs', Layered.result gs')
      = (true, StatusStalemate, Layered.DRAW)
   \/ (Layered.gameOver gs', Layered.gameStatus gs', Layered.result gs')
      = (false, StatusCheck (opponent mover), Layered.IN_PROGRESS)
   \/ (Layered.gameOver gs', Layered.gameStatus gs', Layered.result gs')
      = (false, StatusNone, Layered.IN_PROGRESS))
  /\ Layered.result gs'
     = PGNService.getPGNResult (Layered.gameStatus gs') (Layered.currentPlayer gs').
Proof.
  intros Hr Hp. cbv zeta. apply reachable_ctrl_inv in Hr.
  pose proof (makeMove_shape fromRow fromCol toRow toCol specialMove promotionPiece c piece
                Hr Hp) as H.
  destruct (Layered.playOnBoard _ _ piece fromRow fromCol toRow toCol specialMove
                                promotionPiece)
    as [[[[[b gs1] cap] epc] promoted] castling].
  destruct H as (move & gs' & -> & _ & Hcur & _ & _ & _ & _ & _ & _ & Hv & Hres & _).
  cbn [snd Layered.gameState Layered.set_gameState].
  split; [|exact Hres]. rewrite Hres, Hcur.
  destruct Hv as [V|[V|[V|V]]]; injection V as -> ->;
    destruct (Layered.color piece); cbn; auto.
Qed.

Lemma verdict_of_the_fools_mate :
  let c := Layered_clicks [(6, 5); (5, 5); (1, 4); (3, 4); (6, 6); (4, 6)] Layered_start in
  let gs' := Layered.gameState (snd (Layered.makeMove 0 3 4 7 None None c)) in
  let mover := Layered.color (Layered.createPiece queen black) in
  ((Layered.gameOver gs', Layered.gameStatus gs', Layered.result gs')
   = (true, StatusCheckmate mover,
      match mover with white => Layered.WHITE_WIN | black => Layered.BLACK_WIN end)
   \/ (Layered.gameOver gs', Layered.gameStatus gs', Layered.result gs')
      = (true, StatusStalemate, Layered.DRAW)
   \/ (Layered.gameOver gs', Layered.gameStatus gs', Layered.result gs')
      = (false, StatusCheck (opponent mover), Layered.IN_PROGRESS)
   \/ (Layered.gameOver gs', Layered.gameStatus gs', Layered.result gs')
      = (false, StatusNone, Layered.IN_PROGRESS))
  /\ Layered.result gs'
     = PGNService.getPGNResult (Layered.gameStatus gs') (Layered.currentPlayer gs').
Proof.
  apply (makeMove_verdict_and_result
           (Layered_clicks [(6, 5); (5, 5); (1, 4); (3, 4); (6, 6); (4, 6)] Layered_start)
           0 3 4 7 None None (Layered.createPiece queen black)).
  - apply reachable_clicks, reach_initialize.
  - vm_compute. reflexivity.
Defined.
Section Promotion.

Lemma movePiece_leaves b fr fc tr tc piece :
  wf_grid b -> cell b fr fc = Some piece -> isInBounds tr tc = true ->
  cell (snd (Layered.movePiece b fr fc tr tc)) fr fc = None.
Proof.
  intros Hw Hp Hb. unfold Layered.movePiece.
  pose proof (cell_Some_in _ _ _ _ Hp) as Hf.
  rewrite Hf, Hb, Hp. cbn. apply cell_put_eq; [now apply wf_put|exact Hf].
Qed.

(** The board [playOnBoard] leaves when a pawn is moved without castling
    mark. *)
Lemma playOnBoard_pawn b gs piece fr fc tr tc sp promo :
  wf_grid b -> cell b fr fc = Some piece -> Layered.type piece = pawn ->
  Layered.isCastle sp = false -> isInBounds tr tc = true -> (fr, fc) <> (tr, tc) ->
  let '(b', _, _, _, promoted, _) := Layered.playOnBoard b gs piece fr fc tr tc sp promo in
  cell b' tr tc
  = Some (match promo with
          | Some k => Layered.createPiece k (Layered.color piece)
          | None => Layered.setHasMoved piece true
          end)
  /\ cell b' fr fc = None /\ promoted = promo.
Proof.
  intros Hw Hp Ht Hc Hb Hne. unfold Layered.playOnBoard. rewrite Hc, Ht. cbn [Kind_eqb].
  pose proof (cell_Some_in _ _ _ _ Hp) as Hf.
  set (ep := if negb (fc =? tc) && Layered.isEmpty b tr tc then _ else _).
  assert (Hep : let '(b1, _, _, _) := ep in wf_grid b1 /\ cell b1 fr fc = Some piece).
  { subst ep. destruct (negb (fc =? tc)) eqn:Hcol; cbn [andb]; [|now split].
    destruct (Layered.isEmpty b tr tc); [|now split].
    rewrite setPiece_put. split; [now apply wf_put|].
    rewrite cell_put_ne; [exact Hp|].
    apply negb_true_iff, Z.eqb_neq in Hcol. congruence. }
  destruct ep as [[[b1 gs1] cp] epc]. destruct Hep as [Hw1 Hp1].
  destruct promo as [k|].
  - rewrite !setPiece_put. split; [|split; [|reflexivity]].
    + rewrite cell_put_ne by assumption. now apply cell_put_eq.
    + apply cell_put_eq; [now apply wf_put|exact Hf].
  - split; [|split; [|reflexivity]].
    + now apply movePiece_arrives.
    + now apply (movePiece_leaves b1 fr fc tr tc piece).
Qed.

Import Mono.

Ltac cases_of_goal :=
  repeat match goal with
         | |- context [if ?c then _ else _] => destruct c
         | |- context [match ?x with _ => _ end] => destruct x
         end.

Lemma board_updateCastlingRights piece fromRow fromCol toRow toCol captured g :
  board (updateCastlingRights piece fromRow fromCol toRow toCol captured g) = board g.
Proof. unfold updateCastlingRights. cbv zeta. cases_of_goal; reflexivity. Qed.

Lemma board_recordMove piece fromRow fromCol toRow toCol captured promo old g :
  board (recordMove piece fromRow fromCol toRow toCol captured promo old g) = board g.
Proof.
  unfold recordMove. cbv zeta. destruct captured; [|reflexivity].
  now destruct (enPassantCaptureOf piece fromCol toRow toCol (Some p)).
Qed.

(** The board [makeMove] of the monolithic engine leaves when a pawn is
    moved to another square of the board. *)
Lemma Mono_makeMove_pawn fromRow fromCol toRow toCol promo g color :
  wf_grid (board g) ->
  cell (board g) fromRow fromCol = Some (pawn, color) ->
  isInBounds toRow toCol = true -> (fromRow, fromCol) <> (toRow, toCol) ->
  cell (board (makeMove fromRow fromCol toRow toCol promo g)) toRow toCol
  = Some (match promotedPieceOf (pawn, color) toRow promo with
          | Some k => k
          | None => pawn
          end, color)
  /\ cell (board (makeMove fromRow fromCol toRow toCol promo g)) fromRow fromCol = None.
Proof.
  intros Hw Hp Hb Hne. pose proof (cell_Some_in _ _ _ _ Hp) as Hf.
  unfold makeMove. rewrite Hp. cbv zeta.
  destruct (finishMove_fields (opponent (snd (pawn, color)))
              (movePiece (pawn, color) fromRow fromCol toRow toCol promo
                 (recordMove (pawn, color) fromRow fromCol toRow toCol
                    (cell (board g) toRow toCol) promo (enPassantTarget g)
                    (updateCastlingRights (pawn, color) fromRow fromCol toRow toCol
                       (cell (board g) toRow toCol)
                       (castleRook (pawn, color) fromRow fromCol toCol
                          (pawnSpecialMoves (pawn, color) fromRow fromCol toRow toCol
                             (cell (board g) toRow toCol) promo
                             (set_enPassantTarget None g)))))))
    as (_ & -> & _).
  set (captured := cell (board g) toRow toCol).
  set (p := pawnSpecialMoves (pawn, color) fromRow fromCol toRow toCol captured promo
              (set_enPassantTarget None g)).
  change (castleRook (pawn, color) fromRow fromCol toCol p) with p.
  assert (Hpawn : exists b1,
             wf_grid b1 /\ cell b1 fromRow fromCol = Some (pawn, color)
             /\ board p = match promotedPieceOf (pawn, color) toRow promo with
                          | Some k => put (put b1 fromRow fromCol None) toRow toCol
                                          (Some (k, color))
                          | None => b1
                          end).
  { subst p. unfold pawnSpecialMoves. cbv zeta. cbn [startsWith fst Kind_eqb snd].
    destruct (isEnPassantCapture (pawn, color) fromCol toCol captured) eqn:Hep.
    - exists (put (board g) (enPassantRowOf color toRow) toCol None).
      split; [now apply wf_put|]. split.
      + rewrite cell_put_ne; [exact Hp|].
        unfold isEnPassantCapture in Hep. cbn [startsWith fst Kind_eqb andb] in Hep.
        apply andb_true_iff in Hep as [Hcol _].
        apply negb_true_iff, Z.eqb_neq in Hcol. congruence.
      + destruct (promotedPieceOf (pawn, color) toRow promo);
          destruct (Z.abs (fromRow - toRow) =? 2); reflexivity.
    - exists (board g). split; [exact Hw|]. split; [exact Hp|].
      destruct (promotedPieceOf (pawn, color) toRow promo);
        destruct (Z.abs (fromRow - toRow) =? 2); reflexivity. }
  destruct Hpawn as (b1 & Hw1 & Hp1 & Hbp). clearbody p.
  unfold movePiece.
  destruct (promotedPieceOf (pawn, color) toRow promo) as [k|].
  - rewrite board_recordMove, board_updateCastlingRights, Hbp. split.
    + apply cell_put_eq; [now apply wf_put|exact Hb].
    + rewrite cell_put_ne by congruence. now apply cell_put_eq.
  - cbn [board set_board]. rewrite board_recordMove, board_updateCastlingRights, Hbp. split.
    + rewrite cell_put_ne by assumption. now apply cell_put_eq.
    + apply cell_put_eq; [now apply wf_put|exact Hf].
Qed.

End Promotion.
Section PromotionTheorems.

Lemma Mono_board_cleared g :
  Mono.board (Mono.set_promotionMove None (Mono.set_promotionPending false g)) = Mono.board g.
Proof. reflexivity. Qed.

Lemma Mono_promotedPieceOf_lastRank color toRow promo :
  Mono.promotedPieceOf (pawn, color) toRow promo
  = if toRow =? lastRank color
    then Some (match promo with Some k => k | None => queen end)
    else None.
Proof.
  unfold Mono.promotedPieceOf, Mono.startsWith, Mono.endsWith, lastRank.
  destruct color; cbn; destruct (toRow =? 0), (toRow =? 7); reflexivity.
Qed.

Lemma liveBoard_set_gameState gs c :
  Layered.liveBoard (Layered.set_gameState gs c) = Layered.liveBoard c.
Proof. reflexivity. Qed.

End PromotionTheorems.

(** The promotion dialog of the layered engine.  In a reachable state
    whose pending promotion names a pawn on the board and another square
    of the board, [completePromotion] puts a fresh piece of the chosen
    type and of the pawn's colour on the destination, empties the source,
    records the chosen type in the move appended to the history, and
    closes the dialog (the pending flag and the pending move are
    cleared). *)
Theorem completePromotion_places_the_chosen_piece
    (c : Layered.Controller) (pieceType : Kind) (fromRow fromCol toRow toCol : Z)
    (piece : Layered.Piece) :
  reachable c ->
  Layered.promotionMove (Layered.gameState c) = Some ((fromRow, fromCol), (toRow, toCol)) ->
  Layered.getPiece (Layered.liveBoard c) fromRow fromCol = Some piece ->
  Layered.type piece = pawn ->
  isInBounds toRow toCol = true ->
  (fromRow, fromCol) <> (toRow, toCol) ->
  let c' := Layered.completePromotion pieceType c in
  Layered.getPiece (Layered.liveBoard c') toRow toCol
  = Some (Layered.createPiece pieceType (Layered.color piece))
  /\ Layered.getPiece (Layered.liveBoard c') fromRow fromCol = None
  /\ (exists move,
        Layered.moveHistory (Layered.gameState c')
        = take (Z.to_nat (Layered.currentMoveIndex (Layered.gameState c)))
               (Layered.moveHistory (Layered.gameState c)) ++ [move]
        /\ Layered.m_promotedPiece move = Some pieceType)
  /\ Layered.promotionPending (Layered.gameState c') = false
  /\ Layered.promotionMove (Layered.gameState c') = None.
Proof.
  intros Hr Hpm Hp Ht Hb Hne. cbv zeta.
  pose proof (reachable_ctrl_inv _ Hr) as Hinv.
  pose proof (makeMove_shape fromRow fromCol toRow toCol None (Some pieceType) c piece
                Hinv Hp) as H.
  assert (Hcell : cell (Layered.liveBoard c) fromRow fromCol = Some piece)
    by (now rewrite <- getPiece_cell).
  pose proof (playOnBoard_pawn (Layered.liveBoard c)
                (Layered.set_enPassantTarget None (Layered.gameState c)) piece
                fromRow fromCol toRow toCol None (Some pieceType)
                (ctrl_inv_liveBoard c Hinv) Hcell Ht eq_refl Hb Hne) as Hboard.
  unfold Layered.completePromotion. rewrite Hpm.
  destruct (Layered.playOnBoard _ _ piece fromRow fromCol toRow toCol None (Some pieceType))
    as [[[[[b gs1] cap] epc] promoted] castling].
  destruct H as (move & gs' & -> & _ & _ & _ & Hm & _ & _ & Hrec & _).
  destruct Hboard as (Hto & Hfrom & ->).
  cbn [snd].
  rewrite liveBoard_set_gameState, (liveBoard_writeBoard b c gs' Hinv), !getPiece_cell.
  split; [exact Hto|]. split; [exact Hfrom|]. split.
  - exists move. split; [exact Hm|]. now destruct Hrec as (_ & _ & _ & _ & _ & R & _).
  - split; reflexivity.
Qed.

(** The pawn on b7 takes the rook on a8 and becomes a knight. *)
Lemma promotion_to_a_knight_on_a8 :
  let c' := Layered.completePromotion knight Layered_promotion_pending in
  Layered.getPiece (Layered.liveBoard c') 0 0 = Some (Layered.createPiece knight white)
  /\ Layered.getPiece (Layered.liveBoard c') 1 1 = None
  /\ (exists move,
        Layered.moveHistory (Layered.gameState c')
        = take (Z.to_nat (Layered.currentMoveIndex (Layered.gameState Layered_promotion_pending)))
               (Layered.moveHistory (Layered.gameState Layered_promotion_pending)) ++ [move]
        /\ Layered.m_promotedPiece move = Some knight)
  /\ Layered.promotionPending (Layered.gameState c') = false
  /\ Layered.promotionMove (Layered.gameState c') = None.
Proof.
  apply (completePromotion_places_the_chosen_piece Layered_promotion_pending knight 1 1 0 0
           (Layered.setHasMoved (Layered.createPiece pawn white) true)).
  - apply reachable_clicks, reach_initialize.
  - vm_compute; reflexivity.
  - vm_compute; reflexivity.
  - reflexivity.
  - reflexivity.
  - discriminate.
Defined.

(** The promotion dialog of the monolithic engine.  When the pending
    promotion names a pawn on the 8x8 board and another square, and the
    move stays on the board (the destination is a square of the board,
    and so is the square of the pawn taken if the move is an en-passant
    capture), [completePromotion] moves the pawn there and closes the
    dialog; the chosen type is used when the destination is on the last
    rank of the pawn's colour, and ignored otherwise (the pawn stays a
    pawn). *)
Theorem Mono_completePromotion_places_the_chosen_piece
    (g : Mono.Game) (pieceType : Kind) (fromRow fromCol toRow toCol : Z) (color : Color) :
  wf_grid (Mono.board g) ->
  Mono.promotionMove g = Some ((fromRow, fromCol), (toRow, toCol)) ->
  cell (Mono.board g) fromRow fromCol = Some (pawn, color) ->
  Mono_onBoard g (pawn, color) fromCol toRow toCol = true ->
  (fromRow, fromCol) <> (toRow, toCol) ->
  let g' := Mono.completePromotion pieceType g in
  cell (Mono.board g') toRow toCol
  = Some (if toRow =? lastRank color then pieceType else pawn, color)
  /\ cell (Mono.board g') fromRow fromCol = None
  /\ Mono.promotionPending g' = false
  /\ Mono.promotionMove g' = None.
Proof.
  intros Hw Hpm Hp Hon Hne. cbv zeta.
  assert (Hb : isInBounds toRow toCol = true)
    by (unfold Mono_onBoard in Hon; now apply andb_true_iff in Hon as [Hb _]).
  unfold Mono.completePromotion. rewrite Hpm.
  set (g1 := if Mono.currentMoveIndex g <? Z.of_nat (length (Mono.moveHistory g))
             then Mono.truncateMoveHistory g else g).
  assert (Hb1 : Mono.board g1 = Mono.board g) by (subst g1; now destruct (_ <? _)).
  clearbody g1. rewrite Hb1, Hp.
  rewrite <- Hb1 in Hw, Hp.
  pose proof (Mono_makeMove_pawn fromRow fromCol toRow toCol (Some pieceType) g1 color
                Hw Hp Hb Hne) as [Hto Hfrom].
  rewrite Mono_promotedPieceOf_lastRank in Hto.
  rewrite Mono_board_cleared. split.
  - rewrite Hto. now destruct (toRow =? lastRank color).
  - split; [exact Hfrom|]. split; reflexivity.
Qed.

(** The pawn on b7 takes the rook on a8 and becomes a knight. *)
Lemma Mono_promotion_to_a_knight_on_a8 :
  let g' := Mono.completePromotion knight Mono_promotion_pending in
  cell (Mono.board g') 0 0 = Some (if 0 =? lastRank white then knight else pawn, white)
  /\ cell (Mono.board g') 1 1 = None
  /\ Mono.promotionPending g' = false
  /\ Mono.promotionMove g' = None.
Proof.
  apply (Mono_completePromotion_places_the_chosen_piece Mono_promotion_pending knight 1 1 0 0
           white).
  - vm_compute. split; [reflexivity|repeat constructor].
  - vm_compute; reflexivity.
  - vm_compute; reflexivity.
  - vm_compute; reflexivity.
  - discriminate.
Defined.

(** A pawn moved to its last rank by [makeMove] with no promotion piece
    given: the monolithic engine puts a queen there, the layered engine
    leaves the pawn a pawn (marked as moved). *)
Theorem promotion_without_a_choice :
  (forall (g : Mono.Game) (fromRow fromCol toCol : Z) (color : Color),
      wf_grid (Mono.board g) ->
      cell (Mono.board g) fromRow fromCol = Some (pawn, color) ->
      isInBounds (lastRank color) toCol = true ->
      fromRow <> lastRank color ->
      cell (Mono.board (Mono.makeMove fromRow fromCol (lastRank color) toCol None g))
           (lastRank color) toCol
      = Some (queen, color))
  /\ (forall (c : Layered.Controller) (fromRow fromCol toCol : Z) (piece : Layered.Piece)
             (specialMove : option Layered.SpecialMove),
         reachable c ->
         Layered.getPiece (Layered.liveBoard c) fromRow fromCol = Some piece ->
         Layered.type piece = pawn ->
         Layered.isCastle specialMove = false ->
         isInBounds (lastRank (Layered.color piece)) toCol = true ->
         fromRow <> lastRank (Layered.color piece) ->
         Layered.getPiece
           (Layered.liveBoard
              (snd (Layered.makeMove fromRow fromCol (lastRank (Layered.color piece)) toCol
                                     specialMove None c)))
           (lastRank (Layered.color piece)) toCol
         = Some (Layered.setHasMoved piece true)).
Proof.
  split.
  - intros g fromRow fromCol toCol color Hw Hp Hb Hne.
    assert (Hsq : (fromRow, fromCol) <> (lastRank color, toCol)) by congruence.
    pose proof (Mono_makeMove_pawn fromRow fromCol (lastRank color) toCol None g color
                  Hw Hp Hb Hsq) as [Hto _].
    rewrite Mono_promotedPieceOf_lastRank, Z.eqb_refl in Hto. exact Hto.
  - intros c fromRow fromCol toCol piece specialMove Hr Hp Ht Hc Hb Hne.
    assert (Hsq : (fromRow, fromCol) <> (lastRank (Layered.color piece), toCol))
      by congruence.
    pose proof (reachable_ctrl_inv _ Hr) as Hinv.
    pose proof (makeMove_shape fromRow fromCol (lastRank (Layered.color piece)) toCol
                  specialMove None c piece Hinv Hp) as H.
    assert (Hcell : cell (Layered.liveBoard c) fromRow fromCol = Some piece)
      by (now rewrite <- getPiece_cell).
    pose proof (playOnBoard_pawn (Layered.liveBoard c)
                  (Layered.set_enPassantTarget None (Layered.gameState c)) piece
                  fromRow fromCol (lastRank (Layered.color piece)) toCol specialMove None
                  (ctrl_inv_liveBoard c Hinv) Hcell Ht Hc Hb Hsq) as Hboard.
    destruct (Layered.playOnBoard _ _ piece fromRow fromCol _ toCol specialMove None)
      as [[[[[b gs1] cap] epc] promoted] castling].
    destruct H as (move & gs' & -> & _).
    destruct Hboard as (Hto & _).
    cbn [snd]. rewrite (liveBoard_writeBoard b c gs' Hinv), getPiece_cell. exact Hto.
Qed.

(** The pawn on b7 takes the rook on a8 without a promotion piece. *)
Lemma promotion_without_a_choice_on_a8 :
  cell (Mono.board (Mono.makeMove 1 1 (lastRank white) 0 None Mono_promotion_pending))
       (lastRank white) 0
  = Some (queen, white)
  /\ Layered.getPiece
       (Layered.liveBoard
          (snd (Layered.makeMove 1 1
                  (lastRank (Layered.color (Layered.setHasMoved (Layered.createPiece pawn white) true)))
                  0 None None Layered_promotion_pending)))
       (lastRank (Layered.color (Layered.setHasMoved (Layered.createPiece pawn white) true))) 0
     = Some (Layered.setHasMoved (Layered.setHasMoved (Layered.createPiece pawn white) true) true).
Proof.
  split.
  - apply (proj1 promotion_without_a_choice Mono_promotion_pending 1 1 0 white).
    + vm_compute. split; [reflexivity|repeat constructor].
    + vm_compute; reflexivity.
    + reflexivity.
    + discriminate.
  - apply (proj2 promotion_without_a_choice Layered_promotion_pending 1 1 0
             (Layered.setHasMoved (Layered.createPiece pawn white) true) None).
    + apply reachable_clicks, reach_initialize.
    + vm_compute; reflexivity.
    + reflexivity.
    + reflexivity.
    + reflexivity.
    + discriminate.
Defined.

(* ====================================================================== *)
(** * Board.js: reading a square after writing one *)
(* ====================================================================== *)

Section BoardContract.

Lemma same_square_spec (r c row col : Z) :
  (r =? row) && (c =? col) = true <-> (row, col) = (r, c).
Proof.
  rewrite andb_true_iff, !Z.eqb_eq. split; [intros [-> ->]; reflexivity|].
  intros [= -> ->]. now split.
Qed.

Lemma cell_after_put (A : Type) (g : Grid A) row col v r c :
  wf_grid g ->
  cell (put g row col v) r c
  = if isInBounds row col && ((r =? row) && (c =? col)) then v else cell g r c.
Proof.
  intros Hw. destruct (isInBounds row col) eqn:Hb; cbn [andb].
  - destruct ((r =? row) && (c =? col)) eqn:E.
    + apply same_square_spec in E. injection E as <- <-. now apply cell_put_eq.
    + apply cell_put_ne. intros E'. apply same_square_spec in E'. congruence.
  - now rewrite put_out.
Qed.

End BoardContract.

(** [Board.setPiece] followed by [Board.getPiece], on an 8x8 board.  The
    write succeeds exactly on the squares of the board; afterwards the
    written square reads as the value written, and every other square, on
    or off the board, reads as before. *)
Theorem getPiece_after_setPiece
    (b : Layered.Board) (row col : Z) (piece : option Layered.Piece) (r c : Z) :
  wf_grid b ->
  fst (Layered.setPiece b row col piece) = isInBounds row col
  /\ wf_grid (snd (Layered.setPiece b row col piece))
  /\ Layered.getPiece (snd (Layered.setPiece b row col piece)) r c
     = if isInBounds row col && ((r =? row) && (c =? col))
       then piece
       else Layered.getPiece b r c.
Proof.
  intros Hw. split; [|split].
  - unfold Layered.setPiece. now destruct (isInBounds row col).
  - rewrite setPiece_put. now apply wf_put.
  - rewrite setPiece_put, !getPiece_cell. now apply cell_after_put.
Qed.

(** A knight is put on e4 of the initial board, and e4 is read. *)
Lemma getPiece_after_setPiece_on_e4 :
  fst (Layered.setPiece (Layered.liveBoard Layered_start) 4 4
         (Some (Layered.createPiece knight white))) = isInBounds 4 4
  /\ wf_grid (snd (Layered.setPiece (Layered.liveBoard Layered_start) 4 4
                     (Some (Layered.createPiece knight white))))
  /\ Layered.getPiece
       (snd (Layered.setPiece (Layered.liveBoard Layered_start) 4 4
               (Some (Layered.createPiece knight white)))) 4 4
     = if isInBounds 4 4 && ((4 =? 4) && (4 =? 4))
       then Some (Layered.createPiece knight white)
       else Layered.getPiece (Layered.liveBoard Layered_start) 4 4.
Proof.
  apply (getPiece_after_setPiece (Layered.liveBoard Layered_start) 4 4
           (Some (Layered.createPiece knight white)) 4 4).
  vm_compute. split; [reflexivity|repeat constructor].
Defined.

(** [Board.movePiece] on an 8x8 board.  With an empty source square
    nothing happens and [null] is returned.  With a piece on the source
    and a destination on the board, the object that stood on the
    destination is returned; afterwards the source is empty, the
    destination holds the piece marked as moved, and every other square
    reads as before.  When source and destination are the same square the
    source is emptied last, so the piece disappears from the board, and
    the object returned is the piece itself, marked as moved. *)
Theorem movePiece_contract
    (b : Layered.Board) (fromRow fromCol toRow toCol : Z) :
  wf_grid b ->
  isInBounds toRow toCol = true ->
  match Layered.getPiece b fromRow fromCol with
  | None => Layered.movePiece b fromRow fromCol toRow toCol = (None, b)
  | Some piece =>
      fst (Layered.movePiece b fromRow fromCol toRow toCol)
      = (if (fromRow =? toRow) && (fromCol =? toCol)
         then Some (Layered.setHasMoved piece true)
         else Layered.getPiece b toRow toCol)
      /\ wf_grid (snd (Layered.movePiece b fromRow fromCol toRow toCol))
      /\ forall r c,
           Layered.getPiece (snd (Layered.movePiece b fromRow fromCol toRow toCol)) r c
           = if (r =? fromRow) && (c =? fromCol) then None
             else if (r =? toRow) && (c =? toCol)
                  then Some (Layered.setHasMoved piece true)
                  else Layered.getPiece b r c
  end.
Proof.
  intros Hw Hb. rewrite getPiece_cell.
  destruct (cell b fromRow fromCol) as [piece|] eqn:Hp.
  - pose proof (cell_Some_in _ _ _ _ Hp) as Hf.
    unfold Layered.movePiece. rewrite Hf, Hb, Hp. cbn [negb orb fst snd].
    split; [now rewrite getPiece_cell|]. split; [now apply wf_put, wf_put|].
    intros r c. rewrite !getPiece_cell, cell_after_put by now apply wf_put.
    rewrite Hf. cbn [andb].
    destruct ((r =? fromRow) && (c =? fromCol)); [reflexivity|].
    rewrite cell_after_put by assumption. now rewrite Hb.
  - unfold Layered.movePiece. rewrite Hp.
    now destruct (negb (isInBounds fromRow fromCol) || negb (isInBounds toRow toCol)).
Qed.

(** The pawn on a2 of the initial board is moved from a2 to a2: it is
    returned, marked, and a2 is empty afterwards. *)
Lemma movePiece_from_a2_to_a2 :
  match Layered.getPiece (Layered.liveBoard Layered_start) 6 0 with
  | None => Layered.movePiece (Layered.liveBoard Layered_start) 6 0 6 0
            = (None, Layered.liveBoard Layered_start)
  | Some piece =>
      fst (Layered.movePiece (Layered.liveBoard Layered_start) 6 0 6 0)
      = (if (6 =? 6) && (0 =? 0)
         then Some (Layered.setHasMoved piece true)
         else Layered.getPiece (Layered.liveBoard Layered_start) 6 0)
      /\ wf_grid (snd (Layered.movePiece (Layered.liveBoard Layered_start) 6 0 6 0))
      /\ forall r c,
           Layered.getPiece (snd (Layered.movePiece (Layered.liveBoard Layered_start) 6 0 6 0))
                            r c
           = if (r =? 6) && (c =? 0) then None
             else if (r =? 6) && (c =? 0)
                  then Some (Layered.setHasMoved piece true)
                  else Layered.getPiece (Layered.liveBoard Layered_start) r c
  end.
Proof.
  apply (movePiece_contract (Layered.liveBoard Layered_start) 6 0 6 0).
  - vm_compute. split; [reflexivity|repeat constructor].
  - reflexivity.
Defined.

(* ====================================================================== *)
(** * The store of board objects under the operations of the controller *)
(* ====================================================================== *)

Section LayeredStore.
Import Layered.

(** What [goToMove] leaves of the game state: everything but the viewed
    ply, the player to move, the check flags and the verdict. *)
Lemma goToMove_store moveIndex c :
  ctrl_inv c ->
  goToMove moveIndex c = c
  \/ exists snapshot gs,
       goToMove moveIndex c = set_gameState gs (rebindBoard snapshot c)
       /\ castlingRights gs = castlingRights (gameState c)
       /\ enPassantTarget gs = enPassantTarget (gameState c)
       /\ kingPositions gs = kingPositions (gameState c)
       /\ capturedPieces gs = capturedPieces (gameState c)
       /\ result gs = result (gameState c)
       /\ promotionPending gs = promotionPending (gameState c)
       /\ promotionMove gs = promotionMove (gameState c).
Proof.
  intros Hinv.
  destruct ((moveIndex <? 0)
            || (Z.of_nat (length (moveHistory (gameState c))) <? moveIndex)) eqn:Hguard.
  { left. unfold goToMove. now rewrite Hguard. }
  right. apply orb_false_iff in Hguard as [Hlo Hhi]. apply Z.ltb_ge in Hlo, Hhi.
  pose proof Hinv as (Hh & Hb & Hv & Hs & Hlen & Hidx).
  destruct (lookup_lt_is_Some_2 (boardStates (gameState c)) (Z.to_nat moveIndex))
    as [snapshot Hsnap]; [lia|].
  assert (Hw : wf_grid snapshot) by (eapply Forall_lookup_1; eauto).
  exists snapshot.
  unfold goToMove.
  replace ((moveIndex <? 0) || _) with false
    by (symmetry; apply orb_false_iff; split; apply Z.ltb_ge; lia).
  replace (moveIndex <=? _) with true by (symmetry; apply Z.leb_le; lia).
  rewrite Hsnap, Board_clone_id.
  set (c1 := rebindBoard snapshot c).
  assert (Hc1 : ctrl_inv c1) by now apply ctrl_inv_rebindBoard.
  set (gs := set_currentPlayer _ (set_currentMoveIndex moveIndex (gameState c1))).
  set (c2 := set_gameState gs c1).
  assert (Hc2 : ctrl_inv c2).
  { destruct Hc1 as (Hh1 & Hb1 & Hv1 & Hs1 & Hi1).
    repeat split; try assumption; cbn; try assumption; lia. }
  rewrite (storeValidator_updateCheckStatus c2).
  set (gs3 := v_gameState (updateCheckStatus (theValidator c2))).
  assert (F3 : castlingRights gs3 = castlingRights (gameState c)
               /\ enPassantTarget gs3 = enPassantTarget (gameState c)
               /\ kingPositions gs3 = kingPositions (gameState c)
               /\ capturedPieces gs3 = capturedPieces (gameState c)
               /\ result gs3 = result (gameState c)
               /\ promotionPending gs3 = promotionPending (gameState c)
               /\ promotionMove gs3 = promotionMove (gameState c))
    by (repeat split; reflexivity).
  assert (Hc3 : ctrl_inv (set_gameState gs3 c2)).
  { apply ctrl_inv_set_gameState; [assumption|]. apply (sh_updateCheckStatus (theValidator c2)). }
  clearbody gs3.
  set (c3 := set_gameState gs3 c2) in *.
  change (length (moveHistory (gameState c3))) with (length (moveHistory gs3)).
  destruct (moveIndex =? _).
  - pose proof (storeValidator_checkGameEnd c3 Hc3) as Hend.
    destruct (checkGameEndConditions (theValidator c3)) as [[over status] v].
    cbn [snd] in Hend. rewrite Hend.
    exists (set_gameStatus status (set_gameOver over gs3)).
    split; [reflexivity|]. exact F3.
  - exists (set_gameStatus StatusNone (set_gameOver false gs3)).
    split; [reflexivity|]. exact F3.
Qed.

Lemma store_change_refl c : store_change c c.
Proof. now apply store_same. Qed.

(** Assignments to the game state and to the selection leave the store. *)
Lemma store_change_fields c c' gs sel moves :
  store_change c c' ->
  store_change c (set_possibleMoves moves (set_selectedPiece sel (set_gameState gs c'))).
Proof.
  intros [H1 H2 H3|b H1 H2 H3|b H1 H2 H3];
    [apply store_same|apply (store_write _ _ b)|apply (store_rebind _ _ b)]; assumption.
Qed.

Lemma store_change_gameState c c' gs :
  store_change c c' -> store_change c (set_gameState gs c').
Proof.
  intros [H1 H2 H3|b H1 H2 H3|b H1 H2 H3];
    [apply store_same|apply (store_write _ _ b)|apply (store_rebind _ _ b)]; assumption.
Qed.

Lemma store_change_clearSelection c c' :
  store_change c c' -> store_change c (clearSelection c').
Proof.
  intros [H1 H2 H3|b H1 H2 H3|b H1 H2 H3];
    [apply store_same|apply (store_write _ _ b)|apply (store_rebind _ _ b)]; assumption.
Qed.

Lemma store_change_goToMove moveIndex c :
  ctrl_inv c -> store_change c (goToMove moveIndex c).
Proof.
  intros Hinv. destruct (goToMove_store moveIndex c Hinv) as [->|(snapshot & gs & -> & _)].
  - apply store_change_refl.
  - now apply (store_rebind _ _ snapshot).
Qed.

Lemma store_change_makeMove fr fc tr tc sp promo c :
  ctrl_inv c -> store_change c (snd (makeMove fr fc tr tc sp promo c)).
Proof.
  intros Hinv.
  destruct (makeMove_source fr fc tr tc sp promo c) as [->|(fr' & fc' & piece & Hp & ->)].
  - apply store_change_refl.
  - pose proof (makeMove_shape fr' fc' tr tc sp promo c piece Hinv Hp) as H.
    destruct (playOnBoard _ _ piece fr' fc' tr tc sp promo)
      as [[[[[b gs1] cap] epc] promoted] castling].
    destruct H as (move & gs' & -> & _).
    now apply (store_write _ _ b).
Qed.

Lemma store_change_selectPiece row col c :
  ctrl_inv c -> store_change c (selectPiece row col c).
Proof.
  intros Hinv. destruct (selectPiece_frame row col c Hinv) as (sel & moves & ->).
  now apply store_same.
Qed.

Lemma store_change_completePromotion k c :
  ctrl_inv c -> store_change c (completePromotion k c).
Proof.
  intros Hinv. unfold completePromotion.
  destruct (promotionMove (gameState c)) as [[[fr fc] [tr tc]]|]; [|apply store_change_refl].
  now apply store_change_gameState, store_change_makeMove.
Qed.

Lemma store_change_resetGame c : store_change c (resetGame c).
Proof.
  unfold resetGame. apply store_change_clearSelection, store_change_gameState.
  now apply (store_write _ _ createInitialBoard).
Qed.

Lemma store_change_handleSquareClick row col c :
  ctrl_inv c -> store_change c (handleSquareClick row col c).
Proof.
  intros Hinv. unfold handleSquareClick.
  destruct (gameOver (gameState c) || promotionPending (gameState c));
    [apply store_change_refl|].
  destruct (currentMoveIndex (gameState c) <? _).
  { now apply store_change_clearSelection, store_change_goToMove. }
  destruct (selectedPiece c) as [[selectedRow selectedCol]|].
  - destruct (findMove row col (possibleMoves c)) as [[[r0 c0] special]|].
    + apply store_change_clearSelection.
      destruct (match getPiece (liveBoard c) selectedRow selectedCol with
                | Some p => _ | None => false end).
      * unfold promptPromotion. apply store_change_gameState, store_change_refl.
      * now apply store_change_makeMove.
    + destruct (getPiece (liveBoard c) row col) as [clicked|].
      * destruct (Color_eqb _ _); [now apply store_change_selectPiece|].
        apply store_change_refl || apply store_change_clearSelection, store_change_refl.
      * apply store_change_refl || apply store_change_clearSelection, store_change_refl.
  - destruct (getPiece (liveBoard c) row col) as [piece|]; [|apply store_change_refl].
    destruct (Color_eqb _ _); [now apply store_change_selectPiece|apply store_change_refl].
Qed.

Lemma store_change_step c c' : ctrl_inv c -> Layered_step c c' -> store_change c c'.
Proof.
  intros Hinv [row col|moveIndex|k| |fr fc tr tc sp promo| |o].
  - now apply store_change_handleSquareClick.
  - now apply store_change_goToMove.
  - now apply store_change_completePromotion.
  - apply store_change_resetGame.
  - now apply store_change_makeMove.
  - unfold flipBoard. apply store_change_gameState, store_change_refl.
  - unfold restoreOrientation. apply store_change_gameState, store_change_refl.
Qed.

(** Once the two references differ, no change of the store reaches the
    object the validator examines. *)
Lemma store_change_frozen c c' :
  ctrl_inv c -> detached c -> store_change c c' ->
  detached c' /\ v_board (theValidator c') = v_board (theValidator c).
Proof.
  intros (_ & Hb & Hv & _) Hd [H1 H2 H3|b H1 H2 H3|b H1 H2 H3];
    unfold detached, theValidator, deref in *; cbn [v_board]; rewrite H1, H2, H3.
  - now split.
  - split; [exact Hd|]. apply list_lookup_total_insert_ne. exact Hd.
  - split; [lia|]. now apply lookup_total_app_l.
Qed.

End LayeredStore.
(** Navigation restores the board and nothing else of the position.  In
    every reachable state and for every index, [goToMove] leaves the
    castling rights, the en-passant target, the recorded king positions,
    the captured pieces, the result and the pending promotion as they
    were: they remain those of the last position played, whatever ply is
    shown. *)
Theorem navigation_restores_only_the_board (c : Layered.Controller) (moveIndex : Z) :
  reachable c ->
  let gs := Layered.gameState c in
  let gs' := Layered.gameState (Layered.goToMove moveIndex c) in
  Layered.castlingRights gs' = Layered.castlingRights gs
  /\ Layered.enPassantTarget gs' = Layered.enPassantTarget gs
  /\ Layered.kingPositions gs' = Layered.kingPositions gs
  /\ Layered.capturedPieces gs' = Layered.capturedPieces gs
  /\ Layered.result gs' = Layered.result gs
  /\ Layered.promotionPending gs' = Layered.promotionPending gs
  /\ Layered.promotionMove gs' = Layered.promotionMove gs.
Proof.
  intros Hr. cbv zeta. apply reachable_ctrl_inv in Hr.
  destruct (goToMove_store moveIndex c Hr) as [->|(snapshot & gs & -> & H)].
  - repeat split.
  - exact H.
Qed.

(** After 1. e4 e5 2. Ke2 the start position is shown again: the rights
    and the king's recorded square stay those after the king's move. *)
Lemma navigation_after_the_king_has_moved :
  let c := Layered_clicks [(6, 4); (4, 4); (1, 4); (3, 4); (7, 4); (6, 4)] Layered_start in
  let gs := Layered.gameState c in
  let gs' := Layered.gameState (Layered.goToMove 0 c) in
  Layered.castlingRights gs' = Layered.castlingRights gs
  /\ Layered.enPassantTarget gs' = Layered.enPassantTarget gs
  /\ Layered.kingPositions gs' = Layered.kingPositions gs
  /\ Layered.capturedPieces gs' = Layered.capturedPieces gs
  /\ Layered.result gs' = Layered.result gs
  /\ Layered.promotionPending gs' = Layered.promotionPending gs
  /\ Layered.promotionMove gs' = Layered.promotionMove gs.
Proof.
  apply (navigation_restores_only_the_board
           (Layered_clicks [(6, 4); (4, 4); (1, 4); (3, 4); (7, 4); (6, 4)] Layered_start) 0).
  apply reachable_clicks, reach_initialize.
Defined.

(** The validator's board after a navigation.  In a reachable state,
    [goToMove] with an index in range makes the controller refer to a new
    board object, while the validator keeps the one it was constructed
    with.  From then on the two stay apart: no operation of the
    controller (click, navigation, promotion, new game, [makeMove], a
    flip of the board or the restored orientation of a saved game)
    changes the board the validator examines. *)
Theorem validator_board_is_frozen_after_navigation (c : Layered.Controller) :
  reachable c ->
  (forall moveIndex,
      0 <= moveIndex <= Z.of_nat (length (Layered.moveHistory (Layered.gameState c))) ->
      detached (Layered.goToMove moveIndex c))
  /\ (detached c ->
      forall c', Layered_step c c' ->
                 detached c'
                 /\ Layered.v_board (Layered.theValidator c')
                    = Layered.v_board (Layered.theValidator c)).
Proof.
  intros Hr. apply reachable_ctrl_inv in Hr. split.
  - intros moveIndex Hrange.
    destruct (goToMove_snapshot moveIndex c Hr Hrange) as (snapshot & gs & _ & -> & _).
    destruct Hr as (_ & _ & Hv & _). unfold detached. cbn. lia.
  - intros Hd c' Hstep. apply store_change_frozen; [assumption..|].
    now apply store_change_step.
Qed.

(** After 1. e4 the "last move" button is pressed, and then Black's pawn
    is moved to e5: the validator still examines the position after
    1. e4. *)
Lemma validator_after_e4_and_a_navigation :
  let c := Layered.goToMove 1 (Layered_clicks [(6, 4); (4, 4)] Layered_start) in
  let c' := snd (Layered.makeMove 1 4 3 4 None None c) in
  detached (Layered.goToMove 0 c)
  /\ detached c'
  /\ Layered.v_board (Layered.theValidator c') = Layered.v_board (Layered.theValidator c).
Proof.
  destruct (validator_board_is_frozen_after_navigation
              (Layered.goToMove 1 (Layered_clicks [(6, 4); (4, 4)] Layered_start)))
    as [Ha Hb].
  - apply reach_goToMove, reachable_clicks, reach_initialize.
  - split.
    + apply Ha. vm_compute. split; discriminate.
    + apply Hb.
      * vm_compute. discriminate.
      * apply step_makeMove.
Defined.

Section Reset.

Lemma gameState_at_the_start :
  Layered.gameState Layered_start
  = Layered.set_boardStates [Layered.createInitialBoard]
      (Layered.GameState_reset Layered.newGameState).
Proof. vm_compute. reflexivity. Qed.

End Reset.

(** "New game".  In the monolithic engine [resetGame] gives the state the
    constructor gives, except for the board orientation and the pending
    promotion, which it leaves as they are; so when it is called while the
    promotion dialog is open, every click on the board is ignored
    afterwards.  In the layered engine it gives, in every reachable state,
    the initial board, the game state of a started game except for the
    board orientation, which stays as [flipBoard] or a saved game has
    left it, and an empty selection. *)
Theorem resetGame_returns_to_the_start :
  (forall g : Mono.Game,
      ChessGame.resetGame g
      = Mono.set_promotionMove (Mono.promotionMove g)
          (Mono.set_promotionPending (Mono.promotionPending g)
             (Mono.set_boardOrientation (Mono.boardOrientation g) Mono.newGame))
      /\ (Mono.promotionPending g = true ->
          forall row col,
            Mono.onSquareClick row col (ChessGame.resetGame g) = ChessGame.resetGame g))
  /\ (forall c : Layered.Controller,
         reachable c ->
         Layered.liveBoard (Layered.resetGame c) = Layered.createInitialBoard
         /\ Layered.gameState (Layered.resetGame c)
            = Layered.set_boardOrientation (Layered.boardOrientation (Layered.gameState c))
                (Layered.gameState Layered_start)
         /\ Layered.selectedPiece (Layered.resetGame c) = None
         /\ Layered.possibleMoves (Layered.resetGame c) = []).
Proof.
  split.
  - intros g. split; [reflexivity|].
    intros Hp row col. unfold Mono.onSquareClick.
    change (Mono.promotionPending (ChessGame.resetGame g)) with (Mono.promotionPending g).
    rewrite Hp. now rewrite orb_true_r.
  - intros c Hr. apply reachable_ctrl_inv in Hr.
    assert (Hb : Layered.liveBoard (Layered.writeBoard Layered.createInitialBoard c)
                 = Layered.createInitialBoard).
    { destruct Hr as (_ & Hb & _). unfold Layered.liveBoard, Layered.writeBoard. cbn.
      now apply deref_insert. }
    unfold Layered.resetGame. split; [exact Hb|]. split; [|split; reflexivity].
    cbn [Layered.gameState Layered.clearSelection Layered.set_possibleMoves
         Layered.set_selectedPiece Layered.set_gameState].
    rewrite Hb, Board_clone_id, gameState_at_the_start. reflexivity.
Qed.

(** "New game" while the pawn on b7 waits for its promotion, with the
    board flipped: in the layered engine the orientation stays Black's. *)
Lemma resetGame_while_a_promotion_is_pending :
  (ChessGame.resetGame (ChessGame.flipBoard Mono_promotion_pending)
   = Mono.set_promotionMove (Mono.promotionMove (ChessGame.flipBoard Mono_promotion_pending))
       (Mono.set_promotionPending
          (Mono.promotionPending (ChessGame.flipBoard Mono_promotion_pending))
          (Mono.set_boardOrientation
             (Mono.boardOrientation (ChessGame.flipBoard Mono_promotion_pending))
             Mono.newGame))
   /\ Mono.onSquareClick 6 4 (ChessGame.resetGame (ChessGame.flipBoard Mono_promotion_pending))
      = ChessGame.resetGame (ChessGame.flipBoard Mono_promotion_pending))
  /\ Layered.liveBoard (Layered.resetGame (Layered.flipBoard Layered_promotion_pending))
     = Layered.createInitialBoard
  /\ Layered.gameState (Layered.resetGame (Layered.flipBoard Layered_promotion_pending))
     = Layered.set_boardOrientation
         (Layered.boardOrientation
            (Layered.gameState (Layered.flipBoard Layered_promotion_pending)))
         (Layered.gameState Layered_start)
  /\ Layered.selectedPiece (Layered.resetGame (Layered.flipBoard Layered_promotion_pending))
     = None
  /\ Layered.possibleMoves (Layered.resetGame (Layered.flipBoard Layered_promotion_pending))
     = [].
Proof.
  split.
  - destruct (proj1 resetGame_returns_to_the_start
                    (ChessGame.flipBoard Mono_promotion_pending)) as [H1 H2].
    split; [exact H1|]. apply (H2 eq_refl 6 4).
  - apply (proj2 resetGame_returns_to_the_start (Layered.flipBoard Layered_promotion_pending)).
    apply reach_flipBoard, reachable_clicks, reach_initialize.
Defined.
